(** * scripts/cleanup.py: removal of build artefacts

    A shallow embedding of the cleanup script of nautilus_trader and of the
    part of the POSIX file system and of the Python standard library
    ([os.remove], [shutil.rmtree], [os.walk], [os.path.isfile],
    [os.path.join], [os.path.dirname], [os.path.abspath], [str.endswith])
    that the script runs on.

    Scope of the file-system model: a tree of regular files, symbolic links
    (with absolute targets) and directories; a directory carries the one
    permission that decides whether an entry can be deleted from it (its
    write bit).  Relative link targets, [..], hard links, special files and
    read/search permissions are outside the model.

    The two allow-lists of the script are Python sets: the order in which
    a loop goes through one is an argument of [main], and the theorems hold
    for every order.  The order in which [os.scandir] lists a directory is
    the order of its entries in the tree, and the theorems hold for every
    tree.  Where a theorem needs the project root to be reached without
    following a link, and [nautilus_trader], [examples] and [docs] under it
    not to be links, it says so ([layoutb]). *)

From Stdlib Require Import String Ascii List Arith Lia Bool.
From stdpp Require Import base tactics option list strings.
Import ListNotations.
Local Open Scope string_scope.
Local Open Scope list_scope.

(** ** Python strings *)

Module PyStr.

(** [s.endswith(suf)] for one suffix, on the characters of the strings. *)
Definition chars (s : string) : list ascii := list_ascii_of_string s.

Fixpoint starts (pre l : list ascii) : bool :=
  match pre, l with
  | [], _ => true
  | a :: pre', b :: l' => if Ascii.eqb a b then starts pre' l' else false
  | _ :: _, [] => false
  end.

Definition endswith1 (s suf : string) : bool :=
  starts (rev (chars suf)) (rev (chars s)).

(** [s.endswith(tuple)]: true when some member of the tuple is a suffix. *)
Definition endswith (s : string) (sufs : list string) : bool :=
  existsb (endswith1 s) sufs.

Definition startswith1 (s pre : string) : bool :=
  starts (chars pre) (chars s).

(** [os.path.join(a, b)] of posixpath for two arguments. *)
Definition os_path_join (a b : string) : string :=
  if startswith1 b "/" then b
  else if (String.eqb a "" || endswith1 a "/")%bool then a ++ b
  else a ++ "/" ++ b.

(** The components of a constant relative path such as [docs/build]. *)
Fixpoint split_chars (acc : list ascii) (l : list ascii) : list string :=
  match l with
  | [] => match acc with [] => [] | _ => [string_of_list_ascii (rev acc)] end
  | c :: l' =>
      if Ascii.eqb c "/"%char
      then match acc with
           | [] => split_chars [] l'
           | _ => string_of_list_ascii (rev acc) :: split_chars [] l'
           end
      else split_chars (c :: acc) l'
  end.

Definition components (s : string) : list string := split_chars [] (chars s).

End PyStr.

(** The part of [posixpath] that computes the project root. *)
Module PosixPath.
Import PyStr.

Definition of_chars (l : list ascii) : string := string_of_list_ascii l.

(** [s.rfind(c)]: the index of the last occurrence of [c], or -1. *)
Fixpoint rfind_from (c : ascii) (l : list ascii) (i found : Z) : Z :=
  match l with
  | [] => found
  | a :: l' => rfind_from c l' (i + 1)%Z (if Ascii.eqb a c then i else found)
  end.

Definition rfind (s : string) (c : ascii) : Z :=
  rfind_from c (chars s) 0%Z (-1)%Z.

(** [s[:i]] for an index that is not negative. *)
Definition upto (s : string) (i : Z) : string :=
  of_chars (firstn (Z.to_nat i) (chars s)).

Fixpoint lstrip_chars (c : ascii) (l : list ascii) : list ascii :=
  match l with
  | [] => []
  | a :: l' => if Ascii.eqb a c then lstrip_chars c l' else l
  end.

(** [s.rstrip(c)]. *)
Definition rstrip (s : string) (c : ascii) : string :=
  of_chars (rev (lstrip_chars c (rev (chars s)))).

(** [c * n]. *)
Definition times (c : ascii) (n : nat) : string := of_chars (repeat c n).

(** [posixpath.dirname]. *)
Definition os_path_dirname (p : string) : string :=
  let i := (rfind p "/" + 1)%Z in
  let head := upto p i in
  if negb (String.eqb head "")
     && negb (String.eqb head (times "/" (String.length head)))
  then rstrip head "/"
  else head.

(** [s.split("/")]. *)
Fixpoint split_sep (acc l : list ascii) : list string :=
  match l with
  | [] => [of_chars (rev acc)]
  | c :: l' =>
      if Ascii.eqb c "/"%char then of_chars (rev acc) :: split_sep [] l'
      else split_sep (c :: acc) l'
  end.

Definition split (s : string) : list string := split_sep [] (chars s).

Definition is_nil (l : list string) : bool :=
  match l with [] => true | _ :: _ => false end.

(** One turn of the loop of [posixpath.normpath] over the components. *)
Definition norm_step (initial_slashes : nat) (new_comps : list string)
    (comp : string) : list string :=
  if (String.eqb comp "" || String.eqb comp ".")%bool then new_comps
  else if (negb (String.eqb comp "..")
           || (Nat.eqb initial_slashes 0 && is_nil new_comps)
           || (negb (is_nil new_comps)
               && String.eqb (List.last new_comps "") ".."))%bool
  then new_comps ++ [comp]
  else if negb (is_nil new_comps) then removelast new_comps
  else new_comps.

(** [posixpath.normpath]. *)
Definition os_path_normpath (path : string) : string :=
  if String.eqb path "" then "."
  else
    let initial_slashes :=
      if startswith1 path "/"
      then if (startswith1 path "//" && negb (startswith1 path "///"))%bool
           then 2 else 1
      else 0 in
    let comps := fold_left (norm_step initial_slashes) (split path) [] in
    let joined := String.concat "/" comps in
    let path' :=
      if Nat.eqb initial_slashes 0 then joined
      else (times "/" initial_slashes ++ joined)%string in
    if String.eqb path' "" then "." else path'.

(** [posixpath.abspath], with the working directory that [os.getcwd]
    returns as an argument. *)
Definition os_path_abspath (cwd path : string) : string :=
  os_path_normpath
    (if startswith1 path "/" then path else os_path_join cwd path).

End PosixPath.

(** ** The file system *)

Definition path := list string.

#[local] Unset Elimination Schemes.
Inductive node : Type :=
| File (content : string)
| Symlink (target : path)
| Dir (writable : bool) (entries : list (string * node)).
#[local] Set Elimination Schemes.

(** What [lstat] reports about an entry. *)
Inductive mode : Type :=
| S_IFREG (content : string)
| S_IFLNK (target : path)
| S_IFDIR (writable : bool).

Inductive errno : Type := ENOENT | ENOTDIR | EISDIR | EACCES | ELOOP.

#[global] Instance errno_eq_dec : EqDecision errno.
Proof. solve_decision. Defined.
#[global] Instance mode_eq_dec : EqDecision mode.
Proof. solve_decision. Defined.

Inductive res (A : Type) : Type :=
| Ok (a : A)
| Err (e : errno).
Arguments Ok {A} a.
Arguments Err {A} e.

Module FS.

Definition mode_of (n : node) : mode :=
  match n with
  | File c => S_IFREG c
  | Symlink t => S_IFLNK t
  | Dir w _ => S_IFDIR w
  end.

Fixpoint assoc (k : string) (es : list (string * node)) : option node :=
  match es with
  | [] => None
  | (k', n) :: es' => if String.eqb k k' then Some n else assoc k es'
  end.

(** The subtree at a path all of whose components are taken literally
    (no link is followed). *)
Fixpoint find (n : node) (p : path) : option node :=
  match p with
  | [] => Some n
  | c :: p' =>
      match n with
      | Dir _ es =>
          match assoc c es with
          | Some ch => find ch p'
          | None => None
          end
      | _ => None
      end
  end.

Definition lstat_at (fs : node) (p : path) : option mode :=
  option_map mode_of (find fs p).

(** Path resolution: every link met on the way is followed, at most
    [fuel] of them in all (the kernel's limit is 40), and the canonical
    path of the entry reached is returned. *)
Fixpoint resolve (fuel : nat) (fs : node) : path -> path -> res path :=
  fix go (cur rest : path) {struct rest} : res path :=
    match rest with
    | [] => Ok cur
    | c :: rest' =>
        match lstat_at fs (cur ++ [c]) with
        | None => Err ENOENT
        | Some (S_IFDIR _) => go (cur ++ [c]) rest'
        | Some (S_IFREG _) =>
            match rest' with
            | [] => Ok (cur ++ [c])
            | _ :: _ => Err ENOTDIR
            end
        | Some (S_IFLNK t) =>
            match fuel with
            | O => Err ELOOP
            | S f => resolve f fs [] (t ++ rest')
            end
        end
    end.

Definition MAXSYMLINKS : nat := 40.

Definition realpath (fs : node) (p : path) : res path :=
  resolve MAXSYMLINKS fs [] p.

(** [os.stat]: the last component is followed too. *)
Definition stat (fs : node) (p : path) : res mode :=
  match realpath fs p with
  | Ok c => match lstat_at fs c with
            | Some m => Ok m
            | None => Err ENOENT
            end
  | Err e => Err e
  end.

(** The directory that holds the last component, resolved, and the name
    of that component: what [lstat], [unlink] and [rmdir] work on. *)
Definition split_last (p : path) : option (path * string) :=
  match rev p with
  | [] => None
  | name :: ini => Some (rev ini, name)
  end.

Definition resolve_parent (fs : node) (p : path) : res (path * string) :=
  match split_last p with
  | None => Err EISDIR
  | Some (ini, name) =>
      match realpath fs ini with
      | Err e => Err e
      | Ok d =>
          match lstat_at fs d with
          | Some (S_IFDIR _) => Ok (d, name)
          | _ => Err ENOTDIR
          end
      end
  end.

(** [os.lstat]. *)
Definition lstat (fs : node) (p : path) : res mode :=
  match p with
  | [] => Ok (mode_of fs)
  | _ =>
    match resolve_parent fs p with
    | Err e => Err e
    | Ok (d, name) =>
        match lstat_at fs (d ++ [name]) with
        | Some m => Ok m
        | None => Err ENOENT
        end
    end
  end.

Definition isfile (fs : node) (p : path) : bool :=
  match stat fs p with
  | Ok (S_IFREG _) => true
  | _ => false
  end.

Definition isdir (fs : node) (p : path) : bool :=
  match stat fs p with
  | Ok (S_IFDIR _) => true
  | _ => false
  end.

Definition islink (fs : node) (p : path) : bool :=
  match lstat fs p with
  | Ok (S_IFLNK _) => true
  | _ => false
  end.

(** The names [os.scandir] yields, in the order the directory holds
    them. *)
Definition scandir (fs : node) (p : path) : res (list string) :=
  match realpath fs p with
  | Err e => Err e
  | Ok d =>
      match find fs d with
      | Some (Dir _ es) => Ok (map fst es)
      | _ => Err ENOTDIR
      end
  end.

(** *** Updates *)

Fixpoint map_entry (k : string) (g : node -> node)
    (es : list (string * node)) : list (string * node) :=
  match es with
  | [] => []
  | (k', n) :: es' =>
      if String.eqb k k' then (k', g n) :: es'
      else (k', n) :: map_entry k g es'
  end.

Definition remove_name (k : string) (es : list (string * node))
    : list (string * node) :=
  List.filter (fun kv => negb (String.eqb k (fst kv))) es.

(** Rewrites the entry list of the directory at the literal path [d]. *)
Fixpoint update_dir (f : bool -> list (string * node) -> list (string * node))
    (n : node) (d : path) : node :=
  match n with
  | Dir w es =>
      match d with
      | [] => Dir w (f w es)
      | c :: d' => Dir w (map_entry c (fun ch => update_dir f ch d') es)
      end
  | _ => n
  end.

(** [unlink(2)] as [os.remove] calls it: the entry must exist, its
    directory must be writable, and it must not be a directory. *)
Definition unlink (fs : node) (p : path) : res node :=
  match resolve_parent fs p with
  | Err e => Err e
  | Ok (d, name) =>
      match lstat_at fs (d ++ [name]) with
      | None => Err ENOENT
      | Some m =>
          match lstat_at fs d with
          | Some (S_IFDIR true) =>
              match m with
              | S_IFDIR _ => Err EISDIR
              | _ => Ok (update_dir (fun _ => remove_name name) fs d)
              end
          | _ => Err EACCES
          end
      end
  end.

(** An entry can be taken out of a directory with write bit [w] when it
    is not a directory that still has entries. *)
Definition removable (w : bool) (n : node) : bool :=
  w && match n with
       | Dir _ (_ :: _) => false
       | _ => true
       end.

Definition purge (w : bool) (es : list (string * node))
    : list (string * node) :=
  List.filter (fun kv => negb (removable w (snd kv))) es.

(** What is left of a node once [shutil.rmtree(..., ignore_errors=True)]
    has gone through it: below a directory every entry that can be
    deleted is deleted, every failure is skipped. *)
Fixpoint rmtree_node (n : node) : node :=
  match n with
  | Dir w es =>
      Dir w (purge w (map (fun kv => (fst kv, rmtree_node (snd kv))) es))
  | _ => n
  end.

(** The entry [name] of a directory with write bit [w] after
    [rmtree]: emptied as far as possible, and removed ([rmdir]) if that
    left nothing in it. *)
Definition rmtree_entry (name : string) (w : bool)
    (es : list (string * node)) : list (string * node) :=
  match assoc name es with
  | Some n =>
      let n' := rmtree_node n in
      if removable w n' then remove_name name es
      else map_entry name (fun _ => n') es
  | None => es
  end.

(** [shutil.rmtree(p, ignore_errors=True)]: it refuses a symbolic link,
    fails on anything that is not a directory, and all of that is
    swallowed. *)
Definition rmtree_ignore_errors (fs : node) (p : path) : node :=
  match resolve_parent fs p with
  | Err _ => fs
  | Ok (d, name) =>
      match lstat_at fs (d ++ [name]) with
      | Some (S_IFDIR _) => update_dir (rmtree_entry name) fs d
      | _ => fs
      end
  end.

Fixpoint height (n : node) : nat :=
  match n with
  | Dir _ es => S (list_max (map (fun kv => height (snd kv)) es))
  | _ => 0
  end.

End FS.

(** ** The script *)

Definition FILES_TO_CLEAN : list string :=
  [".coverage"; "coverage.xml"; "dump.rdb"].

Definition DIRS_TO_CLEAN : list string :=
  [".nox"; ".profile"; ".pytest_cache"; "__pycache__"; "build"; "dist";
   "docs/build"; "coverage.xml"; "dump.rdb"].

Definition EXTENSIONS_TO_CLEAN : list string :=
  [".dll"; ".html"; ".o"; ".prof"; ".pyd"; ".pyc"; ".so"].

(** Line 54: the directory two levels above the script, whose path is
    [__file__]. *)
Definition root_dir_of (cwd file : string) : string :=
  PosixPath.os_path_dirname
    (PosixPath.os_path_dirname (PosixPath.os_path_abspath cwd file)).

(** A path as the script holds it: the Python string, and the components
    the kernel sees in it. *)
Record pathname : Type := { text : string; parts : path }.

Definition join (p : pathname) (name : string) : pathname :=
  {| text := PyStr.os_path_join (text p) name; parts := parts p ++ [name] |}.

Definition join_rel (p : pathname) (rel : string) : pathname :=
  {| text := PyStr.os_path_join (text p) rel;
     parts := parts p ++ PyStr.components rel |}.

Definition concat_dir (p : pathname) (suffix : string) : pathname :=
  {| text := text p ++ suffix; parts := parts p ++ PyStr.components suffix |}.

(** The lines the script prints. *)
Inductive line : Type :=
| RootDir (root : string)
| Removed (target : string)
| RemovingDir (target : string)
| RemovedCount (n : nat).

Record world : Type := { fs : node; stdout : list line }.

Definition print (l : line) (w : world) : world :=
  {| fs := fs w; stdout := stdout w ++ [l] |}.

Definition set_fs (n : node) (w : world) : world :=
  {| fs := n; stdout := stdout w |}.

(** How a piece of the script ends: normally, with an uncaught exception
    (the world is what it was when the exception was raised), or because
    the model's recursion budget ran out. *)
Inductive outcome (S : Type) : Type :=
| Done (s : S)
| Raised (e : errno) (w : world)
| OutOfFuel.
Arguments Done {S} s.
Arguments Raised {S} e w.
Arguments OutOfFuel {S}.

Fixpoint for_each {A S : Type} (body : A -> S -> outcome S)
    (l : list A) (s : S) : outcome S :=
  match l with
  | [] => Done s
  | a :: l' =>
      match body a s with
      | Done s' => for_each body l' s'
      | Raised e w => Raised e w
      | OutOfFuel => OutOfFuel
      end
  end.

Definition bind {S T : Type} (o : outcome S) (k : S -> outcome T) : outcome T :=
  match o with
  | Done s => k s
  | Raised e w => Raised e w
  | OutOfFuel => OutOfFuel
  end.

(** Lines 58-63. *)
Definition remove_listed_file (root_dir : pathname) (target : string)
    (w : world) : outcome world :=
  match FS.unlink (fs w) (parts (join_rel root_dir target)) with
  | Ok fs' => Done (print (Removed target) (set_fs fs' w))
  | Err ENOENT => Done w
  | Err e => Raised e w
  end.

(** Lines 66-68. *)
Definition remove_listed_dir (root_dir : pathname) (target : string)
    (w : world) : outcome world :=
  let w1 := print (RemovingDir target) w in
  Done (set_fs (FS.rmtree_ignore_errors (fs w1)
                  (parts (join_rel root_dir target))) w1).

(** Lines 74-77 (and 80-83). *)
Definition sweep_file (root : pathname) (name : string)
    (st : world * nat) : outcome (world * nat) :=
  let p := join root name in
  if FS.isfile (fs (fst st)) (parts p)
     && PyStr.endswith (text p) EXTENSIONS_TO_CLEAN
  then match FS.unlink (fs (fst st)) (parts p) with
       | Ok fs' => Done (set_fs fs' (fst st), S (snd st))
       | Err e => Raised e (fst st)
       end
  else Done st.

(** [entry.is_dir()] of [os.walk]: links are followed. *)
Definition entry_is_dir (n : node) (top : pathname) (name : string) : bool :=
  FS.isdir n (parts top ++ [name]).

Definition dirs_of (n : node) (top : pathname) (names : list string)
    : list string :=
  List.filter (entry_is_dir n top) names.

Definition nondirs_of (n : node) (top : pathname) (names : list string)
    : list string :=
  List.filter (fun name => negb (entry_is_dir n top name)) names.

(** [for root, _dirs, files in os.walk(top)] with the loop body of the
    script run at each directory the generator yields: the directory is
    listed, its non-directories are handed to the body, and only then is
    each sub-directory that is not a link listed in its turn. *)
Fixpoint walk_sweep (fuel : nat) (top : pathname) (st : world * nat)
    : outcome (world * nat) :=
  match fuel with
  | O => OutOfFuel
  | S f =>
      match FS.scandir (fs (fst st)) (parts top) with
      | Err _ => Done st
      | Ok names =>
          bind (for_each (sweep_file top)
                  (nondirs_of (fs (fst st)) top names) st)
            (for_each
               (fun dirname st' =>
                  let new_path := join top dirname in
                  if FS.islink (fs (fst st')) (parts new_path)
                  then Done st'
                  else walk_sweep f new_path st')
               (dirs_of (fs (fst st)) top names))
      end
  end.

Definition os_walk_sweep (top : pathname) (st : world * nat)
    : outcome (world * nat) :=
  walk_sweep (S (FS.height (fs (fst st)))) top st.

(** Lines 71-83: the two walks. *)
Definition sweep (root_dir : pathname) (w : world) : outcome (world * nat) :=
  bind (os_walk_sweep (concat_dir root_dir "/nautilus_trader/") (w, 0))
       (os_walk_sweep (concat_dir root_dir "/examples/")).

(** Lines 54-84.  The two allow-lists are Python sets, whose iteration
    order is not fixed: the order of each loop is an argument. *)
Definition main (root_dir : pathname) (files dirs : list string)
    (fs0 : node) : outcome world :=
  let w0 := print (RootDir (text root_dir)) {| fs := fs0; stdout := [] |} in
  bind (for_each (remove_listed_file root_dir) files w0) (fun w1 =>
  bind (for_each (remove_listed_dir root_dir) dirs w1) (fun w2 =>
  bind (sweep root_dir w2) (fun st =>
  Done (print (RemovedCount (snd st)) (fst st))))).

(** ** Predicates used in the statements *)

Module Props.
Import PyStr FS.

Definition no_slash (suf : string) : bool :=
  forallb (fun c => negb (Ascii.eqb c "/"%char)) (chars suf).

(** A function on entry lists that leaves every name but [x] alone. *)
Definition touches_only (x : string)
    (f : bool -> list (string * node) -> list (string * node)) : Prop :=
  forall w es k, k <> x -> assoc k (f w es) = assoc k es.

(** Two paths that part at some component. *)
Fixpoint diverge (a b : path) : Prop :=
  match a, b with
  | u :: a', v :: b' => u <> v \/ diverge a' b'
  | _, _ => False
  end.

Definition is_dir_mode (m : mode) : bool :=
  match m with S_IFDIR _ => true | _ => false end.

(** [erased P fs l fs']: [fs'] is [fs] without the entries [l], none of
    them a directory, each of them satisfying [P]. *)
Definition erased (P : path -> Prop) (fs : node) (l : list path) (fs' : node)
    : Prop :=
  NoDup l
  /\ (forall c, c ∈ l ->
        P c /\ exists m, lstat_at fs c = Some m /\ is_dir_mode m = false)
  /\ (forall q, lstat_at fs' q = if decide (q ∈ l) then None else lstat_at fs q)
  /\ forall q, (forall c, c ∈ l -> diverge c q) -> find fs' q = find fs q.

(** [fs'] reports nothing that [fs] does not report. *)
Definition shrinks (fs fs' : node) : Prop :=
  forall q m, lstat_at fs' q = Some m -> lstat_at fs q = Some m.

(** A path all of whose prefixes are directories proper. *)
Definition real_dir (fs : node) (d : path) : Prop :=
  forall q, q `prefix_of` d -> exists w, lstat_at fs q = Some (S_IFDIR w).

Definition bounded (n : node) (d : path) (k : nat) : Prop :=
  forall q m, lstat_at n (d ++ q) = Some m -> length q <= k.

(** The last component of the path ends with a configured suffix. *)
Definition ext_name (c : path) : Prop :=
  exists d name,
    c = d ++ [name] /\ PyStr.endswith name EXTENSIONS_TO_CLEAN = true.

(** What a stretch of the sweep may do to the state: nothing is printed,
    some entries with a configured suffix are gone, and the counter has
    grown by their number. *)
Definition swept_in (P : path -> Prop) (st st' : world * nat) : Prop :=
  stdout (fst st') = stdout (fst st)
  /\ exists l, erased P (fs (fst st)) l (fs (fst st'))
               /\ snd st' = snd st + length l.

Definition swept : world * nat -> world * nat -> Prop := swept_in ext_name.

(** The body of the loop over [dirs] in [os.walk]: a link is passed
    over, anything else is walked. *)
Definition descend (f : nat) (top : pathname) (dirname : string)
    (st : world * nat) : outcome (world * nat) :=
  if FS.islink (fs (fst st)) (parts (join top dirname)) then Done st
  else walk_sweep f (join top dirname) st.

Definition strictly_below (d c : path) : Prop :=
  exists rel, rel <> [] /\ c = d ++ rel.

(** An entry strictly below [d], with a configured suffix, that
    [os.path.isfile] accepts in the tree [n0]. *)
Definition below_ext (n0 : node) (d c : path) : Prop :=
  ext_name c /\ strictly_below d c /\ isfile n0 c = true.

(** The effect of a stretch of the walk below [d], stated for the
    states in which [d] is a directory proper. *)
Definition swept_below (n0 : node) (d : path) (st st' : world * nat) : Prop :=
  real_dir (fs (fst st)) d -> shrinks n0 (fs (fst st)) ->
  swept_in (below_ext n0 d) st st'.

(** Nothing below [d] would be deleted by the loop body. *)
Definition clean (n : node) (d : path) : Prop :=
  forall rel name,
    real_dir n (d ++ rel) -> isfile n (d ++ rel ++ [name]) = true ->
    PyStr.endswith name EXTENSIONS_TO_CLEAN = false.

Fixpoint node_ind' (P : node -> Prop)
    (HF : forall c, P (File c)) (HL : forall t, P (Symlink t))
    (HD : forall w es, Forall (fun kv => P (snd kv)) es -> P (Dir w es))
    (n : node) : P n :=
  match n with
  | File c => HF c
  | Symlink t => HL t
  | Dir w es =>
      HD w es
        ((fix go (es : list (string * node)) : Forall (fun kv => P (snd kv)) es :=
            match es with
            | [] => @List.Forall_nil _ _
            | kv :: es' =>
                @List.Forall_cons _ _ kv es' (node_ind' P HF HL HD (snd kv)) (go es')
            end) es)
  end.

Definition rm_child (kv : string * node) : string * node :=
  (fst kv, rmtree_node (snd kv)).

(** Every directory in the tree is writable. *)
Fixpoint deletable (n : node) : bool :=
  match n with
  | Dir w es => w && forallb (fun kv => deletable (snd kv)) es
  | _ => true
  end.

Definition plain (n : node) (p : path) : Prop :=
  forall t, lstat_at n p <> Some (S_IFLNK t).

(** [rmtree] works on the path as written: the directory that holds its
    last component is reached without following a link. *)
Definition anchored (n : node) (p : path) : Prop :=
  exists d name,
    p = d ++ [name]
    /\ (forall w, lstat_at n p = Some (S_IFDIR w) -> real_dir n d)
    /\ rmtree_ignore_errors n p
       = match lstat_at n p with
         | Some (S_IFDIR _) => update_dir (rmtree_entry name) n d
         | _ => n
         end.

(** Nothing is left for [rmtree] to do at [p]. *)
Definition stuck (n : node) (p : path) : Prop :=
  forall w, lstat_at n p = Some (S_IFDIR w) ->
    exists d name k wd,
      p = d ++ [name] /\ find n p = Some k /\ rmtree_node k = k
      /\ lstat_at n d = Some (S_IFDIR wd) /\ removable wd k = false.

(** The path the script builds for an allow-list entry. *)
Definition target (root : pathname) (t : string) : path :=
  parts (join_rel root t).

Definition nt_top (root : pathname) : pathname :=
  concat_dir root "/nautilus_trader/".

Definition ex_top (root : pathname) : pathname :=
  concat_dir root "/examples/".

Definition is_dirb (n : node) (p : path) : bool :=
  match lstat_at n p with Some (S_IFDIR _) => true | _ => false end.

Definition is_linkb (n : node) (p : path) : bool :=
  match lstat_at n p with Some (S_IFLNK _) => true | _ => false end.

Fixpoint prefixes (p : path) : list path :=
  match p with
  | [] => [[]]
  | c :: p' => [] :: map (cons c) (prefixes p')
  end.

(** The assumptions on the project tree: the root is reached without
    following a link, and none of [nautilus_trader], [examples] and
    [docs] directly under it is a link. *)
Definition layoutb (root : pathname) (n : node) : bool :=
  forallb (is_dirb n) (prefixes (parts root))
  && negb (is_linkb n (parts root ++ ["nautilus_trader"]))
  && negb (is_linkb n (parts root ++ ["examples"]))
  && negb (is_linkb n (parts root ++ ["docs"])).

Record layout (root : pathname) (n : node) : Prop := {
  layout_root : real_dir n (parts root);
  layout_nt : plain n (parts root ++ ["nautilus_trader"]);
  layout_ex : plain n (parts root ++ ["examples"]);
  layout_docs : plain n (parts root ++ ["docs"])
}.

Fixpoint divergeb (a b : path) : bool :=
  match a, b with
  | u :: a', v :: b' => negb (String.eqb u v) || divergeb a' b'
  | _, _ => false
  end.

(** The entry names a single component. *)
Definition single (t : string) : Prop := PyStr.components t = [t].

Definition listed_in (root : pathname) (files : list string) (c : path) : Prop :=
  exists t, In t files /\ c = parts root ++ [t].

(** The effect of a stretch of the file loop, stated for the states in
    which the root is a directory proper. *)
Definition filed (root : pathname) (files : list string) (w w' : world) : Prop :=
  real_dir (fs w) (parts root) ->
  exists l, erased (listed_in root files) (fs w) l (fs w').

(** An entry that is there and cannot be unlinked: it is a directory,
    or the root does not let entries be removed. *)
Definition blocked (root : pathname) (n : node) (t : string) : Prop :=
  exists m, lstat_at n (parts root ++ [t]) = Some m
            /\ (is_dir_mode m = true
                \/ lstat_at n (parts root) <> Some (S_IFDIR true)).

Definition rm_target (root : pathname) (n : node) (t : string) : node :=
  rmtree_ignore_errors n (target root t).

(** An entry below one of the two subtrees whose name ends with a
    configured suffix. *)
Definition below_tops (root : pathname) (n0 : node) (c : path) : Prop :=
  below_ext n0 (parts root ++ ["nautilus_trader"]) c
  \/ below_ext n0 (parts root ++ ["examples"]) c.

(** The state in which the script starts its loops. *)
Definition start (root : pathname) (fs0 : node) : world :=
print (RootDir (text root)) {| fs := fs0; stdout := [] |}.

(** The state the directory loop leaves. *)
Definition after_dirs (root : pathname) (dirs : list string) (w : world) : world :=
{| fs := fold_left (rm_target root) dirs (fs w);
   stdout := stdout w ++ map RemovingDir dirs |}.

Definition report (st : world * nat) : outcome world :=
Done (print (RemovedCount (snd st)) (fst st)).

(** The reading of C2: a link below a swept subtree whose name ends with
    a configured suffix is still there after the sweep. *)
Definition links_survive (root : pathname) (n : node) : Prop :=
forall c t st,
  lstat_at n c = Some (S_IFLNK t) ->
  below_tops root n c ->
  sweep root {| fs := n; stdout := [] |} = Done st ->
  lstat_at (fs (fst st)) c = Some (S_IFLNK t).

(** The reading of C6: when an entry of both allow-lists is a directory,
    the attempt of the file loop on it changes nothing and the run goes
    on to its end. *)
Definition mismatch_harmless (root : pathname) (n : node) : Prop :=
forall t wd,
  In t FILES_TO_CLEAN -> In t DIRS_TO_CLEAN ->
  lstat_at n (target root t) = Some (S_IFDIR wd) ->
  remove_listed_file root t (start root n) = Done (start root n)
  /\ exists w, main root FILES_TO_CLEAN DIRS_TO_CLEAN n = Done w.

Definition counted (l : line) : bool :=
match l with RemovedCount _ => true | _ => false end.

(** The path [os.walk] hands to the loop body for the entry [rel] below
    [top]: the names joined one after the other. *)
Definition walk_path (top : pathname) (rel : list string) : pathname :=
fold_left join rel top.

(** The allow-list entry [t] is there, whatever it is. *)
Definition present (root : pathname) (n : node) (t : string) : bool :=
  match lstat_at n (parts root ++ [t]) with
  | Some _ => true
  | None => false
  end.

(** A path the script has no business with: not a listed file, not at or
    below a listed directory, not strictly below a swept subtree. *)
Definition out_of_reach (root : pathname) (q : path) : Prop :=
  (forall t, In t FILES_TO_CLEAN -> q <> parts root ++ [t])
  /\ (forall t, In t DIRS_TO_CLEAN -> ~ target root t `prefix_of` q)
  /\ ~ strictly_below (parts root ++ ["nautilus_trader"]) q
  /\ ~ strictly_below (parts root ++ ["examples"]) q.

(** A name as [os.scandir] yields it: not empty, no [/] in it. *)
Definition plain_name (name : string) : bool :=
  negb (String.eqb name "") && no_slash name.

(** The string and the components of a path name agree. *)
Definition coherent (p : pathname) : Prop :=
  PyStr.components (text p) = parts p.

(** Two states of the sweep that differ at most in what has been
    printed. *)
Definition same_tree (st st' : world * nat) : Prop :=
  fs (fst st) = fs (fst st') /\ snd st = snd st'.

(** Two outcomes of the sweep of the same kind, with the same tree, the
    same count and the same error. *)
Definition alike (o o' : outcome (world * nat)) : Prop :=
  match o, o' with
  | Done st, Done st' => same_tree st st'
  | Raised e w, Raised e' w' => e = e' /\ fs w = fs w'
  | OutOfFuel, OutOfFuel => True
  | _, _ => False
  end.

(** No directory of the tree lists a name twice. *)
Fixpoint unique_names (n : node) : bool :=
  match n with
  | Dir _ es =>
      bool_decide (NoDup (map fst es))
      && forallb (fun kv => unique_names (snd kv)) es
  | _ => true
  end.

(** A component of a normalised path: a name other than [.] and [..]. *)
Definition normal_name (c : string) : bool :=
  plain_name c && negb (String.eqb c ".") && negb (String.eqb c "..").

(** The characters of [/c1/c2/.../cn]. *)
Definition slashed (cs : list string) : list ascii :=
  flat_map (fun c => "/"%char :: chars c) cs.

(** The absolute path with the components [cs]. *)
Definition absolute (cs : list string) : string :=
  ("/" ++ String.concat "/" cs)%string.

(** An entry of the directory allow-list that the file allow-list holds
    too. *)
Definition shared (t : string) : bool :=
  existsb (String.eqb t) FILES_TO_CLEAN.

(** The regular files of a tree whose name ends with a configured
    suffix, by their paths from [here]; links are not followed. *)
Fixpoint ext_files (n : node) (here : path) : list path :=
  match n with
  | Dir _ es =>
      flat_map
        (fun kv =>
           match snd kv with
           | File _ =>
               if PyStr.endswith (fst kv) EXTENSIONS_TO_CLEAN
               then [here ++ [fst kv]] else []
           | Symlink _ => []
           | Dir _ _ => ext_files (snd kv) (here ++ [fst kv])
           end) es
  | _ => []
  end.

Definition ext_files_at (n : node) (d : path) : list path :=
  match find n d with Some m => ext_files m d | None => [] end.

(** The reading of C1: a sweep that ends normally deletes the regular
    files below the two subtrees whose name ends with a configured
    suffix, those only, and its count is their number. *)
Definition counts_regular_files (root : pathname) (n : node) : Prop :=
  forall st,
    sweep root {| fs := n; stdout := [] |} = Done st ->
    let files := ext_files_at n (parts (nt_top root))
                 ++ ext_files_at n (parts (ex_top root)) in
    snd st = length files
    /\ forall c, lstat_at n c <> None ->
         (lstat_at (fs (fst st)) c = None <-> In c files).

(** What a stretch of the sweep leaves alone besides: the entries of a
    directory that is not writable. *)
Definition locked_kept (st st' : world * nat) : Prop :=
  swept st st'
  /\ forall d x m,
       lstat_at (fs (fst st)) d = Some (S_IFDIR false) ->
       lstat_at (fs (fst st)) (d ++ [x]) = Some m ->
       lstat_at (fs (fst st')) (d ++ [x]) = Some m.

End Props.

(** ** Example trees *)

Module Examples.

Definition root0 : pathname := {| text := "/proj"; parts := ["proj"] |}.

(** The end-to-end scenario of the specification. *)
Definition scenario : node :=
Dir true
  [("proj",
    Dir true
      [("build", Dir true [("lib", Dir true [("a.o", File "obj")])]);
       ("__pycache__", Dir true []);
       (".coverage", File "cov");
       ("nautilus_trader",
        Dir true
          [("x.so", File "so");
           ("sub", Dir true [("y.pyc", File "pyc")]);
           ("keep.py", File "src")]);
       ("examples", Dir true [("z.html", File "html")])])].

(** A link with a configured suffix that points to a regular file. *)
Definition linked : node :=
Dir true
  [("proj",
    Dir true
      [("nautilus_trader",
        Dir true
          [("foo.so", Symlink ["proj"; "nautilus_trader"; "real.txt"]);
           ("real.txt", File "data")]);
       ("examples", Dir true [])])].

(** [coverage.xml] is a directory. *)
Definition coverage_dir : node :=
Dir true
  [("proj",
    Dir true
      [("coverage.xml", Dir true [("index", File "")]);
       ("nautilus_trader", Dir true []);
       ("examples", Dir true [])])].

(** A file that can be deleted, then one that cannot. *)
Definition guarded : node :=
Dir true
  [("proj",
    Dir true
      [("nautilus_trader",
        Dir true
          [("x.so", File "so");
           ("sub", Dir false [("y.pyc", File "pyc")])]);
       ("examples", Dir true [])])].

(** [guarded] once [x.so] is gone. *)
Definition guarded_left : node :=
Dir true
  [("proj",
    Dir true
      [("nautilus_trader",
        Dir true [("sub", Dir false [("y.pyc", File "pyc")])]);
       ("examples", Dir true [])])].

(** [scenario] after the two walks alone. *)
Definition scenario_swept : node :=
Dir true
  [("proj",
    Dir true
      [("build", Dir true [("lib", Dir true [("a.o", File "obj")])]);
       ("__pycache__", Dir true []);
       (".coverage", File "cov");
       ("nautilus_trader",
        Dir true [("sub", Dir true []); ("keep.py", File "src")]);
       ("examples", Dir true [])])].

(** [scenario] after a whole run. *)
Definition scenario_done : node :=
Dir true
  [("proj",
    Dir true
      [("nautilus_trader",
        Dir true [("sub", Dir true []); ("keep.py", File "src")]);
       ("examples", Dir true [])])].

(** Neither subtree is there. *)
Definition bare : node := Dir true [("proj", Dir true [("setup.py", File "")])].

(** [__pycache__] directories at the root and deeper. *)
Definition nested : node :=
Dir true
  [("proj",
    Dir true
      [("__pycache__", Dir true [("m.pyc", File "")]);
       ("pkg", Dir true [("__pycache__", Dir true [("n.pyc", File "")])])])].

(** A file with a configured suffix outside the two swept subtrees. *)
Definition outside : node :=
Dir true
  [("proj",
    Dir true
      [("nautilus_trader", Dir true [("x.so", File "so")]);
       ("tests", Dir true [("helper.so", File "so")]);
       ("examples", Dir true [])])].

(** [outside] after a whole run. *)
Definition outside_done : node :=
Dir true
  [("proj",
    Dir true
      [("nautilus_trader", Dir true []);
       ("tests", Dir true [("helper.so", File "so")]);
       ("examples", Dir true [])])].

(** Two listed files, listed directories at the root and under [docs],
    and a file to sweep. *)
Definition two_listed : node :=
Dir true
  [("proj",
    Dir true
      [(".coverage", File "cov");
       ("dump.rdb", File "db");
       ("dist", Dir true [("pkg.whl", File "")]);
       ("docs", Dir true [("build", Dir true [("index.html", File "")])]);
       ("nautilus_trader", Dir true [("x.so", File "so")]);
       ("examples", Dir true [])])].

(** [two_listed] after a whole run. *)
Definition two_listed_done : node :=
Dir true
  [("proj",
    Dir true
      [("docs", Dir true []);
       ("nautilus_trader", Dir true []);
       ("examples", Dir true [])])].

(** A listed directory that holds a directory which is not writable. *)
Definition locked_build : node :=
Dir true
  [("proj",
    Dir true
      [("build",
        Dir true
          [("tmp.o", File "o"); ("keep", Dir false [("data", File "d")])]);
       ("nautilus_trader", Dir true [("x.so", File "so")]);
       ("examples", Dir true [])])].

(** [locked_build] after a whole run. *)
Definition locked_build_done : node :=
Dir true
  [("proj",
    Dir true
      [("build", Dir true [("keep", Dir false [("data", File "d")])]);
       ("nautilus_trader", Dir true []);
       ("examples", Dir true [])])].

(** [nautilus_trader] is a link to a directory outside the project. *)
Definition linked_top : node :=
Dir true
  [("proj",
    Dir true
      [("nautilus_trader", Symlink ["opt"; "site"]);
       ("examples", Dir true [])]);
   ("opt", Dir true [("site", Dir true [("lib.so", File "so")])])].

(** [linked_top] after the sweep. *)
Definition linked_top_swept : node :=
Dir true
  [("proj",
    Dir true
      [("nautilus_trader", Symlink ["opt"; "site"]);
       ("examples", Dir true [])]);
   ("opt", Dir true [("site", Dir true [])])].

(** Links that form cycles, below the swept subtrees and at the root of
    one. *)
Definition cyclic : node :=
Dir true
  [("proj",
    Dir true
      [("nautilus_trader",
        Dir true
          [("loop", Symlink ["proj"; "nautilus_trader"]);
           ("self", Symlink ["proj"; "nautilus_trader"; "self"]);
           ("sub", Dir true [("a.so", File "x"); ("up", Symlink ["proj"])]);
           ("b.pyc", File "y")]);
       ("examples", Symlink ["proj"; "nautilus_trader"; "sub"])])].

(** [docs] is a link to a directory outside the project. *)
Definition linked_docs : node :=
Dir true
  [("proj", Dir true [("docs", Symlink ["srv"; "www"])]);
   ("srv",
    Dir true
      [("www",
        Dir true
          [("build", Dir true [("index.html", File "page")]);
           ("static", Dir true [])])])].

(** Links with a configured suffix: to a regular file outside the
    project, to nothing, and to a directory; and a directory with such a
    name. *)
Definition links_mixed : node :=
Dir true
  [("proj",
    Dir true
      [("nautilus_trader",
        Dir true
          [("foo.so", Symlink ["opt"; "lib.so"]);
           ("gone.so", Symlink ["nowhere"]);
           ("dir.so", Symlink ["proj"; "examples"]);
           ("sub.pyc", Dir true [])]);
       ("examples", Dir true [])]);
   ("opt", Dir true [("lib.so", File "elf")])].

(** [links_mixed] after the sweep. *)
Definition links_mixed_swept : node :=
Dir true
  [("proj",
    Dir true
      [("nautilus_trader",
        Dir true
          [("gone.so", Symlink ["nowhere"]);
           ("dir.so", Symlink ["proj"; "examples"]);
           ("sub.pyc", Dir true [])]);
       ("examples", Dir true [])]);
   ("opt", Dir true [("lib.so", File "elf")])].

(** A link to a file that the sweep deletes too, listed before its
    target and after it. *)
Definition chain_link_first : node :=
Dir true
  [("proj",
    Dir true
      [("nautilus_trader",
        Dir true
          [("a.so", Symlink ["proj"; "nautilus_trader"; "b.so"]);
           ("b.so", File "elf")]);
       ("examples", Dir true [])])].

Definition chain_target_first : node :=
Dir true
  [("proj",
    Dir true
      [("nautilus_trader",
        Dir true
          [("b.so", File "elf");
           ("a.so", Symlink ["proj"; "nautilus_trader"; "b.so"])]);
       ("examples", Dir true [])])].

End Examples.

(** ** Facts about Python strings *)

Module PyStrFacts.
Import Props.
Import PyStr.

Lemma chars_app a b : chars (a ++ b) = (chars a ++ chars b)%list.
Proof. unfold chars. induction a as [|c a IH]; simpl; [done|]. by rewrite IH. Qed.

Lemma starts_sep pre l1 l2 :
  forallb (fun c => negb (Ascii.eqb c "/"%char)) pre = true ->
  starts pre (l1 ++ "/"%char :: l2) = starts pre l1.
Proof.
  revert l1. induction pre as [|a pre IH]; intros l1 Hpre; [by destruct l1|].
  simpl in Hpre. apply andb_true_iff in Hpre as [Ha Hpre].
  destruct l1 as [|b l1]; simpl.
  - apply negb_true_iff in Ha. rewrite Ha. done.
  - destruct (Ascii.eqb a b); [apply IH; done|done].
Qed.

Lemma forallb_rev {A} (f : A -> bool) l : forallb f (rev l) = forallb f l.
Proof.
  induction l as [|a l IH]; simpl; [done|].
  rewrite forallb_app, IH. simpl. rewrite andb_true_r. apply andb_comm.
Qed.

Lemma endswith1_sep a b suf :
  no_slash suf = true -> endswith1 (a ++ "/" ++ b) suf = endswith1 b suf.
Proof.
  intros Hs. unfold endswith1. rewrite !chars_app. simpl.
  rewrite rev_app_distr. simpl. rewrite <- app_assoc. simpl.
  apply starts_sep. rewrite forallb_rev. done.
Qed.

Lemma endswith1_slash_inv a :
  endswith1 a "/" = true -> exists a', chars a = (a' ++ ["/"%char])%list.
Proof.
  unfold endswith1. change (rev (chars "/")) with ["/"%char]. intros H.
  destruct (rev (chars a)) as [|c l] eqn:E; [done|].
  change (starts ["/"%char] (c :: l))
    with (if Ascii.eqb "/" c then starts [] l else false) in H.
  destruct (Ascii.eqb "/" c) eqn:Ec; [|done].
  apply Ascii.eqb_eq in Ec. subst c.
  exists (rev l). rewrite <- (rev_involutive (chars a)), E. done.
Qed.

Lemma endswith1_app_slash a b suf :
  no_slash suf = true -> endswith1 a "/" = true ->
  endswith1 (a ++ b) suf = endswith1 b suf.
Proof.
  intros Hs [a' Ha]%endswith1_slash_inv. unfold endswith1.
  rewrite chars_app, Ha, <- app_assoc. simpl.
  rewrite rev_app_distr. simpl. rewrite <- app_assoc. simpl.
  apply starts_sep. rewrite forallb_rev. done.
Qed.

(** Whether a joined path ends with a suffix that holds no [/] is
    decided by its last argument alone. *)
Lemma endswith1_join a b suf :
  no_slash suf = true -> endswith1 (os_path_join a b) suf = endswith1 b suf.
Proof.
  intros Hs. unfold os_path_join.
  destruct (startswith1 b "/"); [done|].
  destruct (String.eqb a "") eqn:Ea; simpl.
  - apply String.eqb_eq in Ea. subst a. done.
  - destruct (endswith1 a "/") eqn:Es.
    + apply endswith1_app_slash; done.
    + apply endswith1_sep. done.
Qed.

Lemma endswith_join a b sufs :
  forallb no_slash sufs = true ->
  endswith (os_path_join a b) sufs = endswith b sufs.
Proof.
  unfold endswith. induction sufs as [|suf sufs IH]; simpl; [done|].
  intros [H1 H2]%andb_true_iff. rewrite endswith1_join, IH; done.
Qed.

End PyStrFacts.

(** ** Facts about the file-system model *)

Module FSFacts.
Import Props.
Import FS.

Lemma assoc_map_entry_eq k g es :
  assoc k (map_entry k g es) = option_map g (assoc k es).
Proof.
  induction es as [|[k' n] es IH]; simpl; [done|].
  destruct (String.eqb k k') eqn:E; simpl; rewrite E; done.
Qed.

Lemma assoc_map_entry_ne k k' g es :
  k <> k' -> assoc k' (map_entry k g es) = assoc k' es.
Proof.
  intros Hne. induction es as [|[k2 n] es IH]; simpl; [done|].
  destruct (String.eqb k k2) eqn:E; simpl.
  - apply String.eqb_eq in E. subst k2.
    destruct (String.eqb k' k) eqn:E'; [|done].
    apply String.eqb_eq in E'. congruence.
  - rewrite IH. done.
Qed.

Lemma assoc_remove_name_eq k es : assoc k (remove_name k es) = None.
Proof.
  induction es as [|[k' n] es IH]; simpl; [done|].
  destruct (String.eqb k k') eqn:E; simpl; [done|]. rewrite E. done.
Qed.

Lemma assoc_remove_name_ne k k' es :
  k <> k' -> assoc k' (remove_name k es) = assoc k' es.
Proof.
  intros Hne. induction es as [|[k2 n] es IH]; simpl; [done|].
  destruct (String.eqb k k2) eqn:E; simpl.
  - apply String.eqb_eq in E. subst k2.
    destruct (String.eqb k' k) eqn:E'; [|done].
    apply String.eqb_eq in E'. congruence.
  - rewrite IH. done.
Qed.

Lemma assoc_Some_In k es n : assoc k es = Some n -> In k (map fst es).
Proof.
  induction es as [|[k' n'] es IH]; simpl; [done|].
  destruct (String.eqb k k') eqn:E.
  - apply String.eqb_eq in E. auto.
  - auto.
Qed.

Lemma In_assoc_Some k es : In k (map fst es) -> exists n, assoc k es = Some n.
Proof.
  induction es as [|[k' n'] es IH]; simpl; [done|].
  intros [->|Hin].
  - rewrite String.eqb_refl. eauto.
  - destruct (String.eqb k k'); eauto.
Qed.

Lemma map_entry_id k g es n :
  assoc k es = Some n -> g n = n -> map_entry k g es = es.
Proof.
  induction es as [|[k' n'] es IH]; simpl; [done|].
  destruct (String.eqb k k') eqn:E.
  - intros [= ->] ->. done.
  - intros H1 H2. rewrite IH; done.
Qed.

Lemma find_app n p q :
  find n (p ++ q) = match find n p with Some m => find m q | None => None end.
Proof.
  revert n. induction p as [|c p IH]; intros n; simpl; [done|].
  destruct n as [| |w es]; try done.
  destruct (assoc c es); [apply IH|done].
Qed.

Lemma lstat_at_nil n : lstat_at n [] = Some (mode_of n).
Proof. done. Qed.

Lemma find_nondir_below n p m c r :
  find n p = Some m -> (forall w es, m <> Dir w es) -> find n (p ++ c :: r) = None.
Proof.
  intros Hf Hm. rewrite find_app, Hf. destruct m; simpl; try done.
  exfalso. eapply Hm. done.
Qed.

Lemma remove_name_touches x : touches_only x (fun _ => remove_name x).
Proof. intros w es k Hk. apply assoc_remove_name_ne. done. Qed.

Lemma path_trichotomy (a q : path) :
  a `prefix_of` q \/ (exists r, q ++ r = a) \/ diverge a q.
Proof.
  revert q. induction a as [|u a IH]; intros q.
  - left. apply prefix_nil.
  - destruct q as [|v q].
    + right. left. exists (u :: a). done.
    + destruct (decide (u = v)) as [->|Hne].
      * destruct (IH q) as [H|[[r H]|H]].
        -- left. apply prefix_cons. done.
        -- right. left. exists r. simpl. congruence.
        -- right. right. simpl. auto.
      * right. right. simpl. auto.
Qed.

Lemma find_update_dir_diverge x f d n q :
  touches_only x f -> diverge (d ++ [x]) q ->
  find (update_dir f n d) q = find n q.
Proof.
  intros Hf. revert n q. induction d as [|u d IH]; intros n q Hd.
  - destruct q as [|v q]; simpl in Hd; [done|].
    destruct Hd as [Hd|Hd]; [|destruct q; done].
    destruct n as [| |w es]; simpl; try done.
    rewrite Hf by done. done.
  - destruct q as [|v q]; simpl in Hd; [done|].
    destruct n as [| |w es]; simpl; try done.
    destruct (decide (u = v)) as [->|Hne].
    + destruct Hd as [Hd|Hd]; [done|].
      rewrite assoc_map_entry_eq. destruct (assoc v es); simpl; [|done].
      apply IH. done.
    + rewrite assoc_map_entry_ne by done. done.
Qed.

Lemma lstat_at_update_dir_above f d n q r :
  q ++ r = d -> lstat_at (update_dir f n d) q = lstat_at n q.
Proof.
  revert n d. induction q as [|v q IH]; intros n d Hd.
  - unfold lstat_at. simpl. destruct n, d; done.
  - destruct d as [|u d]; [done|]. injection Hd as -> Hd.
    destruct n as [| |w es]; try done.
    unfold lstat_at in *. simpl.
    rewrite assoc_map_entry_eq. destruct (assoc u es); simpl; [|done].
    eapply IH. done.
Qed.

Lemma find_update_dir_at f d n w es r :
  find n d = Some (Dir w es) ->
  find (update_dir f n d) (d ++ r) = find (Dir w (f w es)) r.
Proof.
  revert n. induction d as [|u d IH]; intros n Hd.
  - simpl in Hd. injection Hd as ->. done.
  - destruct n as [| |w' es']; try done. simpl in *.
    rewrite assoc_map_entry_eq. destruct (assoc u es'); simpl; [|done].
    apply IH. done.
Qed.

(** Outside the entry it works on, an update changes what no path
    reports. *)
Lemma lstat_at_update_dir_off x f d n q :
  touches_only x f -> ~ (d ++ [x]) `prefix_of` q ->
  lstat_at (update_dir f n d) q = lstat_at n q.
Proof.
  intros Hf Hp. destruct (path_trichotomy (d ++ [x]) q) as [H|[[r H]|H]].
  - done.
  - destruct r as [|y r _] using rev_ind.
    + rewrite app_nil_r in H. subst q. exfalso. apply Hp. done.
    + rewrite app_assoc in H. apply app_inj_tail in H as [H _].
      eapply lstat_at_update_dir_above. done.
  - unfold lstat_at. erewrite find_update_dir_diverge; done.
Qed.

Lemma update_dir_id f d n w es :
  find n d = Some (Dir w es) -> f w es = es -> update_dir f n d = n.
Proof.
  revert n. induction d as [|u d IH]; intros n Hd Hf.
  - simpl in Hd. injection Hd as ->. simpl. congruence.
  - destruct n as [| |w' es']; try done. simpl in *.
    destruct (assoc u es') as [ch|] eqn:E; [|done].
    f_equal. eapply map_entry_id; [done|]. apply IH; done.
Qed.

Lemma lstat_at_dir_find n p w :
  lstat_at n p = Some (S_IFDIR w) -> exists es, find n p = Some (Dir w es).
Proof.
  unfold lstat_at. destruct (find n p) as [[| |w' es]|]; simpl; try done.
  intros [= ->]. eauto.
Qed.

Lemma lstat_at_nondir_below n p m c r :
  lstat_at n p = Some m -> is_dir_mode m = false ->
  lstat_at n (p ++ c :: r) = None.
Proof.
  unfold lstat_at. destruct (find n p) as [k|] eqn:E; simpl; [|done].
  intros [= <-] Hm. erewrite find_nondir_below; [done|done|].
  intros w es ->. done.
Qed.

Lemma lstat_at_snoc_Some n p c m :
  lstat_at n (p ++ [c]) = Some m -> exists w, lstat_at n p = Some (S_IFDIR w).
Proof.
  unfold lstat_at. rewrite find_app.
  destruct (find n p) as [[| |w es]|]; simpl; try done. eauto.
Qed.

Lemma split_last_snoc d name : split_last (d ++ [name]) = Some (d, name).
Proof. unfold split_last. rewrite rev_app_distr. simpl. rewrite rev_involutive. done. Qed.

Lemma split_last_Some p d name : split_last p = Some (d, name) -> p = d ++ [name].
Proof.
  unfold split_last. destruct (rev p) as [|x ini] eqn:E; [done|].
  intros [= <- <-]. rewrite <- (rev_involutive p), E. done.
Qed.

Lemma resolve_parent_Ok fs p d name :
  resolve_parent fs p = Ok (d, name) ->
  (exists ini, p = ini ++ [name] /\ realpath fs ini = Ok d)
  /\ exists w, lstat_at fs d = Some (S_IFDIR w).
Proof.
  unfold resolve_parent. destruct (split_last p) as [[ini nm]|] eqn:E; [|done].
  apply split_last_Some in E.
  destruct (realpath fs ini) as [d'|] eqn:R; [|done].
  destruct (lstat_at fs d') as [[| |w]|] eqn:L; try done.
  intros [= <- <-]. eauto.
Qed.

(** What a successful [unlink] does: one entry that is not a directory
    goes, and no other path reports anything different. *)
Lemma unlink_Ok fs p fs' :
  unlink fs p = Ok fs' ->
  exists d name m,
    resolve_parent fs p = Ok (d, name)
    /\ lstat_at fs d = Some (S_IFDIR true)
    /\ lstat_at fs (d ++ [name]) = Some m /\ is_dir_mode m = false
    /\ (forall q, lstat_at fs' q
                  = if decide (q = d ++ [name]) then None else lstat_at fs q)
    /\ forall q, diverge (d ++ [name]) q -> find fs' q = find fs q.
Proof.
  unfold unlink. destruct (resolve_parent fs p) as [[d name]|] eqn:R; [|done].
  destruct (lstat_at fs (d ++ [name])) as [m|] eqn:L; [|done].
  destruct (lstat_at fs d) as [[| |[]]|] eqn:Ld; try done.
  intros H.
  assert (is_dir_mode m = false /\
          fs' = update_dir (fun _ => remove_name name) fs d) as [Hm ->].
  { destruct m; try done; injection H as <-; done. }
  clear H. exists d, name, m. repeat split; try done.
  2:{ intros q Hq. eapply find_update_dir_diverge; [|done].
      apply remove_name_touches. }
  intros q. destruct (decide (q = d ++ [name])) as [->|Hq].
  - apply lstat_at_dir_find in Ld as [es Ld]. unfold lstat_at.
    erewrite find_update_dir_at by done. simpl.
    rewrite assoc_remove_name_eq. done.
  - destruct (decide ((d ++ [name]) `prefix_of` q)) as [[r ->]|Hp].
    + destruct r as [|c r]; [rewrite app_nil_r in Hq; done|].
      erewrite (lstat_at_nondir_below fs) by done.
      apply lstat_at_dir_find in Ld as [es Ld]. unfold lstat_at.
      rewrite <- app_assoc. erewrite find_update_dir_at by done. simpl.
      rewrite assoc_remove_name_eq. done.
    + eapply lstat_at_update_dir_off; [apply remove_name_touches|done].
Qed.

Lemma erased_nil P fs : erased P fs [] fs.
Proof.
  split; [constructor|]. split; [intros c Hc; inversion Hc|]. split; [|done].
  intros q. destruct (decide (q ∈ [])) as [H|_]; [inversion H|done].
Qed.

Lemma erased_one (P : path -> Prop) fs fs' c m :
  P c -> lstat_at fs c = Some m -> is_dir_mode m = false ->
  (forall q, lstat_at fs' q = if decide (q = c) then None else lstat_at fs q) ->
  (forall q, diverge c q -> find fs' q = find fs q) ->
  erased P fs [c] fs'.
Proof.
  intros HP Hc Hm Hq Hf. split; [apply NoDup_singleton|]. split; [|split].
  - intros c' ->%list_elem_of_singleton. eauto.
  - intros q. rewrite Hq.
    destruct (decide (q = c)) as [->|Hne], (decide (_ ∈ [c])) as [Hin|Hin];
      try done.
    + exfalso. apply Hin. apply list_elem_of_singleton. done.
    + apply list_elem_of_singleton in Hin. done.
  - intros q Hd. apply Hf, Hd. apply list_elem_of_singleton. done.
Qed.

Lemma erased_app P fs l1 fs1 l2 fs2 :
  erased P fs l1 fs1 -> erased P fs1 l2 fs2 -> erased P fs (l1 ++ l2) fs2.
Proof.
  intros (N1 & A1 & Q1 & F1) (N2 & A2 & Q2 & F2).
  assert (forall c, c ∈ l2 -> c ∉ l1) as Hdisj.
  { intros c Hc Hc1. destruct (A2 c Hc) as (_ & m & Hm & _).
    rewrite Q1 in Hm. destruct (decide (c ∈ l1)); done. }
  split; [|split; [|split]].
  4:{ intros q Hq. rewrite F2, F1; [done| |].
      all: intros c Hc; apply Hq, elem_of_app; auto. }
  - apply NoDup_app. split; [done|]. split; [|done].
    intros c H1 H2. eapply Hdisj; done.
  - intros c [Hc|Hc]%elem_of_app; [auto|].
    destruct (A2 c Hc) as (HP & m & Hm & Hd). split; [done|].
    exists m. split; [|done]. rewrite Q1 in Hm.
    destruct (decide (c ∈ l1)); done.
  - intros q. rewrite Q2, Q1.
    destruct (decide (q ∈ l2)) as [H2|H2], (decide (q ∈ l1)) as [H1|H1],
      (decide (q ∈ l1 ++ l2)) as [H|H]; try done;
      exfalso; rewrite elem_of_app in H; tauto.
Qed.

Lemma erased_strengthen (P Q : path -> Prop) fs l fs' :
  (forall c, c ∈ l -> Q c) -> erased P fs l fs' ->
  erased (fun c => P c /\ Q c) fs l fs'.
Proof.
  intros HQ (N & A & E & F). split; [done|]. split; [|done].
  intros c Hc. destruct (A c Hc) as [HP Hm]. auto.
Qed.

Lemma erased_weaken (P Q : path -> Prop) fs l fs' :
  (forall c, P c -> Q c) -> erased P fs l fs' -> erased Q fs l fs'.
Proof.
  intros HPQ (N & A & E & F). split; [done|]. split; [|done].
  intros c Hc. destruct (A c Hc) as [HP Hm]. auto.
Qed.

Lemma shrinks_refl fs : shrinks fs fs.
Proof. intros q m H. done. Qed.

Lemma shrinks_trans a b c : shrinks a b -> shrinks b c -> shrinks a c.
Proof. intros H1 H2 q m H. auto. Qed.

Lemma erased_shrinks P fs l fs' : erased P fs l fs' -> shrinks fs fs'.
Proof.
  intros (_ & _ & E & _) q m. rewrite E. destruct (decide (q ∈ l)); done.
Qed.

Lemma erased_dir_kept P fs l fs' q w :
  erased P fs l fs' ->
  lstat_at fs q = Some (S_IFDIR w) -> lstat_at fs' q = Some (S_IFDIR w).
Proof.
  intros (_ & A & E & _) Hq. rewrite E. destruct (decide (q ∈ l)) as [Hin|]; [|done].
  destruct (A q Hin) as (_ & m & Hm & Hd). rewrite Hq in Hm.
  injection Hm as <-. done.
Qed.

(** *** Path resolution *)

Lemma resolve_cons fuel fs cur c rest :
  resolve fuel fs cur (c :: rest)
  = match lstat_at fs (cur ++ [c]) with
    | None => Err ENOENT
    | Some (S_IFDIR _) => resolve fuel fs (cur ++ [c]) rest
    | Some (S_IFREG _) =>
        match rest with [] => Ok (cur ++ [c]) | _ :: _ => Err ENOTDIR end
    | Some (S_IFLNK t) =>
        match fuel with
        | O => Err ELOOP
        | S f => resolve f fs [] (t ++ rest)
        end
    end.
Proof. destruct fuel; done. Qed.

Lemma resolve_nil fuel fs cur : resolve fuel fs cur [] = Ok cur.
Proof. destruct fuel; done. Qed.

(** Resolution in a shrunk tree, when it succeeds, is the resolution in
    the tree it was shrunk from. *)
Lemma resolve_shrinks fs fs' fuel cur rest c :
  shrinks fs fs' ->
  resolve fuel fs' cur rest = Ok c -> resolve fuel fs cur rest = Ok c.
Proof.
  intros Hs. revert cur rest.
  induction fuel as [|f IHf]; intros cur rest; revert cur;
    induction rest as [|x rest IHr]; intros cur;
    rewrite ?resolve_nil, ?resolve_cons; try done;
    destruct (lstat_at fs' (cur ++ [x])) as [m|] eqn:L; try done;
    rewrite (Hs _ _ L); destruct m; auto.
Qed.

Lemma stat_shrinks fs fs' p m :
  shrinks fs fs' -> stat fs' p = Ok m -> stat fs p = Ok m.
Proof.
  intros Hs. unfold stat, realpath.
  destruct (resolve MAXSYMLINKS fs' [] p) as [c|] eqn:R; [|done].
  rewrite (resolve_shrinks _ _ _ _ _ _ Hs R).
  destruct (lstat_at fs' c) as [m'|] eqn:L; [|done].
  rewrite (Hs _ _ L). done.
Qed.

Lemma isfile_shrinks fs fs' p :
  shrinks fs fs' -> isfile fs' p = true -> isfile fs p = true.
Proof.
  intros Hs. unfold isfile. destruct (stat fs' p) as [m|] eqn:S; [|done].
  rewrite (stat_shrinks _ _ _ _ Hs S). done.
Qed.

Lemma real_dir_snoc fs d c w :
  real_dir fs d -> lstat_at fs (d ++ [c]) = Some (S_IFDIR w) ->
  real_dir fs (d ++ [c]).
Proof.
  intros Hd Hc q [r Hq].
  destruct r as [|y r _] using rev_ind.
  - rewrite app_nil_r in Hq. subst q. eauto.
  - rewrite app_assoc in Hq. apply app_inj_tail in Hq as [Hq _].
    apply Hd. exists r. done.
Qed.

Lemma real_dir_shrinks fs fs' d :
  shrinks fs fs' -> real_dir fs' d -> real_dir fs d.
Proof. intros Hs Hd q Hq. destruct (Hd q Hq) as [w Hw]. eauto. Qed.

Lemma bounded_shrinks fs fs' d k :
  shrinks fs fs' -> bounded fs d k -> bounded fs' d k.
Proof. intros Hs Hb q m Hq. eapply Hb. apply Hs. done. Qed.

Lemma bounded_snoc n d x k :
  bounded n d (S k) -> bounded n (d ++ [x]) k.
Proof.
  intros Hb q m Hq. rewrite <- app_assoc in Hq. apply Hb in Hq. simpl in Hq. lia.
Qed.

Lemma real_dir_erased P fs l fs' d :
  erased P fs l fs' -> real_dir fs d -> real_dir fs' d.
Proof.
  intros He Hd q Hq. destruct (Hd q Hq) as [w Hw].
  exists w. eapply erased_dir_kept; done.
Qed.

Lemma resolve_through_dirs fuel fs cur q rest :
  (forall r, r <> [] -> r `prefix_of` q ->
             exists w, lstat_at fs (cur ++ r) = Some (S_IFDIR w)) ->
  resolve fuel fs cur (q ++ rest) = resolve fuel fs (cur ++ q) rest.
Proof.
  revert cur. induction q as [|x q IH]; intros cur Hq.
  - rewrite app_nil_r. done.
  - simpl. rewrite resolve_cons.
    destruct (Hq [x]) as [w Hw]; [done|by exists q|]. rewrite Hw.
    rewrite IH.
    + rewrite <- app_assoc. done.
    + intros r Hr [r' ->]. rewrite <- app_assoc. apply Hq; [done|].
      exists r'. done.
Qed.

Lemma realpath_real_dir fs d rest :
  real_dir fs d -> realpath fs (d ++ rest) = resolve MAXSYMLINKS fs d rest.
Proof.
  intros Hd. unfold realpath. apply resolve_through_dirs.
  intros r _ Hr. apply Hd. done.
Qed.

Lemma realpath_real_dir_self fs d : real_dir fs d -> realpath fs d = Ok d.
Proof.
  intros Hd. rewrite <- (app_nil_r d) at 1.
  rewrite realpath_real_dir by done. apply resolve_nil.
Qed.

Lemma resolve_parent_real_dir fs d name :
  real_dir fs d -> resolve_parent fs (d ++ [name]) = Ok (d, name).
Proof.
  intros Hd. unfold resolve_parent. rewrite split_last_snoc.
  rewrite realpath_real_dir_self by done.
  destruct (Hd d) as [w ->]; done.
Qed.

(** Under a directory proper, [os.stat] of an entry that is not a link
    is [lstat] of it. *)
Lemma stat_real_dir_entry fs d name m :
  real_dir fs d -> lstat_at fs (d ++ [name]) = Some m ->
  (forall t, m <> S_IFLNK t) -> stat fs (d ++ [name]) = Ok m.
Proof.
  intros Hd Hm Hl. unfold stat. rewrite realpath_real_dir by done.
  rewrite resolve_cons, Hm. destruct m as [c|t|w].
  - rewrite Hm. done.
  - exfalso. eapply Hl. done.
  - rewrite resolve_nil, Hm. done.
Qed.

Lemma lstat_real_dir_entry fs d name :
  real_dir fs d ->
  lstat fs (d ++ [name])
  = match lstat_at fs (d ++ [name]) with Some m => Ok m | None => Err ENOENT end.
Proof.
  intros Hd. unfold lstat. rewrite resolve_parent_real_dir by done.
  destruct (d ++ [name]) eqn:E; [destruct d; done|]. done.
Qed.

Lemma scandir_real_dir fs d w es :
  real_dir fs d -> find fs d = Some (Dir w es) -> scandir fs d = Ok (map fst es).
Proof.
  intros Hd Hf. unfold scandir. rewrite realpath_real_dir_self by done.
  rewrite Hf. done.
Qed.

Lemma lstat_at_entry fs d w es name :
  find fs d = Some (Dir w es) ->
  lstat_at fs (d ++ [name]) = option_map mode_of (assoc name es).
Proof.
  intros Hf. unfold lstat_at. rewrite find_app, Hf. simpl.
  destruct (assoc name es); done.
Qed.

(** *** Depth *)

Lemma height_entry k es n :
  assoc k es = Some n ->
  height n <= list_max (map (fun kv => height (snd kv)) es).
Proof.
  induction es as [|[k' n'] es IH]; simpl; [done|].
  destruct (String.eqb k k').
  - intros [= ->]. lia.
  - intros H. specialize (IH H). lia.
Qed.

Lemma find_height n p m : find n p = Some m -> length p + height m <= height n.
Proof.
  revert n. induction p as [|c p IH]; intros n; simpl.
  - intros [= ->]. lia.
  - destruct n as [| |w es]; try done.
    destruct (assoc c es) as [ch|] eqn:E; [|done].
    intros H. apply IH in H. apply height_entry in E. simpl. lia.
Qed.

Lemma bounded_height n d : bounded n d (height n).
Proof.
  intros q m. unfold lstat_at.
  destruct (find n (d ++ q)) as [k|] eqn:E; [|done].
  apply find_height in E. rewrite length_app in E. lia.
Qed.

End FSFacts.

(** ** Facts about the script *)

Module Loops.
Import Props.

Section ForEach.
Context {A S : Type} (body : A -> S -> outcome S) (R : S -> S -> Prop).
Hypothesis R_refl : forall s, R s s.
Hypothesis R_trans : forall a b c, R a b -> R b c -> R a c.

Lemma for_each_Done l s s' :
  (forall a s1 s2, In a l -> body a s1 = Done s2 -> R s1 s2) ->
  for_each body l s = Done s' -> R s s'.
Proof.
  revert s. induction l as [|a l IH]; intros s Hb; simpl.
  - intros [= ->]. apply R_refl.
  - destruct (body a s) as [s1| |] eqn:E; try done.
    intros H. eapply R_trans; [eapply Hb; [left; done|done]|].
    apply IH; [|done]. intros a' s2 s3 Hin. apply Hb. right. done.
Qed.

Lemma for_each_Done_elem l s s' a :
  (forall a s1 s2, In a l -> body a s1 = Done s2 -> R s1 s2) ->
  for_each body l s = Done s' -> In a l ->
  exists s1 s2, R s s1 /\ body a s1 = Done s2 /\ R s2 s'.
Proof.
  revert s. induction l as [|a0 l IH]; intros s Hb; simpl; [done|].
  destruct (body a0 s) as [s1| |] eqn:E; try done.
  intros H [->|Hin].
  - exists s, s1. split; [apply R_refl|]. split; [done|].
    eapply for_each_Done; [|done]. intros a' s2 s3 Hin. apply Hb. right. done.
  - destruct (IH s1) as (s2 & s3 & H1 & H2 & H3); [|done|done|].
    { intros a' s2 s3 Hin'. apply Hb. right. done. }
    exists s2, s3. split; [|done].
    eapply R_trans; [|done]. eapply Hb; [left; done|done].
Qed.

Lemma for_each_Raised l s e w :
  (forall a s1 s2, In a l -> body a s1 = Done s2 -> R s1 s2) ->
  for_each body l s = Raised e w ->
  exists a s1, In a l /\ R s s1 /\ body a s1 = Raised e w.
Proof.
  revert s. induction l as [|a0 l IH]; intros s Hb; simpl; [done|].
  destruct (body a0 s) as [s1|e' w'|] eqn:E; try done.
  - intros H. destruct (IH s1) as (a & s2 & H1 & H2 & H3); [|done|].
    { intros a' s2 s3 Hin'. apply Hb. right. done. }
    exists a, s2. split; [right; done|]. split; [|done].
    eapply R_trans; [|done]. eapply Hb; [left; done|done].
  - intros [= -> ->]. exists a0, s. split; [left; done|]. split; [apply R_refl|done].
Qed.

Lemma for_each_OutOfFuel l s :
  (forall a s1 s2, In a l -> body a s1 = Done s2 -> R s1 s2) ->
  for_each body l s = OutOfFuel ->
  exists a s1, In a l /\ R s s1 /\ body a s1 = OutOfFuel.
Proof.
  revert s. induction l as [|a0 l IH]; intros s Hb; simpl; [done|].
  destruct (body a0 s) as [s1|e' w'|] eqn:E; try done.
  - intros H. destruct (IH s1) as (a & s2 & H1 & H2 & H3); [|done|].
    { intros a' s2 s3 Hin'. apply Hb. right. done. }
    exists a, s2. split; [right; done|]. split; [|done].
    eapply R_trans; [|done]. eapply Hb; [left; done|done].
  - intros _. exists a0, s. split; [left; done|]. split; [apply R_refl|done].
Qed.
End ForEach.

Lemma for_each_fixed {A S : Type} (body : A -> S -> outcome S) l s :
  (forall a, In a l -> body a s = Done s) -> for_each body l s = Done s.
Proof.
  induction l as [|a l IH]; intros Hb; simpl; [done|].
  rewrite Hb by (left; done). apply IH. intros a' Hin. apply Hb. right. done.
Qed.

End Loops.

Module Sweep.
Import Props.
Import FS FSFacts Loops.

Lemma swept_in_refl P st : swept_in P st st.
Proof.
  split; [done|]. exists []. split; [apply erased_nil|]. simpl. lia.
Qed.

Lemma swept_in_trans P a b c : swept_in P a b -> swept_in P b c -> swept_in P a c.
Proof.
  intros (O1 & l1 & E1 & N1) (O2 & l2 & E2 & N2).
  split; [congruence|]. exists (l1 ++ l2).
  split; [eapply erased_app; done|]. rewrite length_app. lia.
Qed.

Lemma swept_in_weaken (P Q : path -> Prop) st st' :
  (forall c, P c -> Q c) -> swept_in P st st' -> swept_in Q st st'.
Proof.
  intros HPQ (O & l & E & N). split; [done|]. exists l.
  split; [eapply erased_weaken; done|done].
Qed.

Lemma swept_in_shrinks P st st' :
  swept_in P st st' -> shrinks (fs (fst st)) (fs (fst st')).
Proof. intros (_ & l & E & _). eapply erased_shrinks. done. Qed.

Lemma swept_in_real_dir P st st' d :
  swept_in P st st' -> real_dir (fs (fst st)) d -> real_dir (fs (fst st')) d.
Proof. intros (_ & l & E & _). eapply real_dir_erased. done. Qed.

Lemma swept_in_dir_kept P st st' q w :
  swept_in P st st' ->
  lstat_at (fs (fst st)) q = Some (S_IFDIR w) ->
  lstat_at (fs (fst st')) q = Some (S_IFDIR w).
Proof. intros (_ & l & E & _). eapply erased_dir_kept. done. Qed.

Lemma swept_refl st : swept st st.
Proof. apply swept_in_refl. Qed.

Lemma swept_trans a b c : swept a b -> swept b c -> swept a c.
Proof. apply swept_in_trans. Qed.

Lemma swept_shrinks st st' : swept st st' -> shrinks (fs (fst st)) (fs (fst st')).
Proof. apply swept_in_shrinks. Qed.

Lemma extensions_no_slash :
  forallb no_slash EXTENSIONS_TO_CLEAN = true.
Proof. reflexivity. Qed.

Lemma endswith_join_name root name :
  PyStr.endswith (text (join root name)) EXTENSIONS_TO_CLEAN
  = PyStr.endswith name EXTENSIONS_TO_CLEAN.
Proof. apply PyStrFacts.endswith_join, extensions_no_slash. Qed.

(** The loop body, when it deletes. *)
Lemma sweep_file_unlinks root name (st : world * nat) fs' :
  FS.isfile (fs (fst st)) (parts (join root name)) = true ->
  PyStr.endswith (text (join root name)) EXTENSIONS_TO_CLEAN = true ->
  FS.unlink (fs (fst st)) (parts (join root name)) = Ok fs' ->
  exists d, resolve_parent (fs (fst st)) (parts root ++ [name]) = Ok (d, name)
            /\ erased ext_name (fs (fst st)) [d ++ [name]] fs'.
Proof.
  intros Hf He Hu.
  apply unlink_Ok in Hu as (d & nm & m & Hr & Hd & Hm & Hnd & Hq & Hlit).
  pose proof Hr as Hr'.
  apply resolve_parent_Ok in Hr' as [(ini & Hp & _) _]. simpl in Hp.
  apply app_inj_tail in Hp as [_ <-].
  exists d. split; [done|]. eapply erased_one; try done.
  exists d, name. split; [done|]. rewrite <- (endswith_join_name root). done.
Qed.

Lemma sweep_file_Done root name st st' :
  sweep_file root name st = Done st' -> swept st st'.
Proof.
  unfold sweep_file.
  destruct (FS.isfile _ _) eqn:Hf;
    [destruct (PyStr.endswith _ _) eqn:He|]; cbn [andb].
  - destruct (FS.unlink _ _) as [fs'|] eqn:Hu; [|done].
    intros [= <-]. destruct (sweep_file_unlinks _ _ _ _ Hf He Hu) as (d & _ & E).
    split; [done|]. exists [d ++ [name]]. split; [done|]. simpl. lia.
  - intros [= <-]. apply swept_refl.
  - intros [= <-]. apply swept_refl.
Qed.

Lemma sweep_file_Raised root name st e w :
  sweep_file root name st = Raised e w -> w = fst st.
Proof.
  unfold sweep_file. destruct (_ && _); [|done].
  destruct (FS.unlink _ _); [done|]. intros [= _ <-]. done.
Qed.

Lemma sweep_file_fuel root name st : sweep_file root name st <> OutOfFuel.
Proof.
  unfold sweep_file. destruct (_ && _); [|done]. destruct (FS.unlink _ _); done.
Qed.

Lemma sweep_files_Done root names st st' :
  for_each (sweep_file root) names st = Done st' -> swept st st'.
Proof.
  apply (for_each_Done _ swept swept_refl swept_trans).
  intros a s1 s2 _. apply sweep_file_Done.
Qed.

Lemma sweep_files_Raised root names st e w :
  for_each (sweep_file root) names st = Raised e w -> exists n, swept st (w, n).
Proof.
  intros H. apply (for_each_Raised _ swept swept_refl swept_trans) in H.
  - destruct H as (a & s1 & _ & Hs & Hr). apply sweep_file_Raised in Hr.
    exists (snd s1). subst w. destruct s1. done.
  - intros a s1 s2 _. apply sweep_file_Done.
Qed.

Lemma walk_sweep_S f top st :
  walk_sweep (S f) top st
  = match FS.scandir (fs (fst st)) (parts top) with
    | Err _ => Done st
    | Ok names =>
        bind (for_each (sweep_file top)
                (nondirs_of (fs (fst st)) top names) st)
          (for_each (descend f top) (dirs_of (fs (fst st)) top names))
    end.
Proof. reflexivity. Qed.

(** Whatever the walk does is a sweep: whether it ends normally or by an
    exception, the only change is that entries with a configured suffix,
    none of them a directory, are gone. *)
Lemma walk_sweep_swept fuel : forall top st,
  (forall st', walk_sweep fuel top st = Done st' -> swept st st')
  /\ (forall e w, walk_sweep fuel top st = Raised e w -> exists n, swept st (w, n)).
Proof.
  induction fuel as [|f IH]; intros top st; [done|]. rewrite walk_sweep_S.
  destruct (FS.scandir _ _) as [names|]; [|split; [|done]].
  2:{ intros st' [= <-]. apply swept_refl. }
  assert (forall names a s1 s2, In a names ->
            descend f top a s1 = Done s2 -> swept s1 s2) as Hbody.
  { intros ? a s1 s2 _. unfold descend. destruct (FS.islink _ _).
    - intros [= <-]. apply swept_refl.
    - apply IH. }
  unfold bind. destruct (for_each (sweep_file top) _ st) as [st1|e1 w1|] eqn:E1.
  - apply sweep_files_Done in E1. split.
    + intros st' H. eapply swept_trans; [done|].
      eapply (for_each_Done _ swept swept_refl swept_trans); [apply Hbody|done].
    + intros e w H.
      apply (for_each_Raised _ swept swept_refl swept_trans) in H; [|apply Hbody].
      destruct H as (a & s1 & _ & Hs & Hr). unfold descend in Hr.
      destruct (FS.islink _ _); [done|].
      apply IH in Hr as [n Hn]. exists n.
      eapply swept_trans; [done|]. eapply swept_trans; done.
  - split; [done|]. intros e w [= <- <-].
    eapply sweep_files_Raised. done.
  - done.
Qed.

(** *** The walk below a directory proper *)

Lemma scandir_dir n d w :
  real_dir n d -> lstat_at n d = Some (S_IFDIR w) ->
  exists es, find n d = Some (Dir w es) /\ scandir n d = Ok (map fst es).
Proof.
  intros Hd [es Hf]%lstat_at_dir_find. exists es. split; [done|].
  eapply scandir_real_dir; done.
Qed.

Lemma scandir_not_dir n d x :
  real_dir n d -> (forall w, lstat_at n (d ++ [x]) <> Some (S_IFDIR w)) ->
  (forall t, lstat_at n (d ++ [x]) <> Some (S_IFLNK t)) ->
  exists e, scandir n (d ++ [x]) = Err e.
Proof.
  intros Hd Hnd Hnl. unfold scandir. rewrite realpath_real_dir by done.
  rewrite resolve_cons.
  destruct (lstat_at n (d ++ [x])) as [[c|t|w]|] eqn:L.
  - unfold lstat_at in L. destruct (find n (d ++ [x])) as [[| |]|]; try done.
    eauto.
  - exfalso. eapply Hnl. done.
  - exfalso. eapply Hnd. done.
  - eauto.
Qed.

Lemma listed_iff n d w es name :
  find n d = Some (Dir w es) ->
  In name (map fst es) <-> exists m, lstat_at n (d ++ [name]) = Some m.
Proof.
  intros Hf. rewrite (lstat_at_entry _ _ _ _ _ Hf). split.
  - intros [k Hk]%In_assoc_Some. rewrite Hk. simpl. eauto.
  - intros [m Hm]. destruct (assoc name es) eqn:E; [|done].
    eapply assoc_Some_In. done.
Qed.

Lemma in_dirs_of n top names x :
  In x (dirs_of n top names) <-> In x names /\ entry_is_dir n top x = true.
Proof. unfold dirs_of. apply filter_In. Qed.

Lemma in_nondirs_of n top names x :
  In x (nondirs_of n top names) <-> In x names /\ entry_is_dir n top x = false.
Proof.
  unfold nondirs_of. rewrite filter_In, negb_true_iff. done.
Qed.

Lemma isfile_real_entry n d name :
  real_dir n d -> isfile n (d ++ [name]) = true ->
  exists m, lstat_at n (d ++ [name]) = Some m /\ is_dir_mode m = false.
Proof.
  intros Hd. unfold isfile, stat. rewrite realpath_real_dir by done.
  rewrite resolve_cons. destruct (lstat_at n (d ++ [name])) as [[c|t|w]|] eqn:L;
    try done; eauto.
  rewrite resolve_nil, L. done.
Qed.

Lemma isfile_regular n d name c :
  real_dir n d -> lstat_at n (d ++ [name]) = Some (S_IFREG c) ->
  isfile n (d ++ [name]) = true.
Proof.
  intros Hd L. unfold isfile.
  rewrite (stat_real_dir_entry _ _ _ _ Hd L) by done. done.
Qed.

Lemma entry_is_dir_dir n top x w :
  real_dir n (parts top) -> lstat_at n (parts top ++ [x]) = Some (S_IFDIR w) ->
  entry_is_dir n top x = true.
Proof.
  intros Hd L. unfold entry_is_dir, isdir.
  rewrite (stat_real_dir_entry _ _ _ _ Hd L) by done. done.
Qed.

Lemma isfile_not_isdir n p : isfile n p = true -> isdir n p = false.
Proof. unfold isfile, isdir. destruct (stat n p) as [[]|]; done. Qed.

Lemma walk_sweep_scan_err f top st e :
  scandir (fs (fst st)) (parts top) = Err e -> walk_sweep (S f) top st = Done st.
Proof. intros H. rewrite walk_sweep_S, H. done. Qed.

(** Descending into an entry that is a directory proper is the walk of
    it; into anything else, nothing. *)
Lemma descend_dir f top x st w :
  real_dir (fs (fst st)) (parts top) ->
  lstat_at (fs (fst st)) (parts top ++ [x]) = Some (S_IFDIR w) ->
  descend f top x st = walk_sweep f (join top x) st
  /\ real_dir (fs (fst st)) (parts (join top x)).
Proof.
  intros Hd L. split; [|eapply real_dir_snoc; done].
  unfold descend, islink. simpl. rewrite lstat_real_dir_entry, L by done. done.
Qed.

Lemma descend_not_dir f top x st :
  real_dir (fs (fst st)) (parts top) ->
  (forall w, lstat_at (fs (fst st)) (parts top ++ [x]) <> Some (S_IFDIR w)) ->
  descend f top x st = Done st \/ (f = 0 /\ descend f top x st = OutOfFuel).
Proof.
  intros Hd L. unfold descend, islink. simpl.
  rewrite lstat_real_dir_entry by done.
  destruct (lstat_at (fs (fst st)) (parts top ++ [x])) as [[c|t|w]|] eqn:E;
    [|by left|exfalso; eapply L; done|].
  all: destruct f as [|f]; [by right|left].
  all: edestruct (scandir_not_dir (fs (fst st)) (parts top) x) as [e He];
    [done|rewrite E; done|rewrite E; done|].
  all: eapply walk_sweep_scan_err; done.
Qed.

Lemma below_ext_snoc n0 d x c : below_ext n0 (d ++ [x]) c -> below_ext n0 d c.
Proof.
  intros (He & (rel & Hr & ->) & Hf). split; [done|]. split; [|done].
  exists (x :: rel). split; [done|]. rewrite <- app_assoc. done.
Qed.

Lemma swept_below_refl n0 d st : swept_below n0 d st st.
Proof. intros _ _. apply swept_in_refl. Qed.

Lemma swept_below_trans n0 d a b c :
  swept_below n0 d a b -> swept_below n0 d b c -> swept_below n0 d a c.
Proof.
  intros H1 H2 Hd Hn. specialize (H1 Hd Hn).
  eapply swept_in_trans; [done|]. apply H2.
  - eapply swept_in_real_dir; done.
  - eapply shrinks_trans; [done|]. eapply swept_in_shrinks. done.
Qed.

Lemma sweep_file_below n0 top name st st' :
  sweep_file top name st = Done st' -> swept_below n0 (parts top) st st'.
Proof.
  intros H Hd Hn. unfold sweep_file in H.
  destruct (FS.isfile _ _) eqn:Hf;
    [destruct (PyStr.endswith _ _) eqn:He|]; cbn [andb] in H.
  - destruct (FS.unlink _ _) as [fs'|] eqn:Hu; [|done].
    injection H as <-. destruct (sweep_file_unlinks _ _ _ _ Hf He Hu) as (d & Hr & E).
    rewrite resolve_parent_real_dir in Hr by done. injection Hr as <-.
    split; [done|]. exists [parts top ++ [name]]. split; [|simpl; lia].
    apply (erased_strengthen ext_name
             (fun c => strictly_below (parts top) c /\ isfile n0 c = true));
      [|done].
    intros c ->%list_elem_of_singleton. split; [exists [name]; done|].
    eapply isfile_shrinks; done.
  - injection H as <-. apply swept_in_refl.
  - injection H as <-. apply swept_in_refl.
Qed.

Lemma walk_sweep_below n0 f : forall top st,
  real_dir (fs (fst st)) (parts top) -> shrinks n0 (fs (fst st)) ->
  (forall st', walk_sweep f top st = Done st' ->
               swept_in (below_ext n0 (parts top)) st st')
  /\ (forall e w, walk_sweep f top st = Raised e w ->
                  exists n, swept_in (below_ext n0 (parts top)) st (w, n)).
Proof.
  induction f as [|f IH]; intros top st Hd Hn0; [done|]. rewrite walk_sweep_S.
  destruct (FS.scandir _ _) as [names|]; [|split; [|done]].
  2:{ intros st' [= <-]. apply swept_in_refl. }
  set (R := swept_below n0 (parts top)).
  assert (forall names a s1 s2, In a names ->
            descend f top a s1 = Done s2 -> R s1 s2) as Hbody.
  { intros ? a s1 s2 _ Hdesc Hd1 Hn1.
    destruct (lstat_at (fs (fst s1)) (parts top ++ [a])) as [m|] eqn:L.
    1: destruct (decide (is_dir_mode m = true)) as [Hm|Hm].
    1:{ destruct m as [| |w]; try done.
        destruct (descend_dir f top a s1 w Hd1 L) as [Heq Hd2].
        rewrite Heq in Hdesc. apply (IH _ _ Hd2 Hn1) in Hdesc.
        eapply swept_in_weaken; [|exact Hdesc]. apply below_ext_snoc. }
    all: destruct (descend_not_dir f top a s1 Hd1) as [Hn|[_ Hn]];
      [intros w; rewrite L; intros ?; simplify_eq; simpl in *; done| |congruence].
    all: rewrite Hn in Hdesc; injection Hdesc as <-; apply swept_in_refl. }
  assert (forall a s1 s2, In a (nondirs_of (fs (fst st)) top names) ->
            sweep_file top a s1 = Done s2 -> R s1 s2) as Hfile.
  { intros a s1 s2 _. apply sweep_file_below. }
  unfold bind. destruct (for_each (sweep_file top) _ st) as [st1|e1 w1|] eqn:E1.
  - apply (for_each_Done _ R (swept_below_refl _ _) (swept_below_trans _ _)) in E1;
      [|done].
    split.
    + intros st' H.
      eapply (for_each_Done _ R (swept_below_refl _ _) (swept_below_trans _ _)) in H;
        [|apply Hbody].
      eapply swept_below_trans; done.
    + intros e w H.
      apply (for_each_Raised _ R (swept_below_refl _ _) (swept_below_trans _ _)) in H;
        [|apply Hbody].
      destruct H as (a & s1 & _ & Hs & Hr).
      pose proof (swept_below_trans _ _ _ _ _ E1 Hs Hd Hn0) as Hs1.
      pose proof (swept_in_real_dir _ _ _ _ Hs1 Hd) as Hd1.
      pose proof (shrinks_trans _ _ _ Hn0 (swept_in_shrinks _ _ _ Hs1)) as Hn1.
      destruct (lstat_at (fs (fst s1)) (parts top ++ [a])) as [m|] eqn:L.
      1: destruct (decide (is_dir_mode m = true)) as [Hm|Hm].
      1:{ destruct m as [| |w']; try done.
          destruct (descend_dir f top a s1 w' Hd1 L) as [Heq Hd2].
          rewrite Heq in Hr. apply (IH _ _ Hd2 Hn1) in Hr as [n Hn].
          exists n. eapply swept_in_trans; [done|].
          eapply swept_in_weaken; [|exact Hn]. apply below_ext_snoc. }
      all: destruct (descend_not_dir f top a s1 Hd1) as [Hn|[_ Hn]];
        [intros w'; rewrite L; intros ?; simplify_eq; simpl in *; done| |congruence].
      all: congruence.
  - split; [done|]. intros e w [= <- <-].
    apply (for_each_Raised _ R (swept_below_refl _ _) (swept_below_trans _ _)) in E1;
      [|done].
    destruct E1 as (a & s1 & _ & Hs & Hr). apply sweep_file_Raised in Hr.
    exists (snd s1). subst w1. destruct s1. apply Hs; done.
  - done.
Qed.

Lemma descend_Done_swept f top names a s1 s2 :
  In a names -> descend f top a s1 = Done s2 -> swept s1 s2.
Proof.
  intros _. unfold descend. destruct (FS.islink _ _).
  - intros [= <-]. apply swept_refl.
  - apply walk_sweep_swept.
Qed.

Lemma sweep_file_Done_swept top names a s1 s2 :
  In a names -> sweep_file top a s1 = Done s2 -> swept s1 s2.
Proof. intros _. apply sweep_file_Done. Qed.

(** The walk returns: a budget above the depth of the tree below [top]
    is never used up. *)
Lemma walk_sweep_terminates f : forall top st k,
  real_dir (fs (fst st)) (parts top) ->
  bounded (fs (fst st)) (parts top) k -> k < f ->
  walk_sweep f top st <> OutOfFuel.
Proof.
  induction f as [|f IH]; intros top st k Hd Hb Hk; [lia|].
  rewrite walk_sweep_S.
  destruct (Hd (parts top)) as [w Lw]; [done|].
  destruct (scandir_dir _ _ _ Hd Lw) as (es & Hfind & ->).
  unfold bind. destruct (for_each (sweep_file top) _ st) as [st1|e1 w1|] eqn:E1.
  - intros H.
    apply (for_each_OutOfFuel _ swept swept_refl swept_trans) in H;
      [|apply descend_Done_swept].
    destruct H as (a & s1 & Hin & Hs & Ho).
    apply sweep_files_Done in E1.
    pose proof (swept_trans _ _ _ E1 Hs) as Hs1.
    apply in_dirs_of in Hin as [Hin _].
    apply (listed_iff _ _ _ _ _ Hfind) in Hin as [m Hm].
    pose proof (Hb [a] m Hm) as Hlen. simpl in Hlen.
    destruct k as [|k]; [lia|].
    pose proof (swept_in_real_dir _ _ _ _ Hs1 Hd) as Hd1.
    destruct (lstat_at (fs (fst s1)) (parts top ++ [a])) as [m1|] eqn:L.
    1: destruct (decide (is_dir_mode m1 = true)) as [Hm1|Hm1].
    1:{ destruct m1 as [| |w']; try done.
        destruct (descend_dir f top a s1 w' Hd1 L) as [Heq Hd2].
        rewrite Heq in Ho. revert Ho. apply (IH _ _ k); [done| |lia].
        apply bounded_snoc. eapply bounded_shrinks; [|done].
        eapply swept_shrinks. done. }
    all: destruct (descend_not_dir f top a s1 Hd1) as [Hn|[Hn _]];
      [intros w'; rewrite L; intros ?; simplify_eq; simpl in *; done
      |congruence|lia].
  - done.
  - intros _.
    apply (for_each_OutOfFuel _ swept swept_refl swept_trans) in E1;
      [|apply sweep_file_Done_swept].
    destruct E1 as (a & s1 & _ & _ & Ho). eapply sweep_file_fuel. done.
Qed.

Lemma erased_one_gone P n n' c : erased P n [c] n' -> lstat_at n' c = None.
Proof.
  intros (_ & _ & E & _). rewrite E. destruct (decide (c ∈ [c])) as [|Hn]; [done|].
  exfalso. apply Hn. apply list_elem_of_singleton. done.
Qed.

(** After the walk of [top] nothing below it is left to delete, and
    nothing will be as long as entries only disappear. *)
Lemma walk_sweep_clean f : forall top st st',
  real_dir (fs (fst st)) (parts top) ->
  walk_sweep f top st = Done st' ->
  forall n, shrinks (fs (fst st')) n -> clean n (parts top).
Proof.
  induction f as [|f IH]; intros top st st' Hd Hw n Hn rel name Hrel Hfile;
    [done|].
  rewrite walk_sweep_S in Hw.
  destruct (Hd (parts top)) as [w Lw]; [done|].
  destruct (scandir_dir _ _ _ Hd Lw) as (es & Hfind & Hscan).
  rewrite Hscan in Hw. unfold bind in Hw.
  destruct (for_each (sweep_file top) _ st) as [st1| |] eqn:E1; try done.
  pose proof (sweep_files_Done _ _ _ _ E1) as Hs1.
  pose proof (for_each_Done _ swept swept_refl swept_trans _ _ _
                (descend_Done_swept f top _) Hw) as Hs2.
  assert (shrinks (fs (fst st1)) n) as Hn1.
  { eapply shrinks_trans; [eapply swept_shrinks|]; done. }
  assert (shrinks (fs (fst st)) n) as Hn0.
  { eapply shrinks_trans; [eapply swept_shrinks|]; done. }
  destruct rel as [|x rel].
  - rewrite app_nil_r in Hrel. simpl in Hfile.
    destruct (isfile_real_entry _ _ _ Hrel Hfile) as (m & Lm & Hmd).
    assert (In name (map fst es)) as Hin.
    { apply (listed_iff _ _ _ _ _ Hfind). exists m. apply Hn0. done. }
    destruct (entry_is_dir (fs (fst st)) top name) eqn:Ed.
    + apply (isfile_shrinks _ _ _ Hn0), isfile_not_isdir in Hfile.
      unfold entry_is_dir in Ed. congruence.
    + assert (In name (nondirs_of (fs (fst st)) top (map fst es))) as Hnd.
      { apply in_nondirs_of. done. }
      destruct (for_each_Done_elem _ swept swept_refl swept_trans _ _ _ name
                  (sweep_file_Done_swept top _) E1 Hnd)
        as (s1 & s2 & Ha & Hbody & Hb).
      assert (shrinks (fs (fst s2)) n) as Hn2.
      { eapply shrinks_trans; [eapply swept_shrinks|]; done. }
      pose proof (sweep_file_Done _ _ _ _ Hbody) as Hs12.
      assert (shrinks (fs (fst s1)) n) as Hns1.
      { eapply shrinks_trans; [eapply swept_shrinks|]; done. }
      unfold sweep_file in Hbody.
      change (parts (join top name)) with (parts top ++ [name]) in Hbody.
      rewrite (isfile_shrinks _ _ _ Hns1 Hfile) in Hbody.
      rewrite <- (endswith_join_name top).
      destruct (PyStr.endswith _ _) eqn:He; [|done]. cbn [andb] in Hbody.
      destruct (FS.unlink _ _) as [fs'|] eqn:Hu; [|done].
      injection Hbody as <-.
      destruct (sweep_file_unlinks _ _ _ _
                  (isfile_shrinks _ _ _ Hns1 Hfile) He Hu) as (d & Hr & E).
      rewrite resolve_parent_real_dir in Hr
        by (eapply swept_in_real_dir; done).
      injection Hr as <-. apply erased_one_gone in E.
      apply Hn2 in Lm. simpl in Lm. congruence.
  - destruct (Hrel (parts top ++ [x])) as [w' Lx].
    { exists rel. rewrite <- app_assoc. done. }
    pose proof (Hn0 _ _ Lx) as Lx0.
    assert (In x (dirs_of (fs (fst st)) top (map fst es))) as Hin.
    { apply in_dirs_of. split.
      - apply (listed_iff _ _ _ _ _ Hfind). eauto.
      - eapply entry_is_dir_dir; done. }
    destruct (for_each_Done_elem _ swept swept_refl swept_trans _ _ _ x
                (descend_Done_swept f top _) Hw Hin)
      as (s1 & s2 & Ha & Hbody & Hb).
    pose proof (swept_trans _ _ _ Hs1 Ha) as Hs01.
    destruct (descend_dir f top x s1 w') as [Heq Hd2].
    { eapply swept_in_real_dir; done. }
    { eapply swept_in_dir_kept; done. }
    rewrite Heq in Hbody.
    assert (shrinks (fs (fst s2)) n) as Hn2.
    { eapply shrinks_trans; [eapply swept_shrinks|]; done. }
    apply (IH _ _ _ Hd2 Hbody n Hn2 rel name).
    + simpl. rewrite <- app_assoc. done.
    + simpl. rewrite <- app_assoc. done.
Qed.

(** On a tree that is clean below [top] the walk changes nothing. *)
Lemma walk_sweep_noop f : forall top st k,
  real_dir (fs (fst st)) (parts top) ->
  bounded (fs (fst st)) (parts top) k -> k < f ->
  clean (fs (fst st)) (parts top) ->
  walk_sweep f top st = Done st.
Proof.
  induction f as [|f IH]; intros top st k Hd Hb Hk Hc; [lia|].
  rewrite walk_sweep_S.
  destruct (Hd (parts top)) as [w Lw]; [done|].
  destruct (scandir_dir _ _ _ Hd Lw) as (es & Hfind & ->).
  rewrite for_each_fixed; [simpl; apply for_each_fixed|].
  - intros x [Hin _]%in_dirs_of.
    apply (listed_iff _ _ _ _ _ Hfind) in Hin as [m Hm].
    pose proof (Hb [x] m Hm) as Hlen. simpl in Hlen.
    destruct k as [|k]; [lia|].
    destruct (decide (is_dir_mode m = true)) as [Hmd|Hmd].
    + destruct m as [| |w']; try done.
      destruct (descend_dir f top x st w' Hd Hm) as [-> Hd2].
      apply (IH _ _ k); [done|by apply bounded_snoc|lia|].
      intros rel name Hrel Hfile. apply (Hc (x :: rel) name).
      * simpl in Hrel. rewrite <- app_assoc in Hrel. done.
      * simpl in Hfile. rewrite <- app_assoc in Hfile. done.
    + destruct (descend_not_dir f top x st Hd) as [Hn|[Hn _]]; [|done|lia].
      intros w'. rewrite Hm. intros ?; simplify_eq; simpl in *; done.
  - intros name _. unfold sweep_file.
    destruct (FS.isfile _ _) eqn:Hf; [|done].
    rewrite endswith_join_name, (Hc [] name); [done| |done].
    rewrite app_nil_r. done.
Qed.

End Sweep.

Module RmTree.
Import Props.
Import FS FSFacts.

Lemma rmtree_node_Dir w es :
  rmtree_node (Dir w es) = Dir w (purge w (map rm_child es)).
Proof. reflexivity. Qed.

Lemma purge_cons w kv es :
  purge w (kv :: es)
  = if removable w (snd kv) then purge w es else kv :: purge w es.
Proof. unfold purge. simpl. destruct (removable w (snd kv)); done. Qed.

Lemma purge_idem_children w es :
  Forall (fun kv => rmtree_node (rmtree_node (snd kv)) = rmtree_node (snd kv)) es ->
  purge w (map rm_child (purge w (map rm_child es))) = purge w (map rm_child es).
Proof.
  induction 1 as [|kv es Hkv Hes IH]; [done|].
  cbn [map]. rewrite purge_cons. cbn [rm_child snd].
  destruct (removable w (rmtree_node (snd kv))) eqn:E; [done|].
  cbn [map]. rewrite purge_cons. cbn [rm_child snd fst].
  rewrite Hkv, E, IH. unfold rm_child at 1. cbn [rm_child snd fst].
  rewrite Hkv. done.
Qed.

(** Going through a tree a second time finds nothing more to delete. *)
Lemma rmtree_node_idem n : rmtree_node (rmtree_node n) = rmtree_node n.
Proof.
  induction n as [c|t|w es IH] using node_ind'; try done.
  rewrite !rmtree_node_Dir. f_equal. apply purge_idem_children. done.
Qed.

Lemma rmtree_node_deletable n :
  deletable n = true -> removable true (rmtree_node n) = true.
Proof.
  induction n as [c|t|w es IH] using node_ind'; try done.
  intros H. simpl in H. apply andb_true_iff in H as [-> Hes].
  rewrite rmtree_node_Dir.
  assert (purge true (map rm_child es) = []) as ->; [|done].
  induction IH as [|kv es Hkv _ IHes]; [done|].
  simpl in Hes. apply andb_true_iff in Hes as [H1 H2].
  cbn [map]. rewrite purge_cons. cbn [rm_child snd].
  rewrite (Hkv H1). apply IHes. done.
Qed.

Lemma rmtree_node_mode n : mode_of (rmtree_node n) = mode_of n.
Proof. destruct n; done. Qed.

Lemma rmtree_entry_touches name : touches_only name (rmtree_entry name).
Proof.
  intros w es k Hk. unfold rmtree_entry.
  destruct (assoc name es) as [n|]; [|done].
  destruct (removable w (rmtree_node n)).
  - apply assoc_remove_name_ne. done.
  - apply assoc_map_entry_ne. done.
Qed.

Lemma rmtree_real_dir n d name :
  real_dir n d ->
  rmtree_ignore_errors n (d ++ [name])
  = match lstat_at n (d ++ [name]) with
    | Some (S_IFDIR _) => update_dir (rmtree_entry name) n d
    | _ => n
    end.
Proof.
  intros Hd. unfold rmtree_ignore_errors.
  rewrite resolve_parent_real_dir by done. done.
Qed.

Lemma anchored_entry n d name : real_dir n d -> anchored n (d ++ [name]).
Proof.
  intros Hd. exists d, name. split; [done|]. split; [done|].
  apply rmtree_real_dir. done.
Qed.

Lemma anchored_entry2 n d x name :
  real_dir n d -> plain n (d ++ [x]) -> anchored n (d ++ [x; name]).
Proof.
  intros Hd Hx. exists (d ++ [x]), name.
  split; [rewrite <- app_assoc; done|].
  replace (d ++ [x; name]) with ((d ++ [x]) ++ [name])
    by (rewrite <- app_assoc; done).
  destruct (lstat_at n (d ++ [x])) as [[c|t|w]|] eqn:L.
  - rewrite (lstat_at_nondir_below _ _ _ name [] L) by done.
    split; [done|]. unfold rmtree_ignore_errors, resolve_parent.
    rewrite split_last_snoc, realpath_real_dir by done.
    rewrite resolve_cons, L, L. done.
  - exfalso. eapply Hx. done.
  - split; [intros ? _; eapply real_dir_snoc; done|].
    apply rmtree_real_dir. eapply real_dir_snoc; done.
  - assert (lstat_at n ((d ++ [x]) ++ [name]) = None) as ->.
    { unfold lstat_at in *. rewrite find_app.
      destruct (find n (d ++ [x])); done. }
    split; [done|]. unfold rmtree_ignore_errors, resolve_parent.
    rewrite split_last_snoc, realpath_real_dir by done.
    rewrite resolve_cons, L. done.
Qed.

Lemma anchored_frame n p q :
  anchored n p -> ~ p `prefix_of` q ->
  lstat_at (rmtree_ignore_errors n p) q = lstat_at n q.
Proof.
  intros (d & name & -> & _ & ->) Hq.
  destruct (lstat_at n (d ++ [name])) as [[| |w]|]; try done.
  apply (lstat_at_update_dir_off name); [apply rmtree_entry_touches|done].
Qed.

Lemma anchored_literal n p q :
  anchored n p -> diverge p q ->
  find (rmtree_ignore_errors n p) q = find n q.
Proof.
  intros (d & name & -> & _ & ->) Hq.
  destruct (lstat_at n (d ++ [name])) as [[| |w]|]; try done.
  apply (find_update_dir_diverge name); [apply rmtree_entry_touches|done].
Qed.

Lemma anchored_absent n p :
  anchored n p -> (forall w, lstat_at n p <> Some (S_IFDIR w)) ->
  rmtree_ignore_errors n p = n.
Proof.
  intros (d & name & -> & _ & ->) Hq.
  destruct (lstat_at n (d ++ [name])) as [[| |w]|]; try done.
  exfalso. eapply Hq. done.
Qed.

Lemma find_entry_after n d w es name f :
  find n d = Some (Dir w es) ->
  find (update_dir f n d) (d ++ [name]) = assoc name (f w es).
Proof.
  intros Hf. erewrite find_update_dir_at by done. simpl.
  destruct (assoc name (f w es)); done.
Qed.

Lemma anchored_stuck n p : anchored n p -> stuck (rmtree_ignore_errors n p) p.
Proof.
  intros (d & name & -> & Hreal & ->).
  destruct (lstat_at n (d ++ [name])) as [[c|t|w]|] eqn:L;
    try (intros w' Hw'; congruence).
  specialize (Hreal w eq_refl).
  destruct (Hreal d) as [wd Ld]; [done|].
  pose proof Ld as Ld'. apply lstat_at_dir_find in Ld' as [es Hes].
  intros w' Hw'. unfold lstat_at in Hw'.
  rewrite (find_entry_after _ _ _ _ _ _ Hes) in Hw'.
  exists d, name. rewrite (find_entry_after _ _ _ _ _ _ Hes).
  assert (lstat_at (update_dir (rmtree_entry name) n d) d = Some (S_IFDIR wd)) as Ld2.
  { erewrite lstat_at_update_dir_above; [done|]. apply app_nil_r. }
  unfold rmtree_entry in *.
  destruct (assoc name es) as [k|] eqn:Ek.
  - destruct (removable wd (rmtree_node k)) eqn:Er.
    + rewrite assoc_remove_name_eq in Hw'. done.
    + rewrite assoc_map_entry_eq, Ek in *. simpl in *.
      exists (rmtree_node k), wd. split; [done|]. split; [done|].
      split; [apply rmtree_node_idem|]. done.
  - rewrite Ek in Hw'. done.
Qed.

Lemma stuck_noop n p : anchored n p -> stuck n p -> rmtree_ignore_errors n p = n.
Proof.
  intros (d & name & -> & Hreal & ->) Hs.
  destruct (lstat_at n (d ++ [name])) as [[c|t|w]|] eqn:L; try done.
  destruct (Hs w L) as (d' & name' & k & wd & Hp & Hk & Hid & Ld & Hr).
  apply app_inj_tail in Hp as [<- <-].
  pose proof Ld as Ld'. apply lstat_at_dir_find in Ld' as [es Hes].
  eapply update_dir_id; [done|].
  rewrite find_app, Hes in Hk. simpl in Hk.
  unfold rmtree_entry. destruct (assoc name es) as [k'|] eqn:Ek; [|done].
  injection Hk as ->. rewrite Hid, Hr. eapply map_entry_id; done.
Qed.

Lemma stuck_transfer n n' p :
  find n' p = find n p ->
  (forall d name, p = d ++ [name] -> lstat_at n' d = lstat_at n d) ->
  stuck n p -> stuck n' p.
Proof.
  intros Hf Hd Hs w Hw. unfold lstat_at in Hw. rewrite Hf in Hw.
  destruct (Hs w Hw) as (d & name & k & wd & Hp & Hk & Hid & Ld & Hr).
  exists d, name, k, wd. rewrite Hf, (Hd d name Hp). done.
Qed.

(** With write permission all the way down, the directory goes whole. *)
Lemma anchored_gone n d name w es :
  anchored n (d ++ [name]) ->
  find n (d ++ [name]) = Some (Dir w es) -> deletable (Dir w es) = true ->
  lstat_at n d = Some (S_IFDIR true) ->
  lstat_at (rmtree_ignore_errors n (d ++ [name])) (d ++ [name]) = None.
Proof.
  intros (d' & name' & Hp & Hreal & ->) Hk Hdel Ld.
  apply app_inj_tail in Hp as [<- <-].
  unfold lstat_at at 2. rewrite Hk. cbn [option_map mode_of].
  pose proof Ld as Ld'. apply lstat_at_dir_find in Ld' as [es' Hes].
  unfold lstat_at. rewrite (find_entry_after _ _ _ _ _ _ Hes).
  rewrite find_app, Hes in Hk. simpl in Hk.
  unfold rmtree_entry. destruct (assoc name es') as [k'|] eqn:Ek; [|done].
  injection Hk as ->. rewrite (rmtree_node_deletable _ Hdel).
  rewrite assoc_remove_name_eq. done.
Qed.

End RmTree.

Module Layout.
Import Props.
Import FS FSFacts RmTree.

Lemma prefixes_spec q p : q `prefix_of` p -> In q (prefixes p).
Proof.
  revert q. induction p as [|c p IH]; intros q [r Hr].
  - destruct q; [left; done|done].
  - destruct q as [|c' q]; [left; done|]. injection Hr as -> Hr.
    right. apply in_map. apply IH. exists r. done.
Qed.

Lemma is_linkb_plain n p : is_linkb n p = false -> plain n p.
Proof. unfold is_linkb. intros H t Ht. rewrite Ht in H. done. Qed.

Lemma layoutb_layout root n : layoutb root n = true -> layout root n.
Proof.
  unfold layoutb. rewrite !andb_true_iff, !negb_true_iff.
  intros [[[H1 H2] H3] H4]. split; try (apply is_linkb_plain; done).
  intros q Hq. rewrite forallb_forall in H1.
  specialize (H1 q (prefixes_spec _ _ Hq)). unfold is_dirb in H1.
  destruct (lstat_at n q) as [[| |w]|]; try done. eauto.
Qed.

Lemma layout_layoutb root n : layout root n -> layoutb root n = true.
Proof.
  intros [H1 H2 H3 H4]. unfold layoutb.
  rewrite !andb_true_iff, !negb_true_iff. repeat split.
  - apply forallb_forall. intros q Hq. unfold is_dirb.
    assert (q `prefix_of` parts root) as Hp.
    { clear -Hq. revert q Hq. induction (parts root) as [|c p IH]; intros q.
      - intros [<-|[]]. done.
      - intros [<-|Hq]; [apply prefix_nil|].
        apply in_map_iff in Hq as (q' & <- & Hq'). apply prefix_cons. auto. }
    destruct (H1 q Hp) as [w ->]. done.
  - unfold is_linkb. destruct (lstat_at n _) as [[| |]|] eqn:E; try done.
    exfalso. eapply H2. done.
  - unfold is_linkb. destruct (lstat_at n _) as [[| |]|] eqn:E; try done.
    exfalso. eapply H3. done.
  - unfold is_linkb. destruct (lstat_at n _) as [[| |]|] eqn:E; try done.
    exfalso. eapply H4. done.
Qed.

(** A layout survives any change that leaves the four paths as they
    are. *)
Lemma layout_transfer root n n' :
  (forall q, q `prefix_of` parts root -> lstat_at n' q = lstat_at n q) ->
  (forall x, In x ["nautilus_trader"; "examples"; "docs"] ->
             lstat_at n' (parts root ++ [x]) = lstat_at n (parts root ++ [x])
             \/ lstat_at n' (parts root ++ [x]) = None) ->
  layout root n -> layout root n'.
Proof.
  intros Hq Hx [H1 H2 H3 H4].
  assert (forall x, In x ["nautilus_trader"; "examples"; "docs"] ->
            plain n (parts root ++ [x]) -> plain n' (parts root ++ [x])) as Hp.
  { intros x Hin Hpl t Ht. destruct (Hx x Hin) as [E|E]; rewrite E in Ht; [|done].
    eapply Hpl. done. }
  split.
  - intros q Hp'. rewrite Hq by done. apply H1. done.
  - apply Hp; [|done]. simpl. auto.
  - apply Hp; [|done]. simpl. auto.
  - apply Hp; [|done]. simpl. auto.
Qed.

Lemma diverge_app (r a b : path) : diverge a b -> diverge (r ++ a) (r ++ b).
Proof. induction r as [|c r IH]; simpl; auto. Qed.

Lemma diverge_not_prefix (a b : path) : diverge a b -> ~ a `prefix_of` b.
Proof.
  revert b. induction a as [|u a IH]; intros b; [done|].
  destruct b as [|v b]; [done|]. simpl. intros [Hne|Hd] [r Hr].
  - injection Hr as -> _. done.
  - injection Hr as _ Hr. eapply IH; [done|]. exists r. done.
Qed.

Lemma diverge_app_r (a b r : path) : diverge a b -> diverge a (b ++ r).
Proof.
  revert b. induction a as [|u a IH]; intros b; [done|].
  destruct b as [|v b]; [done|]. simpl. intros [Hne|Hd]; auto.
Qed.

Lemma diverge_app_l (a b r : path) : diverge a b -> diverge (a ++ r) b.
Proof.
  revert b. induction a as [|u a IH]; intros b; [done|].
  destruct b as [|v b]; [done|]. simpl. intros [Hne|Hd]; auto.
Qed.

Lemma diverge_sym (a b : path) : diverge a b -> diverge b a.
Proof.
  revert b. induction a as [|u a IH]; intros b; [done|].
  destruct b as [|v b]; [done|]. simpl. intros [Hne|Hd]; auto.
Qed.

Lemma divergeb_diverge a b : divergeb a b = true -> diverge a b.
Proof.
  revert b. induction a as [|u a IH]; intros b; [done|].
  destruct b as [|v b]; [done|]. simpl.
  intros [H|H]%orb_true_iff; [left|right; auto].
  apply negb_true_iff, String.eqb_neq in H. done.
Qed.

Lemma not_prefix_app (r a q : path) :
  ~ a `prefix_of` q -> ~ (r ++ a) `prefix_of` (r ++ q).
Proof. intros H Hp. apply H. eapply prefix_app_inv. done. Qed.

Lemma not_prefix_longer (r a : path) q :
  a <> [] -> q `prefix_of` r -> ~ (r ++ a) `prefix_of` q.
Proof.
  intros Ha [r1 ->] [r2 Hr]. destruct a; [done|].
  apply (f_equal length) in Hr. rewrite !length_app in Hr. simpl in Hr. lia.
Qed.

End Layout.

Module FilesPhase.
Import Props.
Import FS FSFacts Loops Layout.

Lemma unlink_real_dir n d name :
  real_dir n d ->
  unlink n (d ++ [name])
  = match lstat_at n (d ++ [name]) with
    | None => Err ENOENT
    | Some m =>
        match lstat_at n d with
        | Some (S_IFDIR true) =>
            match m with
            | S_IFDIR _ => Err EISDIR
            | _ => Ok (update_dir (fun _ => remove_name name) n d)
            end
        | _ => Err EACCES
        end
    end.
Proof. intros Hd. unfold unlink. rewrite resolve_parent_real_dir by done. done. Qed.

Lemma files_single t : In t FILES_TO_CLEAN -> single t.
Proof. simpl. intros [<-|[<-|[<-|[]]]]; reflexivity. Qed.

Lemma target_single root t : single t -> target root t = parts root ++ [t].
Proof. unfold target, single. simpl. intros ->. done. Qed.

Lemma filed_refl root files w : filed root files w w.
Proof. intros _. exists []. apply erased_nil. Qed.

Lemma filed_trans root files a b c :
  filed root files a b -> filed root files b c -> filed root files a c.
Proof.
  intros H1 H2 Hd. destruct (H1 Hd) as [l1 E1].
  destruct (H2 (real_dir_erased _ _ _ _ _ E1 Hd)) as [l2 E2].
  exists (l1 ++ l2). eapply erased_app; done.
Qed.

Lemma remove_listed_file_Done root files t w w' :
  In t files -> single t ->
  remove_listed_file root t w = Done w' ->
  filed root files w w'
  /\ (real_dir (fs w) (parts root) -> lstat_at (fs w') (parts root ++ [t]) = None).
Proof.
  intros Hin Hs. unfold remove_listed_file. fold (target root t).
  rewrite (target_single _ _ Hs).
  destruct (unlink (fs w) (parts root ++ [t])) as [fs'|e] eqn:Hu.
  - intros [= <-].
    apply unlink_Ok in Hu as (d & nm & m & Hr & Hd & Hm & Hnd & Hq & Hlit).
    assert (real_dir (fs w) (parts root) ->
            erased (listed_in root files) (fs w) [parts root ++ [t]] fs') as He.
    { intros Hreal. rewrite resolve_parent_real_dir in Hr by done.
      injection Hr as <- <-. eapply erased_one; try done. exists t. done. }
    split.
    + intros Hreal. eexists. apply He. done.
    + intros Hreal. eapply Sweep.erased_one_gone. apply He. done.
  - destruct e; try done. intros [= <-]. split; [apply filed_refl|].
    intros Hreal. rewrite unlink_real_dir in Hu by done.
    destruct (lstat_at (fs w) (parts root ++ [t])) as [m|]; [|done].
    destruct (lstat_at (fs w) (parts root)) as [[| |[]]|]; try done.
    destruct m; done.
Qed.

Lemma remove_listed_file_Raised root t w e w' :
  remove_listed_file root t w = Raised e w' ->
  w' = w /\ e <> ENOENT
  /\ unlink (fs w) (target root t) = Err e.
Proof.
  unfold remove_listed_file. fold (target root t).
  destruct (unlink _ _) as [|e']; [done|].
  destruct e'; try done; intros [= <- <-]; done.
Qed.

Lemma remove_listed_file_fuel root t w : remove_listed_file root t w <> OutOfFuel.
Proof.
  unfold remove_listed_file. destruct (unlink _ _) as [|[]]; done.
Qed.

Lemma files_body_filed root files :
  Forall single files ->
  forall a s1 s2, In a files ->
    remove_listed_file root a s1 = Done s2 -> filed root files s1 s2.
Proof.
  intros Hs a s1 s2 Hin Hb. rewrite Forall_forall in Hs.
  eapply remove_listed_file_Done; [done| |done]. apply Hs.
  apply list_elem_of_In. done.
Qed.

(** The file loop that ends normally has removed entries named by the
    list, and none of the names is left. *)
Lemma files_phase_Done root files w w' :
  Forall single files -> real_dir (fs w) (parts root) ->
  for_each (remove_listed_file root) files w = Done w' ->
  (exists l, erased (listed_in root files) (fs w) l (fs w'))
  /\ forall t, In t files -> lstat_at (fs w') (parts root ++ [t]) = None.
Proof.
  intros Hs Hreal Hf. split.
  - eapply (for_each_Done _ _ (filed_refl root files) (filed_trans root files));
      [apply files_body_filed| |]; done.
  - intros t Hin.
    destruct (for_each_Done_elem _ _ (filed_refl root files)
                (filed_trans root files) _ _ _ t
                (files_body_filed root files Hs) Hf Hin)
      as (s1 & s2 & H1 & Hb & H2).
    destruct (H1 Hreal) as [l1 E1].
    pose proof (real_dir_erased _ _ _ _ _ E1 Hreal) as Hreal1.
    rewrite Forall_forall in Hs.
    destruct (remove_listed_file_Done root files t s1 s2 Hin) as [H12 Hnone];
      [apply Hs, list_elem_of_In; done|done|].
    destruct (H12 Hreal1) as [l12 E12].
    destruct (H2 (real_dir_erased _ _ _ _ _ E12 Hreal1)) as [l2 E2].
    destruct (lstat_at (fs w') (parts root ++ [t])) as [m|] eqn:L; [|done].
    apply (erased_shrinks _ _ _ _ E2) in L. rewrite Hnone in L; done.
Qed.

Lemma files_phase_Raised root files w e w' :
  for_each (remove_listed_file root) files w = Raised e w' -> e <> ENOENT.
Proof.
  intros H.
  apply (for_each_Raised _ (fun _ _ => True)) in H; [|done|done|done].
  destruct H as (a & s1 & _ & _ & Hb).
  apply remove_listed_file_Raised in Hb. tauto.
Qed.

Lemma files_phase_fuel root files w :
  for_each (remove_listed_file root) files w <> OutOfFuel.
Proof.
  intros H.
  apply (for_each_OutOfFuel _ (fun _ _ => True)) in H; [|done|done|done].
  destruct H as (a & s1 & _ & _ & Hb). eapply remove_listed_file_fuel. done.
Qed.

Lemma files_phase_absent root files w :
  Forall single files -> real_dir (fs w) (parts root) ->
  (forall t, In t files -> lstat_at (fs w) (parts root ++ [t]) = None) ->
  for_each (remove_listed_file root) files w = Done w.
Proof.
  intros Hs Hreal Habs. apply for_each_fixed. intros t Hin.
  rewrite Forall_forall in Hs.
  unfold remove_listed_file. fold (target root t).
  rewrite target_single by (apply Hs, list_elem_of_In; done).
  rewrite unlink_real_dir, Habs by done. done.
Qed.

Lemma files_phase_blocked root files : forall w t,
  Forall single files -> real_dir (fs w) (parts root) ->
  In t files -> blocked root (fs w) t ->
  exists e w', for_each (remove_listed_file root) files w = Raised e w'.
Proof.
  induction files as [|a files IH]; intros w t Hs Hreal Hin Hbl; [done|].
  apply Forall_cons in Hs as [Ha Hs]. simpl.
  destruct (remove_listed_file root a w) as [w1|e1 w1|] eqn:Hb.
  - assert (blocked root (fs w1) t /\ real_dir (fs w1) (parts root)
            /\ a <> t) as (Hbl1 & Hreal1 & Hne).
    { destruct (remove_listed_file_Done root [a] a w w1) as [Hf _];
        [left; done|done|done|].
      destruct (Hf Hreal) as [l E].
      split; [|split; [eapply real_dir_erased; done|]].
      - destruct Hbl as (m & Lm & Hm). exists m.
        destruct E as (N & A & Q & F).
        assert (lstat_at (fs w1) (parts root) = lstat_at (fs w) (parts root)) as Er.
        { rewrite Q. destruct (decide (_ ∈ l)) as [Hl|]; [|done].
          destruct (A _ Hl) as (_ & m' & Hm' & Hd').
          destruct (Hreal (parts root)) as [wr Hwr]; [done|].
          rewrite Hwr in Hm'. injection Hm' as <-. done. }
        rewrite Er. split; [|done]. rewrite Q.
        destruct (decide (_ ∈ l)) as [Hl|]; [|done]. exfalso.
        destruct (A _ Hl) as ((t' & [<-|[]] & Hc) & m' & Hm' & Hd').
        apply app_inv_head in Hc. injection Hc as <-.
        unfold remove_listed_file in Hb. fold (target root t) in Hb.
        rewrite (target_single _ _ Ha), unlink_real_dir, Lm in Hb by done.
        destruct Hm as [Hm|Hm].
        + destruct (lstat_at (fs w) (parts root)) as [[| |[]]|]; try done.
          destruct m; done.
        + destruct (lstat_at (fs w) (parts root)) as [[| |[]]|]; done.
      - intros <-. destruct Hbl as (m & Lm & Hm).
        unfold remove_listed_file in Hb. fold (target root a) in Hb.
        rewrite (target_single _ _ Ha), unlink_real_dir, Lm in Hb by done.
        destruct Hm as [Hm|Hm].
        + destruct (lstat_at (fs w) (parts root)) as [[| |[]]|]; try done.
          destruct m; done.
        + destruct (lstat_at (fs w) (parts root)) as [[| |[]]|]; done. }
    destruct Hin as [->|Hin]; [done|]. eapply IH; done.
  - eauto.
  - exfalso. eapply remove_listed_file_fuel. done.
Qed.

(** Conversely, the file loop raises only when some listed entry is
    blocked. *)
Lemma files_phase_Raised_blocked root files w e w' :
  Forall single files -> real_dir (fs w) (parts root) ->
  for_each (remove_listed_file root) files w = Raised e w' ->
  exists t, In t files /\ blocked root (fs w) t.
Proof.
  intros Hs Hreal H.
  apply (for_each_Raised _ _ (filed_refl root files) (filed_trans root files))
    in H; [|apply files_body_filed; done].
  destruct H as (a & s1 & Hin & Hf & Hb).
  destruct (Hf Hreal) as [l E].
  pose proof (real_dir_erased _ _ _ _ _ E Hreal) as Hreal1.
  apply remove_listed_file_Raised in Hb as (_ & Hne & Hu).
  rewrite Forall_forall in Hs.
  rewrite (target_single root a) in Hu by (apply Hs, list_elem_of_In; done).
  rewrite unlink_real_dir in Hu by done.
  exists a. split; [done|].
  destruct (lstat_at (fs s1) (parts root ++ [a])) as [m|] eqn:Lm;
    [|congruence].
  exists m. split; [eapply erased_shrinks; done|].
  destruct (Hreal (parts root)) as [wr Hwr]; [done|].
  rewrite (erased_dir_kept _ _ _ _ _ _ E Hwr) in Hu. rewrite Hwr.
  destruct wr; [|right; done]. left. destruct m; done.
Qed.

End FilesPhase.

Module DirsPhase.
Import Props.
Import FS FSFacts Loops Layout RmTree.

(** The directory loop never raises: it is a fold of [rmtree]. *)
Lemma dirs_phase_Done root dirs : forall w,
  for_each (remove_listed_dir root) dirs w
  = Done {| fs := fold_left (rm_target root) dirs (fs w);
            stdout := stdout w ++ map RemovingDir dirs |}.
Proof.
  induction dirs as [|a dirs IH]; intros w; simpl.
  - rewrite app_nil_r. destruct w. done.
  - rewrite IH. simpl. rewrite <- app_assoc. done.
Qed.

Lemma dirs_cases t :
  In t DIRS_TO_CLEAN ->
  (PyStr.components t = [t]
   /\ t <> "nautilus_trader" /\ t <> "examples" /\ t <> "docs")
  \/ t = "docs/build".
Proof.
  simpl. intros H.
  repeat (destruct H as [<-|H];
          [first [right; reflexivity
                 |left; split; [reflexivity|repeat split; discriminate]]|]).
  done.
Qed.

Lemma target_docs_build root :
  target root "docs/build" = parts root ++ ["docs"; "build"].
Proof. reflexivity. Qed.

Lemma target_anchored root n t :
  layout root n -> In t DIRS_TO_CLEAN -> anchored n (target root t).
Proof.
  intros [H1 H2 H3 H4] [(Hc & _)| ->]%dirs_cases.
  - rewrite FilesPhase.target_single by done. apply anchored_entry. done.
  - rewrite target_docs_build. apply anchored_entry2; done.
Qed.

Lemma target_nonempty root t :
  In t DIRS_TO_CLEAN -> exists a, a <> [] /\ target root t = parts root ++ a.
Proof.
  intros [(Hc & _)| ->]%dirs_cases.
  - exists [t]. rewrite FilesPhase.target_single by done. done.
  - exists ["docs"; "build"]. done.
Qed.

Lemma target_off_layout root t q :
  In t DIRS_TO_CLEAN ->
  q `prefix_of` parts root
  \/ (exists x, In x ["nautilus_trader"; "examples"; "docs"]
                /\ q = parts root ++ [x]) ->
  ~ target root t `prefix_of` q.
Proof.
  intros Ht [Hq|(x & Hx & ->)].
  - destruct (target_nonempty root t Ht) as (a & Ha & ->).
    apply not_prefix_longer; done.
  - destruct (dirs_cases t Ht) as [(Hc & N1 & N2 & N3)| ->].
    + rewrite FilesPhase.target_single by done. apply not_prefix_app.
      intros [r Hr]. injection Hr as Hx' _. simpl in Hx.
      intuition congruence.
    + rewrite target_docs_build. apply not_prefix_app.
      intros [r Hr]. done.
Qed.

Lemma rm_target_layout root n t :
  layout root n -> In t DIRS_TO_CLEAN -> layout root (rm_target root n t).
Proof.
  intros Hl Ht. eapply layout_transfer; [| |done].
  - intros q Hq. apply anchored_frame; [apply target_anchored; done|].
    apply target_off_layout; auto.
  - intros x Hx. left. apply anchored_frame; [apply target_anchored; done|].
    apply target_off_layout; eauto.
Qed.

Lemma fold_layout root dirs : forall n,
  layout root n -> (forall a, In a dirs -> In a DIRS_TO_CLEAN) ->
  layout root (fold_left (rm_target root) dirs n).
Proof.
  induction dirs as [|a dirs IH]; intros n Hl Hd; [done|]. simpl.
  apply IH; [|intros a' Ha'; apply Hd; right; done].
  apply rm_target_layout; [done|]. apply Hd. left. done.
Qed.

Lemma targets_diverge root t t' :
  In t DIRS_TO_CLEAN -> In t' DIRS_TO_CLEAN -> t <> t' ->
  diverge (target root t) (target root t').
Proof.
  intros [(Hc & N1 & N2 & N3)| ->]%dirs_cases
         [(Hc' & N1' & N2' & N3')| ->]%dirs_cases Hne;
    try rewrite (FilesPhase.target_single root t) by done;
    try rewrite (FilesPhase.target_single root t') by done;
    rewrite ?target_docs_build;
    try done; apply diverge_app; simpl; auto.
Qed.

(** Paths that are not at or under a listed directory are as they were
    after the directory loop. *)
Lemma dirs_phase_frame root dirs : forall n q,
  layout root n -> (forall a, In a dirs -> In a DIRS_TO_CLEAN) ->
  (forall t, In t dirs -> ~ target root t `prefix_of` q) ->
  lstat_at (fold_left (rm_target root) dirs n) q = lstat_at n q.
Proof.
  induction dirs as [|a dirs IH]; intros n q Hl Hd Hq; [done|]. simpl.
  rewrite IH.
  - apply anchored_frame; [|apply Hq; left; done].
    apply target_anchored; [done|]. apply Hd. left. done.
  - apply rm_target_layout; [done|]. apply Hd. left. done.
  - intros a' Ha'. apply Hd. right. done.
  - intros t Ht. apply Hq. right. done.
Qed.

(** A path that is absent stays absent, provided it is not strictly
    below a listed directory. *)
Lemma dirs_phase_absent root dirs : forall n q,
  layout root n -> (forall a, In a dirs -> In a DIRS_TO_CLEAN) ->
  (forall t, In t dirs -> target root t = q \/ ~ target root t `prefix_of` q) ->
  lstat_at n q = None ->
  lstat_at (fold_left (rm_target root) dirs n) q = None.
Proof.
  induction dirs as [|a dirs IH]; intros n q Hl Hd Hq Hn; [done|]. simpl.
  apply IH.
  - apply rm_target_layout; [done|]. apply Hd. left. done.
  - intros a' Ha'. apply Hd. right. done.
  - intros t Ht. apply Hq. right. done.
  - assert (anchored n (target root a)) as Ha.
    { apply target_anchored; [done|]. apply Hd. left. done. }
    destruct (Hq a) as [He|Hp]; [left; done| |].
    + unfold rm_target. rewrite anchored_absent; [done|done|].
      rewrite He, Hn. done.
    + unfold rm_target. rewrite anchored_frame; done.
Qed.

(** A path that is not a directory stays what it is, provided it is not
    strictly below a listed directory. *)
Lemma dirs_phase_nondir root dirs : forall n q,
  layout root n -> (forall a, In a dirs -> In a DIRS_TO_CLEAN) ->
  (forall t, In t dirs -> target root t = q \/ ~ target root t `prefix_of` q) ->
  (forall wd, lstat_at n q <> Some (S_IFDIR wd)) ->
  lstat_at (fold_left (rm_target root) dirs n) q = lstat_at n q.
Proof.
  induction dirs as [|a dirs IH]; intros n q Hl Hd Hq Hn; [done|]. simpl.
  assert (anchored n (target root a)) as Ha.
  { apply target_anchored; [done|]. apply Hd. left. done. }
  assert (rm_target root n a = n
          \/ lstat_at (rm_target root n a) q = lstat_at n q) as Hstep.
  { destruct (Hq a) as [He|Hp]; [left; done| |].
    - left. unfold rm_target. apply anchored_absent; [done|]. rewrite He. done.
    - right. unfold rm_target. apply anchored_frame; done. }
  rewrite IH.
  - destruct Hstep as [->|Hstep]; done.
  - apply rm_target_layout; [done|]. apply Hd. left. done.
  - intros a' Ha'. apply Hd. right. done.
  - intros t Ht. apply Hq. right. done.
  - intros wd. destruct Hstep as [-> | ->]; apply Hn.
Qed.

Lemma stuck_step root n t a :
  layout root n -> In t DIRS_TO_CLEAN -> In a DIRS_TO_CLEAN ->
  stuck n (target root t) -> stuck (rm_target root n a) (target root t).
Proof.
  intros Hl Ht Ha Hs.
  pose proof (target_anchored root n a Hl Ha) as Hanc.
  destruct (decide (a = t)) as [->|Hne].
  - unfold rm_target. rewrite stuck_noop; done.
  - pose proof (targets_diverge root a t Ha Ht Hne) as Hdiv.
    eapply stuck_transfer; [| |done].
    + apply anchored_literal; done.
    + intros d name Hp. apply anchored_frame; [done|].
      intros Hpre. eapply diverge_not_prefix; [done|].
      rewrite Hp. apply prefix_app_r. done.
Qed.

Lemma stuck_fold root dirs : forall n t,
  layout root n -> (forall a, In a dirs -> In a DIRS_TO_CLEAN) ->
  In t DIRS_TO_CLEAN -> stuck n (target root t) ->
  stuck (fold_left (rm_target root) dirs n) (target root t).
Proof.
  induction dirs as [|a dirs IH]; intros n t Hl Hd Ht Hs; [done|]. simpl.
  apply IH; [| |done|].
  - apply rm_target_layout; [done|]. apply Hd. left. done.
  - intros a' Ha'. apply Hd. right. done.
  - apply stuck_step; [done|done| |done]. apply Hd. left. done.
Qed.

(** After the directory loop nothing is left for [rmtree] to do at any
    directory it went through. *)
Lemma dirs_phase_stuck root dirs : forall n t,
  layout root n -> (forall a, In a dirs -> In a DIRS_TO_CLEAN) ->
  In t dirs -> stuck (fold_left (rm_target root) dirs n) (target root t).
Proof.
  induction dirs as [|a dirs IH]; intros n t Hl Hd Ht; [done|]. simpl.
  assert (In a DIRS_TO_CLEAN) as Ha by (apply Hd; left; done).
  assert (forall a', In a' dirs -> In a' DIRS_TO_CLEAN) as Hd'
    by (intros a' Ha'; apply Hd; right; done).
  pose proof (rm_target_layout root n a Hl Ha) as Hl1.
  destruct (decide (a = t)) as [->|Hne].
  - apply stuck_fold; try done. apply anchored_stuck.
    apply target_anchored; done.
  - destruct Ht as [->|Ht]; [done|]. apply IH; done.
Qed.

Lemma dirs_phase_noop root dirs : forall n,
  layout root n -> (forall a, In a dirs -> In a DIRS_TO_CLEAN) ->
  (forall a, In a dirs -> stuck n (target root a)) ->
  fold_left (rm_target root) dirs n = n.
Proof.
  induction dirs as [|a dirs IH]; intros n Hl Hd Hs; [done|]. simpl.
  assert (rm_target root n a = n) as ->.
  { unfold rm_target. apply stuck_noop; [|apply Hs; left; done].
    apply target_anchored; [done|]. apply Hd. left. done. }
  apply IH; [done| |]; intros a' Ha'; [apply Hd|apply Hs]; right; done.
Qed.

(** A listed directory that can be deleted whole is gone after the
    loop. *)
Lemma dirs_phase_gone root dirs : forall n t d name w es,
  layout root n -> (forall a, In a dirs -> In a DIRS_TO_CLEAN) ->
  In t dirs -> target root t = d ++ [name] ->
  find n (target root t) = Some (Dir w es) -> deletable (Dir w es) = true ->
  lstat_at n d = Some (S_IFDIR true) ->
  lstat_at (fold_left (rm_target root) dirs n) (target root t) = None.
Proof.
  induction dirs as [|a dirs IH]; intros n t d name w es Hl Hd Ht Hp Hf Hdel Hw;
    [done|]. simpl.
  assert (In a DIRS_TO_CLEAN) as Ha by (apply Hd; left; done).
  assert (forall a', In a' dirs -> In a' DIRS_TO_CLEAN) as Hd'
    by (intros a' Ha'; apply Hd; right; done).
  pose proof (rm_target_layout root n a Hl Ha) as Hl1.
  pose proof (target_anchored root n a Hl Ha) as Hanc.
  destruct (decide (a = t)) as [->|Hne].
  - apply dirs_phase_absent; try done.
    + intros t' Ht'. destruct (decide (t' = t)) as [->|Hne]; [left; done|].
      right. apply diverge_not_prefix, targets_diverge; auto.
    + unfold rm_target. rewrite Hp in *. eapply anchored_gone; done.
  - assert (In t DIRS_TO_CLEAN) as Ht0 by (apply Hd; done).
    destruct Ht as [->|Ht]; [done|].
    pose proof (targets_diverge root a t Ha Ht0 Hne) as Hdiv.
    eapply (IH _ t d name w es); try done.
    + unfold rm_target. rewrite anchored_literal; done.
    + unfold rm_target. rewrite anchored_frame; [done|done|].
      intros Hpre. eapply diverge_not_prefix; [done|].
      rewrite Hp. apply prefix_app_r. done.
Qed.

End DirsPhase.

Module SweepPhase.
Import Props.
Import FS FSFacts Loops Layout RmTree Sweep.

Lemma top_cases n d x :
  real_dir n d -> plain n (d ++ [x]) ->
  real_dir n (d ++ [x]) \/ exists e, scandir n (d ++ [x]) = Err e.
Proof.
  intros Hd Hx. destruct (lstat_at n (d ++ [x])) as [[c|t|w]|] eqn:L.
  - right. apply scandir_not_dir; [done| |]; rewrite L; done.
  - exfalso. eapply Hx. done.
  - left. eapply real_dir_snoc; done.
  - right. apply scandir_not_dir; [done| |]; rewrite L; done.
Qed.

Lemma os_walk_sweep_err top st e :
  scandir (fs (fst st)) (parts top) = Err e -> os_walk_sweep top st = Done st.
Proof. apply walk_sweep_scan_err. Qed.

Section OneTop.
Context (top : pathname) (d : path) (x : string).
Hypothesis top_parts : parts top = d ++ [x].

Lemma os_walk_sweep_fuel st :
  real_dir (fs (fst st)) d -> plain (fs (fst st)) (d ++ [x]) ->
  os_walk_sweep top st <> OutOfFuel.
Proof.
  intros Hd Hx. destruct (top_cases _ _ _ Hd Hx) as [Hr|[e He]].
  - apply (walk_sweep_terminates _ _ _ (height (fs (fst st)))); [| |lia].
    + rewrite top_parts. done.
    + apply bounded_height.
  - rewrite (os_walk_sweep_err top st e); [done|]. rewrite top_parts. done.
Qed.

Lemma os_walk_sweep_below n0 st :
  real_dir (fs (fst st)) d -> plain (fs (fst st)) (d ++ [x]) ->
  shrinks n0 (fs (fst st)) ->
  (forall st', os_walk_sweep top st = Done st' ->
               swept_in (below_ext n0 (d ++ [x])) st st')
  /\ (forall e w, os_walk_sweep top st = Raised e w ->
                  exists n, swept_in (below_ext n0 (d ++ [x])) st (w, n)).
Proof.
  intros Hd Hx Hn0. destruct (top_cases _ _ _ Hd Hx) as [Hr|[e He]].
  - rewrite <- top_parts in *. apply walk_sweep_below; done.
  - rewrite (os_walk_sweep_err top st e) by (rewrite top_parts; done).
    split; [|done]. intros st' [= <-]. apply swept_in_refl.
Qed.

Lemma os_walk_sweep_clean st st' :
  real_dir (fs (fst st)) d -> plain (fs (fst st)) (d ++ [x]) ->
  os_walk_sweep top st = Done st' ->
  forall n, shrinks (fs (fst st')) n -> clean n (d ++ [x]).
Proof.
  intros Hd Hx Hw n Hn. destruct (top_cases _ _ _ Hd Hx) as [Hr|[e He]].
  - rewrite <- top_parts in *. eapply walk_sweep_clean; done.
  - rewrite (os_walk_sweep_err top st e) in Hw by (rewrite top_parts; done).
    injection Hw as <-. intros rel name Hrel _. exfalso.
    destruct (Hrel (d ++ [x])) as [w Lw]; [by exists rel|].
    apply Hn in Lw. unfold scandir in He.
    rewrite realpath_real_dir_self in He by (eapply real_dir_snoc; done).
    apply lstat_at_dir_find in Lw as [es Hes]. rewrite Hes in He. done.
Qed.

Lemma os_walk_sweep_noop st :
  real_dir (fs (fst st)) d -> plain (fs (fst st)) (d ++ [x]) ->
  clean (fs (fst st)) (d ++ [x]) -> os_walk_sweep top st = Done st.
Proof.
  intros Hd Hx Hc. destruct (top_cases _ _ _ Hd Hx) as [Hr|[e He]].
  - apply (walk_sweep_noop _ _ _ (height (fs (fst st)))); [| | lia |].
    + rewrite top_parts. done.
    + apply bounded_height.
    + rewrite top_parts. done.
  - apply (os_walk_sweep_err top st e). rewrite top_parts. done.
Qed.
End OneTop.

Lemma layout_erased P root n l n' :
  erased P n l n' -> layout root n -> layout root n'.
Proof.
  intros E Hl. pose proof E as (_ & _ & Q & _).
  eapply layout_transfer; [| |done].
  - intros q Hq. destruct (layout_root _ _ Hl q Hq) as [w Hw].
    rewrite Hw. eapply erased_dir_kept; done.
  - intros x _. rewrite Q. destruct (decide (_ ∈ l)); auto.
Qed.

Lemma layout_swept P root st st' :
  swept_in P st st' -> layout root (fs (fst st)) -> layout root (fs (fst st')).
Proof. intros (_ & l & E & _). eapply layout_erased. done. Qed.

Lemma nt_parts root : parts (nt_top root) = parts root ++ ["nautilus_trader"].
Proof. reflexivity. Qed.

Lemma ex_parts root : parts (ex_top root) = parts root ++ ["examples"].
Proof. reflexivity. Qed.

Lemma sweep_eq root w :
  sweep root w
  = bind (os_walk_sweep (nt_top root) (w, 0)) (os_walk_sweep (ex_top root)).
Proof. reflexivity. Qed.

Lemma sweep_fuel root w : layout root (fs w) -> sweep root w <> OutOfFuel.
Proof.
  intros Hl. rewrite sweep_eq. unfold bind.
  destruct (os_walk_sweep (nt_top root) (w, 0)) as [st1| |] eqn:E1; [|done|].
  - destruct (os_walk_sweep_below _ _ _ (nt_parts root) (fs w) (w, 0))
      as [Hb _]; [apply Hl|apply Hl|apply shrinks_refl|].
    pose proof (layout_swept _ root _ _ (Hb _ E1) Hl) as Hl1.
    apply (os_walk_sweep_fuel _ _ _ (ex_parts root)); apply Hl1.
  - exfalso. revert E1.
    apply (os_walk_sweep_fuel _ _ _ (nt_parts root)); apply Hl.
Qed.

(** The two walks together, when they end normally. *)
Lemma sweep_Done root w st :
  layout root (fs w) -> sweep root w = Done st ->
  swept_in (below_tops root (fs w)) (w, 0) st
  /\ clean (fs (fst st)) (parts root ++ ["nautilus_trader"])
  /\ clean (fs (fst st)) (parts root ++ ["examples"]).
Proof.
  intros Hl. rewrite sweep_eq. unfold bind.
  destruct (os_walk_sweep (nt_top root) (w, 0)) as [st1| |] eqn:E1; try done.
  intros E2.
  destruct (os_walk_sweep_below _ _ _ (nt_parts root) (fs w) (w, 0))
    as [Hb1 _]; [apply Hl|apply Hl|apply shrinks_refl|]. specialize (Hb1 _ E1).
  pose proof (layout_swept _ root _ _ Hb1 Hl) as Hl1.
  destruct (os_walk_sweep_below _ _ _ (ex_parts root) (fs w) st1) as [Hb2 _];
    [apply Hl1|apply Hl1|exact (swept_in_shrinks _ _ _ Hb1)|].
  specialize (Hb2 _ E2).
  split; [|split].
  - eapply swept_in_trans; (eapply swept_in_weaken; [|done]);
      intros c Hc; [left|right]; done.
  - eapply (os_walk_sweep_clean _ _ _ (nt_parts root) (w, 0));
      [apply Hl|apply Hl|done|]. eapply swept_in_shrinks. done.
  - eapply (os_walk_sweep_clean _ _ _ (ex_parts root) st1);
      [apply Hl1|apply Hl1|done|]. apply shrinks_refl.
Qed.

Lemma sweep_Raised root w e w' :
  layout root (fs w) -> sweep root w = Raised e w' ->
  exists n, swept_in (below_tops root (fs w)) (w, 0) (w', n).
Proof.
  intros Hl. rewrite sweep_eq. unfold bind.
  destruct (os_walk_sweep_below _ _ _ (nt_parts root) (fs w) (w, 0))
    as [Hb1 Hr1]; [apply Hl|apply Hl|apply shrinks_refl|].
  destruct (os_walk_sweep (nt_top root) (w, 0)) as [st1|e1 w1|] eqn:E1; try done.
  - intros E2. specialize (Hb1 _ eq_refl).
    pose proof (layout_swept _ root _ _ Hb1 Hl) as Hl1.
    destruct (os_walk_sweep_below _ _ _ (ex_parts root) (fs w) st1) as [_ Hr2];
      [apply Hl1|apply Hl1|exact (swept_in_shrinks _ _ _ Hb1)|].
    destruct (Hr2 _ _ E2) as [n Hn]. exists n.
    eapply swept_in_trans; (eapply swept_in_weaken; [|done]);
      intros c Hc; [left|right]; done.
  - intros [= <- <-]. destruct (Hr1 _ _ eq_refl) as [n Hn]. exists n.
    eapply swept_in_weaken; [|done]. intros c Hc. left. done.
Qed.

(** On a tree with nothing left to delete the two walks change nothing
    and count nothing. *)
Lemma sweep_noop root w :
  layout root (fs w) ->
  clean (fs w) (parts root ++ ["nautilus_trader"]) ->
  clean (fs w) (parts root ++ ["examples"]) ->
  sweep root w = Done (w, 0).
Proof.
  intros Hl H1 H2. rewrite sweep_eq.
  rewrite (os_walk_sweep_noop _ _ _ (nt_parts root)); [|apply Hl|apply Hl|done].
  simpl. apply (os_walk_sweep_noop _ _ _ (ex_parts root)); [apply Hl|apply Hl|done].
Qed.

End SweepPhase.

(** ** The program as a whole *)

Module Run.
Import Props.
Import FS FSFacts Loops Layout RmTree Sweep FilesPhase DirsPhase SweepPhase.

Lemma main_eq root files dirs fs0 :
  main root files dirs fs0
  = bind (for_each (remove_listed_file root) files (start root fs0))
      (fun w1 => bind (sweep root (after_dirs root dirs w1)) report).
Proof.
  unfold main. fold (start root fs0).
  destruct (for_each (remove_listed_file root) files (start root fs0)); try done.
  simpl. rewrite dirs_phase_Done. done.
Qed.

Lemma perm_In (l l' : list string) t : l ≡ₚ l' -> In t l' -> In t l.
Proof.
  intros Hp Hin. apply list_elem_of_In. rewrite Hp. apply list_elem_of_In. done.
Qed.

Lemma files_perm_single files : FILES_TO_CLEAN ≡ₚ files -> Forall single files.
Proof.
  intros Hp. apply Forall_forall. intros t Ht. apply files_single.
  apply list_elem_of_In. rewrite Hp. done.
Qed.

Lemma layout_start root fs0 : layout root fs0 -> layout root (fs (start root fs0)).
Proof. done. Qed.

(** The layout holds in the state the sweep starts from. *)
Lemma layout_after_dirs root files dirs fs0 w1 :
  layout root fs0 -> FILES_TO_CLEAN ≡ₚ files -> DIRS_TO_CLEAN ≡ₚ dirs ->
  for_each (remove_listed_file root) files (start root fs0) = Done w1 ->
  layout root (fs w1) /\ layout root (fs (after_dirs root dirs w1)).
Proof.
  intros Hl Hf Hd H1.
  destruct (files_phase_Done root files (start root fs0) w1
              (files_perm_single _ Hf) (layout_root _ _ Hl) H1) as [[l E] _].
  pose proof (layout_erased _ root _ _ _ E Hl) as Hl1. split; [done|].
  apply fold_layout; [done|]. intros a Ha. eapply perm_In; done.
Qed.

End Run.

(** ** The claims of the specification *)

Module Claims.
Import Props.
Import FS FSFacts Loops Layout RmTree Sweep FilesPhase DirsPhase SweepPhase Run.
Import Examples.

Lemma stat_absent_scandir n p :
  stat n p = Err ENOENT -> exists e, scandir n p = Err e.
Proof.
  unfold stat, scandir. destruct (realpath n p) as [c|e]; [|eauto].
  unfold lstat_at. destruct (find n c); [done|eauto].
Qed.

(** C8.  When the root of a swept subtree ([root/nautilus_trader/] or
    [root/examples/]) does not exist, the walk over it lists nothing: it
    ends normally in the state it started from, so nothing is deleted, no
    error is raised and the counter is unchanged. *)
Theorem C8_missing_subtree_is_skipped root top (st : world * nat) :
  In top [nt_top root; ex_top root] ->
  stat (fs (fst st)) (parts top) = Err ENOENT ->
  (exists e, scandir (fs (fst st)) (parts top) = Err e)
  /\ os_walk_sweep top st = Done st.
Proof.
  intros _ Hs. destruct (stat_absent_scandir _ _ Hs) as [e He].
  split; [eauto|]. eapply os_walk_sweep_err. done.
Qed.

Lemma C8_missing_subtree_is_skipped_witness :
  os_walk_sweep (nt_top root0) ({| fs := bare; stdout := [] |}, 0)
  = Done ({| fs := bare; stdout := [] |}, 0).
Proof.
  apply (C8_missing_subtree_is_skipped root0 (nt_top root0)
           ({| fs := bare; stdout := [] |}, 0)).
  - left. reflexivity.
  - vm_compute. reflexivity.
Defined.

(** C2, refuted: [foo.so], a link to the regular file [real.txt], is
    unlinked by the sweep ([os.path.isfile] follows links). *)
Lemma C2_link_to_file_is_unlinked : ~ links_survive root0 linked.
Proof.
  intros H.
  specialize (H ["proj"; "nautilus_trader"; "foo.so"]
                ["proj"; "nautilus_trader"; "real.txt"]
                ({| fs := Dir true
                            [("proj",
                              Dir true
                                [("nautilus_trader",
                                  Dir true [("real.txt", File "data")]);
                                 ("examples", Dir true [])])];
                    stdout := [] |}, 1)).
  assert (None = Some (S_IFLNK ["proj"; "nautilus_trader"; "real.txt"])) as E;
    [|discriminate E].
  apply H.
  - reflexivity.
  - left. split; [|split].
    + exists ["proj"; "nautilus_trader"], "foo.so". split; reflexivity.
    + exists ["foo.so"]. split; [discriminate|reflexivity].
    + vm_compute. reflexivity.
  - vm_compute. reflexivity.
Qed.

Lemma lstat_at_real_dir n d x m : lstat_at n (d ++ [x]) = Some m -> real_dir n d.
Proof.
  intros H q [r ->]. unfold lstat_at in *. rewrite <- app_assoc, find_app in H.
  destruct (find n q) as [[| |w es]|]; simpl in *; try done.
  - destruct r; done.
  - destruct r; done.
  - eauto.
Qed.

Lemma isfile_through_link n dc nm t d name content :
  real_dir n dc -> lstat_at n (dc ++ [nm]) = Some (S_IFLNK t) ->
  t = d ++ [name] -> lstat_at n t = Some (S_IFREG content) ->
  isfile n (dc ++ [nm]) = true.
Proof.
  intros Hdc Hl -> Ht. unfold isfile, stat.
  rewrite realpath_real_dir by done. unfold MAXSYMLINKS.
  rewrite resolve_cons, Hl, app_nil_r.
  rewrite (resolve_through_dirs 39 n [] d [name]).
  - change ([] ++ d) with d. rewrite resolve_cons, Ht, Ht. done.
  - intros r _ Hr. change ([] ++ r) with r.
    eapply (lstat_at_real_dir n d name); done.
Qed.

Lemma sweep_Done_layoutb root w st :
  layoutb root (fs w) = true -> sweep root w = Done st ->
  exists l,
    erased (below_tops root (fs w)) (fs w) l (fs (fst st))
    /\ snd st = length l
    /\ stdout (fst st) = stdout w
    /\ clean (fs (fst st)) (parts root ++ ["nautilus_trader"])
    /\ clean (fs (fst st)) (parts root ++ ["examples"]).
Proof.
  intros Hl%layoutb_layout Hs.
  destruct (sweep_Done root w st Hl Hs) as ((Ho & l & E & Hn) & C1 & C2).
  exists l. simpl in *. split; [done|]. repeat split; done.
Qed.

Lemma erased_keeps (P : path -> Prop) n l n' q m :
  erased P n l n' -> lstat_at n q = Some m -> ~ P q ->
  (q ∉ l) /\ lstat_at n' q = Some m.
Proof.
  intros (_ & A & Q & _) Hq HP.
  assert (q ∉ l) as Hn. { intros Hin. destruct (A q Hin) as [HPq _]. done. }
  split; [done|]. rewrite Q. destruct (decide (q ∈ l)); done.
Qed.

(** C2, as amended.  A link below a swept subtree whose path ends with
    a configured suffix is deleted, and counted, when it points to a
    regular file that is still there after the sweep; a regular file
    whose path has no such suffix, or which is not below the two
    subtrees, is still there with its contents.  A link that
    [os.path.isfile] does not accept when the sweep starts (it is
    dangling, or resolves to a directory) is never deleted, and no
    directory is, whether the sweep ends normally or with an error. *)
Theorem C2_links_follow_isfile root w :
  layoutb root (fs w) = true ->
  (forall st, sweep root w = Done st ->
     exists l,
       NoDup l /\ snd st = length l
       /\ (forall q, lstat_at (fs (fst st)) q
                     = if decide (q ∈ l) then None else lstat_at (fs w) q)
       /\ (forall c t top content,
             lstat_at (fs w) c = Some (S_IFLNK t) ->
             In top [nt_top root; ex_top root] ->
             strictly_below (parts top) c -> ext_name c ->
             lstat_at (fs (fst st)) t = Some (S_IFREG content) ->
             c ∈ l /\ lstat_at (fs (fst st)) c = None))
  /\ (forall t content,
        lstat_at (fs w) t = Some (S_IFREG content) ->
        ~ ext_name t
        \/ (~ strictly_below (parts (nt_top root)) t
            /\ ~ strictly_below (parts (ex_top root)) t) ->
        (forall st, sweep root w = Done st ->
           lstat_at (fs (fst st)) t = Some (S_IFREG content))
        /\ (forall e w', sweep root w = Raised e w' ->
              lstat_at (fs w') t = Some (S_IFREG content)))
  /\ (forall c t,
        lstat_at (fs w) c = Some (S_IFLNK t) -> isfile (fs w) c = false ->
        (forall st, sweep root w = Done st ->
           lstat_at (fs (fst st)) c = Some (S_IFLNK t))
        /\ (forall e w', sweep root w = Raised e w' ->
              lstat_at (fs w') c = Some (S_IFLNK t)))
  /\ (forall q wd,
        lstat_at (fs w) q = Some (S_IFDIR wd) ->
        (forall st, sweep root w = Done st ->
           lstat_at (fs (fst st)) q = Some (S_IFDIR wd))
        /\ (forall e w', sweep root w = Raised e w' ->
              lstat_at (fs w') q = Some (S_IFDIR wd))).
Proof.
  intros Hlb. pose proof (layoutb_layout _ _ Hlb) as Hl.
  assert (forall st, sweep root w = Done st ->
            exists l, erased (below_tops root (fs w)) (fs w) l (fs (fst st)))
    as HD.
  { intros st Hs.
    destruct (sweep_Done_layoutb root w st Hlb Hs) as (l & E & _). eauto. }
  assert (forall e w', sweep root w = Raised e w' ->
            exists l, erased (below_tops root (fs w)) (fs w) l (fs w'))
    as HR.
  { intros e w' Hs.
    destruct (sweep_Raised root w e w' Hl Hs) as (n & _ & l & E & _). eauto. }
  split; [|split; [|split]].
  - intros st Hs.
    destruct (sweep_Done_layoutb root w st Hlb Hs) as (l & E & Hn & _ & C1 & C2).
    pose proof E as (N & A & Q & _).
    exists l. split; [done|]. split; [done|]. split; [done|].
    intros c t top content Hc Htop (rel & Hrel & ->) (d' & nm & Hd' & Hend) Ht.
    assert (parts top ++ rel ∈ l) as Hin; [|split; [done|]].
    2:{ rewrite Q. destruct (decide (_ ∈ l)); done. }
    destruct (decide (parts top ++ rel ∈ l)) as [|Hnin]; [done|]. exfalso.
    assert (lstat_at (fs (fst st)) (parts top ++ rel) = Some (S_IFLNK t))
      as Hc'.
    { rewrite Q. destruct (decide (_ ∈ l)); done. }
    destruct t as [|name d _] using rev_ind.
    { apply (erased_shrinks _ _ _ _ E) in Ht.
      destruct (layout_root _ _ Hl []) as [wd Hwd]; [apply prefix_nil|].
      congruence. }
    destruct rel as [|nm' rel' _] using rev_ind; [done|].
    rewrite app_assoc in Hd'. apply app_inj_tail in Hd' as [<- <-].
    rewrite app_assoc in Hc'.
    pose proof (lstat_at_real_dir _ _ _ _ Hc') as Hreal.
    pose proof (isfile_through_link _ _ _ _ _ _ _ Hreal Hc' eq_refl Ht) as Hf.
    rewrite <- app_assoc in Hf.
    assert (clean (fs (fst st)) (parts top)) as Hclean.
    { simpl in Htop. destruct Htop as [<-|[<-|[]]]; done. }
    rewrite (Hclean rel' nm') in Hend; done.
  - intros t content Ht Hoff.
    assert (~ below_tops root (fs w) t) as Hnb.
    { rewrite nt_parts, ex_parts in Hoff.
      intros [(He & Hb & _)|(He & Hb & _)]; destruct Hoff as [H|[H1 H2]]; auto. }
    split.
    + intros st Hs. destruct (HD st Hs) as [l E].
      eapply erased_keeps; done.
    + intros e w' Hs. destruct (HR e w' Hs) as [l E].
      eapply erased_keeps; done.
  - intros c t Hc Hnf.
    assert (~ below_tops root (fs w) c) as Hnb.
    { intros [(_ & _ & Hf)|(_ & _ & Hf)]; congruence. }
    split.
    + intros st Hs. destruct (HD st Hs) as [l E].
      eapply erased_keeps; done.
    + intros e w' Hs. destruct (HR e w' Hs) as [l E].
      eapply erased_keeps; done.
  - intros q wd Hq. split.
    + intros st Hs. destruct (HD st Hs) as [l E].
      eapply erased_dir_kept; done.
    + intros e w' Hs. destruct (HR e w' Hs) as [l E].
      eapply erased_dir_kept; done.
Qed.

Lemma C2_links_follow_isfile_witness :
  let w := {| fs := links_mixed; stdout := [] |} in
  let foo := ["proj"; "nautilus_trader"; "foo.so"] in
  sweep root0 w = Done ({| fs := links_mixed_swept; stdout := [] |}, 1)
  /\ lstat_at links_mixed foo = Some (S_IFLNK ["opt"; "lib.so"])
  /\ (exists l, 1 = length l /\ foo ∈ l /\ lstat_at links_mixed_swept foo = None)
  /\ lstat_at links_mixed_swept ["opt"; "lib.so"] = Some (S_IFREG "elf")
  /\ lstat_at links_mixed_swept ["proj"; "nautilus_trader"; "gone.so"]
     = Some (S_IFLNK ["nowhere"])
  /\ lstat_at links_mixed_swept ["proj"; "nautilus_trader"; "dir.so"]
     = Some (S_IFLNK ["proj"; "examples"])
  /\ lstat_at links_mixed_swept ["proj"; "nautilus_trader"; "sub.pyc"]
     = Some (S_IFDIR true).
Proof.
  intros w foo.
  assert (sweep root0 w = Done ({| fs := links_mixed_swept; stdout := [] |}, 1))
    as E by (vm_compute; reflexivity).
  assert (layoutb root0 (fs w) = true) as Hl by (vm_compute; reflexivity).
  destruct (C2_links_follow_isfile root0 w Hl) as (HD & Hreg & Hlnk & Hdir).
  destruct (HD _ E) as (l & _ & Hn & _ & Hdel).
  assert (lstat_at (fs w) foo = Some (S_IFLNK ["opt"; "lib.so"])) as Hfoo
    by reflexivity.
  destruct (Hdel foo ["opt"; "lib.so"] (nt_top root0) "elf" Hfoo
              (or_introl eq_refl)) as [Hin Hgone].
  { exists ["foo.so"]. split; [discriminate|reflexivity]. }
  { exists ["proj"; "nautilus_trader"], "foo.so". split; reflexivity. }
  { reflexivity. }
  split; [exact E|]. split; [exact Hfoo|].
  split; [exists l; split; [exact Hn|split; [exact Hin|exact Hgone]]|].
  split.
  { destruct (Hreg ["opt"; "lib.so"] "elf" eq_refl) as [H _].
    - right. split; intros (rel & _ & Hrel); discriminate Hrel.
    - exact (H _ E). }
  split.
  { destruct (Hlnk ["proj"; "nautilus_trader"; "gone.so"] ["nowhere"]
                eq_refl eq_refl) as [H _].
    exact (H _ E). }
  split.
  { destruct (Hlnk ["proj"; "nautilus_trader"; "dir.so"] ["proj"; "examples"]
                eq_refl eq_refl) as [H _].
    exact (H _ E). }
  destruct (Hdir ["proj"; "nautilus_trader"; "sub.pyc"] true eq_refl) as [H _].
  exact (H _ E).
Defined.

(** C6, refuted: with [coverage.xml] a directory, [os.remove] raises
    [IsADirectoryError], which the file loop does not catch. *)
Lemma C6_directory_aborts_file_loop : ~ mismatch_harmless root0 coverage_dir.
Proof.
  intros H. destruct (H "coverage.xml" true) as [H1 _].
  - simpl. auto.
  - simpl. auto 10.
  - reflexivity.
  - vm_compute in H1. discriminate H1.
Qed.

(** C6, as amended.  For an entry of both allow-lists the two loops work
    on the same path.  The attempt of the directory loop on a path that is
    not a directory changes nothing.  The attempt of the file loop on a
    path that is a directory raises an error other than "not found",
    which is not caught: the run is aborted. *)
Theorem C6_mismatch_by_phase root files dirs fs0 t :
  layoutb root fs0 = true -> FILES_TO_CLEAN ≡ₚ files ->
  In t FILES_TO_CLEAN -> In t DIRS_TO_CLEAN ->
  ((forall wd, lstat_at fs0 (target root t) <> Some (S_IFDIR wd)) ->
   rm_target root fs0 t = fs0)
  /\ (forall wd, lstat_at fs0 (target root t) = Some (S_IFDIR wd) ->
      exists e w, e <> ENOENT /\ main root files dirs fs0 = Raised e w).
Proof.
  intros Hl%layoutb_layout Hf Ht Ht'. split.
  - intros Hnd. apply anchored_absent; [|done]. apply target_anchored; done.
  - intros wd Hd. rewrite (target_single _ _ (files_single _ Ht)) in Hd.
    destruct (files_phase_blocked root files (start root fs0) t)
      as (e & w & Hr).
    + apply files_perm_single. done.
    + apply Hl.
    + eapply perm_In; [symmetry|]; done.
    + exists (S_IFDIR wd). split; [done|]. left. done.
    + exists e, w. split; [eapply files_phase_Raised; done|].
      rewrite main_eq, Hr. done.
Qed.

Lemma C6_mismatch_by_phase_witness :
  lstat_at coverage_dir (target root0 "coverage.xml") = Some (S_IFDIR true)
  /\ exists e w,
       e <> ENOENT
       /\ main root0 FILES_TO_CLEAN DIRS_TO_CLEAN coverage_dir = Raised e w.
Proof.
  split; [reflexivity|].
  eapply (C6_mismatch_by_phase root0 FILES_TO_CLEAN DIRS_TO_CLEAN coverage_dir
            "coverage.xml").
  - vm_compute. reflexivity.
  - reflexivity.
  - simpl. auto.
  - simpl. auto 10.
  - reflexivity.
Defined.

(** C4.  In the file loop, for every name of the file allow-list: when
    the loop ends normally the entry [root/name] is no longer there; an
    entry that is absent is skipped without error and without change; a
    failure of the deletion other than absence is not caught, so the loop
    and with it the run end with that error, and this happens whenever a
    listed entry is a directory or the root is not writable, and only
    then. *)
Theorem C4_file_loop root files dirs fs0 :
  layoutb root fs0 = true -> FILES_TO_CLEAN ≡ₚ files ->
  let w0 := start root fs0 in
  let r := for_each (remove_listed_file root) files w0 in
  (forall w1, r = Done w1 ->
     forall t, In t FILES_TO_CLEAN -> lstat_at (fs w1) (target root t) = None)
  /\ (forall t w, In t FILES_TO_CLEAN -> real_dir (fs w) (parts root) ->
       lstat_at (fs w) (target root t) = None ->
       remove_listed_file root t w = Done w)
  /\ ((forall t, In t FILES_TO_CLEAN -> lstat_at fs0 (target root t) = None) ->
      r = Done w0)
  /\ (forall e w, r = Raised e w ->
       e <> ENOENT /\ main root files dirs fs0 = Raised e w)
  /\ (forall t, In t FILES_TO_CLEAN -> blocked root fs0 t ->
       exists e w, r = Raised e w)
  /\ ((forall t, In t FILES_TO_CLEAN -> ~ blocked root fs0 t) ->
      exists w1, r = Done w1).
Proof.
  intros Hl%layoutb_layout Hf w0 r.
  pose proof (files_perm_single _ Hf) as Hs.
  pose proof (layout_root _ _ Hl) as Hreal.
  split; [|split; [|split; [|split; [|split]]]].
  - intros w1 Hr t Ht. rewrite (target_single _ _ (files_single _ Ht)).
    eapply (files_phase_Done root files w0 w1); try done.
    eapply perm_In; [symmetry|]; done.
  - intros t w Ht Hw Habs. pose proof (files_single _ Ht) as Hst.
    rewrite (target_single _ _ Hst) in Habs.
    unfold remove_listed_file. fold (target root t).
    rewrite (target_single _ _ Hst), unlink_real_dir, Habs by done. done.
  - intros Habs. apply files_phase_absent; try done.
    intros t Ht. pose proof (perm_In _ _ _ Hf Ht) as Ht'.
    rewrite <- (target_single _ _ (files_single _ Ht')). apply Habs. done.
  - intros e w Hr. split; [eapply files_phase_Raised; done|].
    rewrite main_eq. fold w0. fold r. rewrite Hr. done.
  - intros t Ht Hb. eapply (files_phase_blocked root files w0 t); try done.
    eapply perm_In; [symmetry|]; done.
  - intros Hnb. destruct r as [w1|e w|] eqn:Er; [eauto| |].
    + exfalso.
      destruct (files_phase_Raised_blocked root files w0 e w Hs Hreal Er)
        as (t & Ht & Hb).
      eapply Hnb; [|exact Hb]. eapply perm_In; done.
    + exfalso. eapply files_phase_fuel. exact Er.
Qed.

Lemma C4_file_loop_witness :
  lstat_at scenario (target root0 ".coverage") = Some (S_IFREG "cov")
  /\ exists w1,
       for_each (remove_listed_file root0) FILES_TO_CLEAN (start root0 scenario)
       = Done w1
       /\ lstat_at (fs w1) (target root0 ".coverage") = None.
Proof.
  split; [reflexivity|]. eexists. split; [vm_compute; reflexivity|].
  eapply (C4_file_loop root0 FILES_TO_CLEAN DIRS_TO_CLEAN scenario).
  - vm_compute. reflexivity.
  - reflexivity.
  - vm_compute. reflexivity.
  - simpl. auto.
Defined.

Lemma lstat_at_None_below n p r : lstat_at n p = None -> lstat_at n (p ++ r) = None.
Proof.
  unfold lstat_at. rewrite find_app. destruct (find n p); done.
Qed.

Lemma main_Raised root files dirs fs0 e w :
  main root files dirs fs0 = Raised e w ->
  for_each (remove_listed_file root) files (start root fs0) = Raised e w
  \/ exists w1,
       for_each (remove_listed_file root) files (start root fs0) = Done w1
       /\ sweep root (after_dirs root dirs w1) = Raised e w.
Proof.
  rewrite main_eq. unfold bind.
  destruct (for_each _ files _) as [w1|e1 w1|]; [|auto|done].
  destruct (sweep root (after_dirs root dirs w1)) as [st|e2 w2|] eqn:E; try done.
  intros [= <- <-]. right. eauto.
Qed.

(** C5.  The directory loop always ends normally, whatever the tree: no
    error of [rmtree] (a directory that is not there, a path that is not a
    directory, a missing permission) reaches the script, so an abort of
    the run never comes from this loop.  A listed directory in which every
    directory is writable, and whose parent is writable, is gone with
    everything beneath it; a listed path that is not a directory is left
    as it is. *)
Theorem C5_dir_loop_never_aborts root dirs w :
  for_each (remove_listed_dir root) dirs w = Done (after_dirs root dirs w)
  /\ (forall files fs0 e wf,
        main root files dirs fs0 = Raised e wf ->
        for_each (remove_listed_file root) files (start root fs0) = Raised e wf
        \/ exists w1,
             for_each (remove_listed_file root) files (start root fs0) = Done w1
             /\ sweep root (after_dirs root dirs w1) = Raised e wf)
  /\ (layoutb root (fs w) = true -> DIRS_TO_CLEAN ≡ₚ dirs ->
      forall t, In t DIRS_TO_CLEAN ->
        (forall d name wd es,
           target root t = d ++ [name] ->
           find (fs w) (target root t) = Some (Dir wd es) ->
           deletable (Dir wd es) = true ->
           lstat_at (fs w) d = Some (S_IFDIR true) ->
           forall r,
             lstat_at (fs (after_dirs root dirs w)) (target root t ++ r) = None)
        /\ ((forall wd, lstat_at (fs w) (target root t) <> Some (S_IFDIR wd)) ->
            lstat_at (fs (after_dirs root dirs w)) (target root t)
            = lstat_at (fs w) (target root t))).
Proof.
  split; [apply dirs_phase_Done|]. split; [intros; apply main_Raised; done|].
  intros Hl%layoutb_layout Hp t Ht.
  assert (forall a, In a dirs -> In a DIRS_TO_CLEAN) as Hd.
  { intros a Ha. eapply perm_In; done. }
  split.
  - intros d name wd es Htd Hf Hdel Hw r. apply lstat_at_None_below. simpl.
    eapply dirs_phase_gone; try done. eapply perm_In; [symmetry|]; done.
  - intros Hnd. simpl. apply dirs_phase_nondir; try done.
    intros t' Ht'. destruct (decide (t' = t)) as [->|Hne]; [left; done|].
    right. apply diverge_not_prefix, targets_diverge; auto.
Qed.

Lemma C5_dir_loop_never_aborts_witness :
  lstat_at scenario (target root0 "build") = Some (S_IFDIR true)
  /\ lstat_at (fs (after_dirs root0 DIRS_TO_CLEAN
                     {| fs := scenario; stdout := [] |}))
       (target root0 "build" ++ ["lib"; "a.o"]) = None.
Proof.
  split; [vm_compute; reflexivity|].
  destruct (C5_dir_loop_never_aborts root0 DIRS_TO_CLEAN
              {| fs := scenario; stdout := [] |}) as (_ & _ & H).
  assert (layoutb root0 scenario = true) as H1 by (vm_compute; reflexivity).
  assert (In "build" DIRS_TO_CLEAN) as H2 by (simpl; auto 10).
  destruct (H H1 (Permutation_refl _) "build" H2) as [Hgone _].
  apply (Hgone ["proj"] "build" true [("lib", Dir true [("a.o", File "obj")])]);
    vm_compute; reflexivity.
Defined.

(** C9.  The directory loop works on the one path [root/name] of each
    listed name: a path that is neither such a path nor below one reports
    after the loop what it reported before.  In particular a directory
    that bears a listed name but lies deeper, in a directory of the root
    that is not itself listed, is not removed. *)
Theorem C9_dir_loop_touches_listed_paths_only root dirs w :
  layoutb root (fs w) = true -> DIRS_TO_CLEAN ≡ₚ dirs ->
  for_each (remove_listed_dir root) dirs w = Done (after_dirs root dirs w)
  /\ (forall q,
        (forall t, In t DIRS_TO_CLEAN -> ~ target root t `prefix_of` q) ->
        lstat_at (fs (after_dirs root dirs w)) q = lstat_at (fs w) q)
  /\ (forall x name rest,
        ~ In x DIRS_TO_CLEAN -> x <> "docs" ->
        lstat_at (fs (after_dirs root dirs w)) (parts root ++ x :: name :: rest)
        = lstat_at (fs w) (parts root ++ x :: name :: rest)).
Proof.
  intros Hl%layoutb_layout Hp.
  assert (forall a, In a dirs -> In a DIRS_TO_CLEAN) as Hd.
  { intros a Ha. eapply perm_In; done. }
  assert (forall q,
            (forall t, In t DIRS_TO_CLEAN -> ~ target root t `prefix_of` q) ->
            lstat_at (fs (after_dirs root dirs w)) q = lstat_at (fs w) q) as Hframe.
  { intros q Hq. simpl. apply dirs_phase_frame; auto. }
  split; [apply dirs_phase_Done|]. split; [done|].
  intros x name rest Hx Hdocs. apply Hframe. intros t Ht.
  destruct (dirs_cases t Ht) as [(Hc & _)| ->].
  - rewrite target_single by done. apply not_prefix_app.
    intros [r Hr]. injection Hr as -> _. done.
  - rewrite target_docs_build. apply not_prefix_app.
    intros [r Hr]. injection Hr as -> _. done.
Qed.

Lemma C9_dir_loop_touches_listed_paths_only_witness :
  let w := {| fs := nested; stdout := [] |} in
  lstat_at (fs (after_dirs root0 DIRS_TO_CLEAN w)) ["proj"; "__pycache__"] = None
  /\ lstat_at (fs (after_dirs root0 DIRS_TO_CLEAN w))
       ["proj"; "pkg"; "__pycache__"; "n.pyc"]
     = Some (S_IFREG "").
Proof.
  split; [reflexivity|].
  change (Some (S_IFREG ""))
    with (lstat_at nested (parts root0 ++ "pkg" :: "__pycache__" :: ["n.pyc"])).
  eapply (C9_dir_loop_touches_listed_paths_only root0 DIRS_TO_CLEAN
            {| fs := nested; stdout := [] |}).
  - vm_compute. reflexivity.
  - reflexivity.
  - simpl. intros H. repeat (destruct H as [H|H]; [discriminate H|]). done.
  - discriminate.
Defined.

Lemma os_walk_sweep_swept top st :
  (forall st', os_walk_sweep top st = Done st' -> swept st st')
  /\ (forall e w, os_walk_sweep top st = Raised e w -> exists n, swept st (w, n)).
Proof. apply walk_sweep_swept. Qed.

Lemma sweep_swept root w :
  (forall st, sweep root w = Done st -> swept (w, 0) st)
  /\ (forall e w', sweep root w = Raised e w' -> exists n, swept (w, 0) (w', n)).
Proof.
  rewrite sweep_eq. unfold bind.
  destruct (os_walk_sweep_swept (nt_top root) (w, 0)) as [H1 R1].
  destruct (os_walk_sweep (nt_top root) (w, 0)) as [st1|e1 w1|].
  - destruct (os_walk_sweep_swept (ex_top root) st1) as [H2 R2]. split.
    + intros st Hs. eapply swept_trans; auto.
    + intros e w' Hs. destruct (R2 _ _ Hs) as [n Hn]. exists n.
      eapply swept_trans; auto.
  - split; [done|]. intros e w' [= <- <-]. eapply R1. done.
  - split; done.
Qed.

(** C7.  A file whose name does not end with any configured suffix is
    left untouched by the sweep: it is there afterwards with the contents
    it had, whether the sweep ends normally or by an error, and it is not
    among the entries the count stands for. *)
Theorem C7_other_files_untouched root w q content :
  lstat_at (fs w) q = Some (S_IFREG content) -> ~ ext_name q ->
  (forall st, sweep root w = Done st ->
     lstat_at (fs (fst st)) q = Some (S_IFREG content)
     /\ exists l, erased ext_name (fs w) l (fs (fst st))
                  /\ snd st = length l /\ q ∉ l)
  /\ (forall e w', sweep root w = Raised e w' ->
       lstat_at (fs w') q = Some (S_IFREG content))
  /\ (layoutb root (fs w) = true -> sweep root w <> OutOfFuel).
Proof.
  intros Hq Hn. destruct (sweep_swept root w) as [HD HR]. split; [|split].
  - intros st Hs. destruct (HD st Hs) as (_ & l & E & Hc). simpl in *.
    destruct (erased_keeps _ _ _ _ _ _ E Hq Hn) as [H1 H2].
    split; [done|]. exists l. done.
  - intros e w' Hs. destruct (HR e w' Hs) as (n & _ & l & E & _). simpl in *.
    eapply erased_keeps; done.
  - intros Hl%layoutb_layout. apply sweep_fuel. done.
Qed.

Lemma C7_other_files_untouched_witness :
  sweep root0 {| fs := scenario; stdout := [] |}
  = Done ({| fs := scenario_swept; stdout := [] |}, 3)
  /\ lstat_at (fs (fst ({| fs := scenario_swept; stdout := [] |}, 3)))
       ["proj"; "nautilus_trader"; "keep.py"] = Some (S_IFREG "src").
Proof.
  assert (sweep root0 {| fs := scenario; stdout := [] |}
          = Done ({| fs := scenario_swept; stdout := [] |}, 3)) as E
    by (vm_compute; reflexivity).
  split; [exact E|].
  destruct (C7_other_files_untouched root0 {| fs := scenario; stdout := [] |}
              ["proj"; "nautilus_trader"; "keep.py"] "src") as [HD _].
  - vm_compute. reflexivity.
  - intros (d & nm & Hd & He).
    change ["proj"; "nautilus_trader"; "keep.py"]
      with (["proj"; "nautilus_trader"] ++ ["keep.py"]) in Hd.
    apply app_inj_tail in Hd as [_ <-]. vm_compute in He. discriminate He.
  - destruct (HD _ E) as [Hk _]. exact Hk.
Defined.

Lemma sweep_file_Raised_origin top name (st : world * nat) e w :
  sweep_file top name st = Raised e w ->
  isfile (fs w) (parts (join top name)) = true
  /\ unlink (fs w) (parts (join top name)) = Err e.
Proof.
  unfold sweep_file. destruct (isfile _ _) eqn:Hf; [|done].
  destruct (PyStr.endswith _ _); [|done]. cbn [andb].
  destruct (unlink _ _) eqn:Hu; [done|]. intros [= <- <-]. done.
Qed.

Lemma walk_sweep_Raised_origin f : forall top st e w,
  walk_sweep f top st = Raised e w ->
  exists p, isfile (fs w) p = true /\ unlink (fs w) p = Err e.
Proof.
  induction f as [|f IH]; intros top st e w; [done|]. rewrite walk_sweep_S.
  destruct (scandir _ _) as [names|]; [|done]. unfold bind.
  destruct (for_each (sweep_file top) _ st) as [st1|e1 w1|] eqn:E1; [| |done].
  - intros H.
    apply (for_each_Raised _ (fun _ _ => True)) in H; [|done|done|done].
    destruct H as (a & s1 & _ & _ & Hb). unfold descend in Hb.
    destruct (islink _ _); [done|]. eapply IH. done.
  - intros [= <- <-].
    apply (for_each_Raised _ (fun _ _ => True)) in E1; [|done|done|done].
    destruct E1 as (a & s1 & _ & _ & Hb).
    apply sweep_file_Raised_origin in Hb. eauto.
Qed.

Lemma sweep_Raised_origin root w e w' :
  sweep root w = Raised e w' ->
  exists p, isfile (fs w') p = true /\ unlink (fs w') p = Err e.
Proof.
  rewrite sweep_eq. unfold bind.
  destruct (os_walk_sweep (nt_top root) (w, 0)) as [st1|e1 w1|] eqn:E1; [| |done].
  - apply walk_sweep_Raised_origin.
  - intros [= <- <-]. eapply walk_sweep_Raised_origin. done.
Qed.

Lemma files_phase_not_counted root files w w1 :
  for_each (remove_listed_file root) files w = Done w1 ->
  existsb counted (stdout w) = false -> existsb counted (stdout w1) = false.
Proof.
  apply (for_each_Done _ (fun w w1 : world =>
           existsb counted (stdout w) = false ->
           existsb counted (stdout w1) = false)); [done|auto|].
  intros a s1 s2 _. unfold remove_listed_file.
  destruct (unlink _ _) as [n'|[]]; try done.
  - intros [= <-] H. simpl. rewrite existsb_app, H. done.
  - intros [= <-]. done.
Qed.

(** *** A deletion that fails *)

(** When a path resolves to a regular file, the path without its last
    component resolves too, and the last component names an entry that
    is not a directory. *)
Lemma resolve_last fuel : forall n cur ini name c content,
  resolve fuel n cur (ini ++ [name]) = Ok c ->
  lstat_at n c = Some (S_IFREG content) ->
  exists d m,
    resolve fuel n cur ini = Ok d
    /\ lstat_at n (d ++ [name]) = Some m /\ is_dir_mode m = false.
Proof.
  induction fuel as [|f IHf]; intros n cur ini; revert cur;
    induction ini as [|c0 ini IHi]; intros cur name c content; cbn [app];
    rewrite !resolve_cons, ?resolve_nil;
    destruct (lstat_at n (cur ++ _)) as [[ct|t|w]|] eqn:E; try done.
  - intros _ _. exists cur, (S_IFREG ct). done.
  - intros [= <-] H. congruence.
  - destruct (ini ++ [name]) eqn:El; [destruct ini; done|done].
  - apply IHi.
  - intros _ _. exists cur, (S_IFREG ct). done.
  - intros _ _. exists cur, (S_IFLNK t). done.
  - intros [= <-] H. congruence.
  - destruct (ini ++ [name]) eqn:El; [destruct ini; done|done].
  - rewrite app_assoc. apply IHf.
  - apply IHi.
Qed.

(** [os.remove] on an entry that [os.path.isfile] accepts can fail in
    one way only. *)
Lemma unlink_after_isfile n d name e :
  isfile n (d ++ [name]) = true -> unlink n (d ++ [name]) = Err e ->
  e = EACCES.
Proof.
  unfold isfile, stat, realpath. intros H.
  destruct (resolve MAXSYMLINKS n [] (d ++ [name])) as [c|] eqn:Er; [|done].
  destruct (lstat_at n c) as [[content| |]|] eqn:Ec; try done.
  destruct (resolve_last _ _ _ _ _ _ _ Er Ec) as (d' & m & Hd & Hm & Hnd).
  destruct (lstat_at_snoc_Some _ _ _ _ Hm) as [wd Hwd].
  unfold unlink, resolve_parent. rewrite split_last_snoc. unfold realpath.
  rewrite Hd, Hwd, Hm. cbn beta iota. rewrite Hwd.
  destruct wd; [|congruence].
  destruct m; try done; congruence.
Qed.

Lemma walk_sweep_errno f : forall top st e w,
  walk_sweep f top st = Raised e w -> e = EACCES.
Proof.
  induction f as [|f IH]; intros top st e w; [done|]. rewrite walk_sweep_S.
  destruct (scandir _ _) as [names|]; [|done]. unfold bind.
  destruct (for_each (sweep_file top) _ st) as [st1|e1 w1|] eqn:E1; [| |done].
  - intros H.
    apply (for_each_Raised _ (fun _ _ => True)) in H; [|done|done|done].
    destruct H as (a & s1 & _ & _ & Hb). unfold descend in Hb.
    destruct (islink _ _); [done|]. eapply IH. done.
  - intros [= <- <-].
    apply (for_each_Raised _ (fun _ _ => True)) in E1; [|done|done|done].
    destruct E1 as (a & s1 & _ & _ & Hb).
    apply sweep_file_Raised_origin in Hb as [Hf Hu].
    exact (unlink_after_isfile _ (parts top) a _ Hf Hu).
Qed.

Lemma sweep_errno root w e w' : sweep root w = Raised e w' -> e = EACCES.
Proof.
  rewrite sweep_eq. unfold bind.
  destruct (os_walk_sweep (nt_top root) (w, 0)) as [st1|e1 w1|] eqn:E1; [| |done].
  - apply walk_sweep_errno.
  - intros [= <- <-]. eapply walk_sweep_errno. done.
Qed.

Lemma swept_gone a b q :
  swept a b -> lstat_at (fs (fst a)) q = None -> lstat_at (fs (fst b)) q = None.
Proof.
  intros Hs%swept_shrinks Ha.
  destruct (lstat_at (fs (fst b)) q) as [m|] eqn:Eb; [|done].
  apply Hs in Eb. congruence.
Qed.

Lemma locked_kept_refl st : locked_kept st st.
Proof. split; [apply swept_refl|auto]. Qed.

Lemma locked_kept_trans a b c :
  locked_kept a b -> locked_kept b c -> locked_kept a c.
Proof.
  intros [S1 K1] [S2 K2]. split; [eapply swept_trans; done|].
  intros d x m Hd Hx. apply K2; [|auto].
  exact (swept_in_dir_kept _ _ _ _ _ S1 Hd).
Qed.

(** [os.remove] takes nothing out of a directory that is not writable. *)
Lemma sweep_file_locked top name st st' :
  sweep_file top name st = Done st' -> locked_kept st st'.
Proof.
  intros H. split; [eapply sweep_file_Done; done|].
  revert H. unfold sweep_file.
  destruct (isfile _ _ && _); [|intros [= <-]; auto].
  destruct (unlink (fs (fst st)) (parts (join top name))) as [fs'|] eqn:Hu;
    [|done].
  intros [= <-]. cbn [fst set_fs fs]. intros d x m Hd Hx.
  apply unlink_Ok in Hu as (d0 & nm & m0 & _ & Hw & _ & _ & Q & _).
  rewrite Q. destruct (decide (_ = _)) as [E|]; [|done].
  apply app_inj_tail in E as [-> _]. congruence.
Qed.

Lemma sweep_files_locked top names st :
  (forall st', for_each (sweep_file top) names st = Done st' ->
               locked_kept st st')
  /\ (forall e w, for_each (sweep_file top) names st = Raised e w ->
                  exists n, locked_kept st (w, n)).
Proof.
  split.
  - intros st'.
    apply (for_each_Done _ locked_kept locked_kept_refl locked_kept_trans).
    intros a s1 s2 _. apply sweep_file_locked.
  - intros e w H.
    apply (for_each_Raised _ locked_kept locked_kept_refl locked_kept_trans)
      in H.
    + destruct H as (a & s1 & _ & Hs & Hr). apply sweep_file_Raised in Hr.
      exists (snd s1). subst w. destruct s1. done.
    + intros a s1 s2 _. apply sweep_file_locked.
Qed.

Lemma walk_sweep_locked fuel : forall top st,
  (forall st', walk_sweep fuel top st = Done st' -> locked_kept st st')
  /\ (forall e w, walk_sweep fuel top st = Raised e w ->
                  exists n, locked_kept st (w, n)).
Proof.
  induction fuel as [|f IH]; intros top st; [done|]. rewrite walk_sweep_S.
  destruct (FS.scandir _ _) as [names|]; [|split; [|done]].
  2:{ intros st' [= <-]. apply locked_kept_refl. }
  assert (forall a s1 s2, In a (dirs_of (fs (fst st)) top names) ->
            descend f top a s1 = Done s2 -> locked_kept s1 s2) as Hbody.
  { intros a s1 s2 _. unfold descend. destruct (FS.islink _ _).
    - intros [= <-]. apply locked_kept_refl.
    - apply IH. }
  unfold bind. destruct (for_each (sweep_file top) _ st) as [st1|e1 w1|] eqn:E1.
  - apply sweep_files_locked in E1. split.
    + intros st' H. eapply locked_kept_trans; [done|].
      eapply (for_each_Done _ locked_kept locked_kept_refl locked_kept_trans);
        [apply Hbody|done].
    + intros e w H.
      apply (for_each_Raised _ locked_kept locked_kept_refl locked_kept_trans)
        in H; [|apply Hbody].
      destruct H as (a & s1 & _ & Hs & Hr). unfold descend in Hr.
      destruct (FS.islink _ _); [done|].
      apply IH in Hr as [n Hn]. exists n.
      eapply locked_kept_trans; [done|]. eapply locked_kept_trans; done.
  - split; [done|]. intros e w [= <- <-].
    eapply sweep_files_locked. done.
  - done.
Qed.

Lemma sweep_locked root w :
  (forall st, sweep root w = Done st -> locked_kept (w, 0) st)
  /\ (forall e w', sweep root w = Raised e w' ->
                   exists n, locked_kept (w, 0) (w', n)).
Proof.
  rewrite sweep_eq. unfold bind, os_walk_sweep.
  destruct (walk_sweep_locked (S (height (fs (fst (w, 0))))) (nt_top root)
              (w, 0)) as [H1 R1].
  destruct (walk_sweep _ (nt_top root) (w, 0)) as [st1|e1 w1|].
  - destruct (walk_sweep_locked (S (height (fs (fst st1)))) (ex_top root) st1)
      as [H2 R2].
    split.
    + intros st Hs. eapply locked_kept_trans; auto.
    + intros e w' Hs. destruct (R2 _ _ Hs) as [n Hn]. exists n.
      eapply locked_kept_trans; auto.
  - split; [done|]. intros e w' [= <- <-]. eapply R1. done.
  - split; done.
Qed.

(** A regular file with a configured suffix in a directory below a
    swept subtree that is not writable makes the sweep fail. *)
Lemma sweep_locked_file_raises root w top rel name content :
  layout root (fs w) ->
  In top [nt_top root; ex_top root] ->
  lstat_at (fs w) (parts top ++ rel) = Some (S_IFDIR false) ->
  lstat_at (fs w) (parts top ++ rel ++ [name]) = Some (S_IFREG content) ->
  PyStr.endswith name EXTENSIONS_TO_CLEAN = true ->
  exists w', sweep root w = Raised EACCES w'
             /\ lstat_at (fs w') (parts top ++ rel ++ [name])
                = Some (S_IFREG content).
Proof.
  intros Hl Htop Hd Hn He. rewrite app_assoc in Hn |- *.
  destruct (sweep root w) as [st|e w'|] eqn:E.
  - exfalso. destruct (sweep_locked root w) as [HD _].
    destruct (HD _ E) as [Hs K]. pose proof (K _ _ _ Hd Hn) as Hn'.
    pose proof (lstat_at_real_dir _ _ _ _ Hn') as Hreal.
    pose proof (isfile_regular _ _ _ _ Hreal Hn') as Hf.
    destruct (sweep_Done _ _ _ Hl E) as (_ & C1 & C2).
    assert (clean (fs (fst st)) (parts top)) as Hc.
    { rewrite <- nt_parts in C1. rewrite <- ex_parts in C2.
      destruct Htop as [<-|[<-|[]]]; done. }
    rewrite <- app_assoc in Hf. rewrite (Hc rel name) in He; done.
  - pose proof (sweep_errno _ _ _ _ E) as ->. exists w'. split; [done|].
    destruct (sweep_locked root w) as [_ HR].
    destruct (HR _ _ E) as (n & _ & K). apply (K _ _ _ Hd Hn).
  - exfalso. eapply sweep_fuel; done.
Qed.

(** In a directory that is writable the loop body does not fail. *)
Lemma sweep_file_writable_top top name st e w :
  real_dir (fs (fst st)) (parts top) ->
  lstat_at (fs (fst st)) (parts top) = Some (S_IFDIR true) ->
  sweep_file top name st <> Raised e w.
Proof.
  intros Hr Hw Hb. pose proof (sweep_file_Raised _ _ _ _ _ Hb) as ->.
  apply sweep_file_Raised_origin in Hb as [Hf Hu]. cbn [join parts] in Hf, Hu.
  pose proof (unlink_after_isfile _ _ _ _ Hf Hu) as ->.
  rewrite (unlink_real_dir _ _ _ Hr), Hw in Hu.
  destruct (lstat_at (fs (fst st)) (parts top ++ [name])) as [[| |]|]; done.
Qed.

(** The files of a directory are handled before the walk goes down:
    once the walk of a writable directory has left its files, by going
    down or by an error further on, those with a configured suffix are
    gone. *)
Lemma top_file_swept f top x cx st :
  real_dir (fs (fst st)) (parts top) ->
  lstat_at (fs (fst st)) (parts top) = Some (S_IFDIR true) ->
  lstat_at (fs (fst st)) (parts top ++ [x]) = Some (S_IFREG cx) ->
  PyStr.endswith x EXTENSIONS_TO_CLEAN = true ->
  (forall st', walk_sweep (S f) top st = Done st' ->
     lstat_at (fs (fst st')) (parts top ++ [x]) = None)
  /\ (forall e w', walk_sweep (S f) top st = Raised e w' ->
        lstat_at (fs w') (parts top ++ [x]) = None).
Proof.
  intros Hr Hw Hx He. rewrite walk_sweep_S.
  destruct (scandir_dir _ _ _ Hr Hw) as (es & Hfind & ->).
  assert (In x (nondirs_of (fs (fst st)) top (map fst es))) as Hin.
  { apply in_nondirs_of. split; [apply (listed_iff _ _ _ _ _ Hfind); eauto|].
    unfold entry_is_dir. apply isfile_not_isdir. eapply isfile_regular; done. }
  unfold bind.
  destruct (for_each (sweep_file top) _ st) as [sa|e1 w1|] eqn:Ea.
  - assert (lstat_at (fs (fst sa)) (parts top ++ [x]) = None) as Hsa.
    { destruct (for_each_Done_elem _ swept swept_refl swept_trans _ _ _ x
                  (sweep_file_Done_swept top _) Ea Hin)
        as (s1 & s2 & Hs1 & Hb & Hs2).
      apply (swept_gone s2 sa _ Hs2).
      destruct (lstat_at (fs (fst s1)) (parts top ++ [x])) as [m|] eqn:E1;
        [|apply (swept_gone s1 s2 _); [eapply sweep_file_Done; done|done]].
      pose proof (swept_shrinks _ _ Hs1 _ _ E1) as E0.
      rewrite Hx in E0. injection E0 as <-.
      pose proof (swept_in_real_dir _ _ _ _ Hs1 Hr) as Hr1.
      assert (isfile (fs (fst s1)) (parts (join top x)) = true) as Hf
        by (cbn [join parts]; eapply isfile_regular; done).
      pose proof (endswith_join_name top x) as He1. rewrite He in He1.
      unfold sweep_file in Hb. rewrite Hf, He1 in Hb. cbn [andb] in Hb.
      destruct (unlink (fs (fst s1)) (parts (join top x))) as [fs'|] eqn:Hu;
        [|done].
      injection Hb as <-. cbn [fst set_fs fs].
      apply unlink_Ok in Hu as (d0 & nm & m0 & Hp & _ & _ & _ & Q & _).
      cbn [join parts] in Hp.
      rewrite (resolve_parent_real_dir _ _ _ Hr1) in Hp. injection Hp as <- <-.
      rewrite Q. destruct (decide _); done. }
    split.
    + intros st' H. eapply swept_gone; [|exact Hsa].
      eapply (for_each_Done _ swept swept_refl swept_trans); [|exact H].
      apply descend_Done_swept.
    + intros e w' H.
      apply (for_each_Raised _ swept swept_refl swept_trans) in H;
        [|apply descend_Done_swept].
      destruct H as (a & s1 & _ & Hs & Hb). unfold descend in Hb.
      destruct (islink _ _); [done|].
      destruct (walk_sweep_swept f (join top a) s1) as [_ HR].
      destruct (HR _ _ Hb) as [n Hn].
      apply (swept_gone s1 (w', n) _ Hn). apply (swept_gone sa s1 _ Hs). done.
  - split; [done|]. intros e w' [= <- <-].
    apply (for_each_Raised _ swept swept_refl swept_trans) in Ea;
      [|apply sweep_file_Done_swept].
    destruct Ea as (a & s1 & _ & Hs & Hb). exfalso.
    eapply sweep_file_writable_top; [| |exact Hb].
    + eapply swept_in_real_dir; done.
    + exact (swept_in_dir_kept _ _ _ _ _ Hs Hw).
  - split; done.
Qed.

Lemma sweep_Raised_top_file_gone root w x cx e w' :
  real_dir (fs w) (parts root) ->
  lstat_at (fs w) (parts (nt_top root)) = Some (S_IFDIR true) ->
  lstat_at (fs w) (parts (nt_top root) ++ [x]) = Some (S_IFREG cx) ->
  PyStr.endswith x EXTENSIONS_TO_CLEAN = true ->
  sweep root w = Raised e w' ->
  lstat_at (fs w') (parts (nt_top root) ++ [x]) = None.
Proof.
  intros Hr Hw Hx He.
  assert (real_dir (fs w) (parts (nt_top root))) as Hrn.
  { rewrite nt_parts in Hw |- *. eapply real_dir_snoc; done. }
  destruct (top_file_swept (height (fs w)) (nt_top root) x cx (w, 0)
              Hrn Hw Hx He) as [HD HR].
  rewrite sweep_eq. unfold bind.
  change (os_walk_sweep (nt_top root) (w, 0))
    with (walk_sweep (S (height (fs w))) (nt_top root) (w, 0)).
  destruct (walk_sweep (S (height (fs w))) (nt_top root) (w, 0))
    as [st1|e1 w1|]; [| |done].
  - intros E2. destruct (os_walk_sweep_swept (ex_top root) st1) as [_ R2].
    destruct (R2 _ _ E2) as [n Hn].
    apply (swept_gone st1 (w', n) _ Hn). apply HD. done.
  - intros [= <- <-]. eapply HR. done.
Qed.

(** C10.  The sweep is neither guarded nor atomic.  An error of the
    sweep is the error of the run: the run ends with it, in the state
    the failure found, and the line with the count is not printed.  A
    deletion that fails makes the sweep fail: a regular file with a
    configured suffix in a directory below a swept subtree that is not
    writable is still there and the run ends with [PermissionError].
    What was deleted before the failure stays deleted: the files with a
    configured suffix directly in a writable [nautilus_trader], handled
    before any other directory, are gone in the state the run ends
    in. *)
Theorem C10_sweep_failure_aborts root files dirs fs0 w1 :
  for_each (remove_listed_file root) files (start root fs0) = Done w1 ->
  (forall e w', sweep root (after_dirs root dirs w1) = Raised e w' ->
     main root files dirs fs0 = Raised e w'
     /\ (exists p, isfile (fs w') p = true /\ unlink (fs w') p = Err e)
     /\ (exists l, erased ext_name (fs (after_dirs root dirs w1)) l (fs w'))
     /\ existsb counted (stdout w') = false)
  /\ (layoutb root fs0 = true ->
      FILES_TO_CLEAN ≡ₚ files -> DIRS_TO_CLEAN ≡ₚ dirs ->
      (forall top rel name content,
         In top [nt_top root; ex_top root] ->
         lstat_at (fs (after_dirs root dirs w1)) (parts top ++ rel)
         = Some (S_IFDIR false) ->
         lstat_at (fs (after_dirs root dirs w1)) (parts top ++ rel ++ [name])
         = Some (S_IFREG content) ->
         PyStr.endswith name EXTENSIONS_TO_CLEAN = true ->
         exists w',
           sweep root (after_dirs root dirs w1) = Raised EACCES w'
           /\ main root files dirs fs0 = Raised EACCES w'
           /\ lstat_at (fs w') (parts top ++ rel ++ [name])
              = Some (S_IFREG content))
      /\ (forall x cx e w',
            lstat_at (fs (after_dirs root dirs w1)) (parts (nt_top root))
            = Some (S_IFDIR true) ->
            lstat_at (fs (after_dirs root dirs w1)) (parts (nt_top root) ++ [x])
            = Some (S_IFREG cx) ->
            PyStr.endswith x EXTENSIONS_TO_CLEAN = true ->
            sweep root (after_dirs root dirs w1) = Raised e w' ->
            lstat_at (fs w') (parts (nt_top root) ++ [x]) = None)).
Proof.
  intros H1.
  assert (forall e w', sweep root (after_dirs root dirs w1) = Raised e w' ->
            main root files dirs fs0 = Raised e w') as Hmain.
  { intros e w' H2. rewrite main_eq, H1. simpl. rewrite H2. done. }
  split.
  - intros e w' H2. split; [auto|]. split; [|split].
    + eapply sweep_Raised_origin. done.
    + destruct (sweep_swept root (after_dirs root dirs w1)) as [_ HR].
      destruct (HR _ _ H2) as (n & _ & l & E & _). eauto.
    + destruct (sweep_swept root (after_dirs root dirs w1)) as [_ HR].
      destruct (HR _ _ H2) as (n & Ho & _). simpl in Ho. rewrite Ho.
      rewrite existsb_app.
      rewrite (files_phase_not_counted _ _ _ _ H1) by done. simpl.
      clear. induction dirs; done.
  - intros Hl%layoutb_layout Hf Hd.
    destruct (layout_after_dirs _ _ _ _ _ Hl Hf Hd H1) as [_ Hl2].
    split.
    + intros top rel name content Htop Hlock Hreg He.
      destruct (sweep_locked_file_raises _ _ _ _ _ _ Hl2 Htop Hlock Hreg He)
        as (w' & Es & Hk).
      exists w'. auto.
    + intros x cx e w' Hw Hx He Hs.
      eapply sweep_Raised_top_file_gone; try done. apply Hl2.
Qed.

Lemma C10_sweep_failure_aborts_witness :
  let w' := {| fs := guarded_left;
               stdout := RootDir "/proj" :: map RemovingDir DIRS_TO_CLEAN |} in
  lstat_at guarded ["proj"; "nautilus_trader"; "x.so"] = Some (S_IFREG "so")
  /\ main root0 FILES_TO_CLEAN DIRS_TO_CLEAN guarded = Raised EACCES w'
  /\ existsb counted (stdout w') = false
  /\ lstat_at (fs w') ["proj"; "nautilus_trader"; "x.so"] = None
  /\ lstat_at (fs w') ["proj"; "nautilus_trader"; "sub"; "y.pyc"]
     = Some (S_IFREG "pyc").
Proof.
  intros w'.
  assert (for_each (remove_listed_file root0) FILES_TO_CLEAN (start root0 guarded)
          = Done (start root0 guarded)) as E1 by (vm_compute; reflexivity).
  assert (layoutb root0 guarded = true) as Hl by (vm_compute; reflexivity).
  destruct (C10_sweep_failure_aborts root0 FILES_TO_CLEAN DIRS_TO_CLEAN guarded
              (start root0 guarded) E1) as [HA HB].
  destruct (HB Hl (Permutation_refl _) (Permutation_refl _)) as [Hfwd Hgone].
  assert (lstat_at (fs (after_dirs root0 DIRS_TO_CLEAN (start root0 guarded)))
            (parts (nt_top root0) ++ ["sub"]) = Some (S_IFDIR false)) as Hlock
    by (vm_compute; reflexivity).
  assert (lstat_at (fs (after_dirs root0 DIRS_TO_CLEAN (start root0 guarded)))
            (parts (nt_top root0) ++ ["sub"] ++ ["y.pyc"])
          = Some (S_IFREG "pyc")) as Hreg by (vm_compute; reflexivity).
  destruct (Hfwd (nt_top root0) ["sub"] "y.pyc" "pyc" (or_introl eq_refl)
              Hlock Hreg eq_refl) as (w'' & Es & Em & Hk).
  assert (sweep root0 (after_dirs root0 DIRS_TO_CLEAN (start root0 guarded))
          = Raised EACCES w') as Ec by (vm_compute; reflexivity).
  assert (w'' = w') as -> by congruence.
  destruct (HA _ _ Ec) as (_ & _ & _ & Hcount).
  split; [vm_compute; reflexivity|]. split; [exact Em|].
  split; [exact Hcount|]. split; [|exact Hk].
  apply (Hgone "x.so" "so" EACCES w'); [vm_compute; reflexivity..|exact Ec].
Defined.

Lemma walk_path_parts top rel : parts (walk_path top rel) = parts top ++ rel.
Proof.
  unfold walk_path. revert top. induction rel as [|x rel IH]; intros top; simpl.
  - rewrite app_nil_r. done.
  - rewrite IH. simpl. rewrite <- app_assoc. done.
Qed.

Lemma walk_path_endswith top rel name :
  PyStr.endswith (text (walk_path top (rel ++ [name]))) EXTENSIONS_TO_CLEAN
  = PyStr.endswith name EXTENSIONS_TO_CLEAN.
Proof.
  unfold walk_path. rewrite fold_left_app. simpl. apply endswith_join_name.
Qed.

(** C1, refuted: in [linked] no regular file below the two subtrees has
    a configured suffix, yet the sweep deletes an entry, the link
    [foo.so], and reports 1. *)
Lemma C1_count_includes_links : ~ counts_regular_files root0 linked.
Proof.
  intros H.
  destruct (H ({| fs := Dir true
                          [("proj",
                            Dir true
                              [("nautilus_trader",
                                Dir true [("real.txt", File "data")]);
                               ("examples", Dir true [])])];
                  stdout := [] |}, 1)) as [Hn _].
  - vm_compute. reflexivity.
  - vm_compute in Hn. discriminate Hn.
Qed.

(** Which links are deleted is not decided by the tree the sweep starts
    from alone: a link to a file that the sweep deletes is deleted, and
    counted, when the directory lists it before its target, and left,
    dangling, when the directory lists it after. *)
Lemma link_to_swept_file_by_listing_order :
  sweep root0 {| fs := chain_link_first; stdout := [] |}
  = Done ({| fs := Dir true
                     [("proj",
                       Dir true
                         [("nautilus_trader", Dir true []);
                          ("examples", Dir true [])])];
             stdout := [] |}, 2)
  /\ sweep root0 {| fs := chain_target_first; stdout := [] |}
     = Done ({| fs := Dir true
                        [("proj",
                          Dir true
                            [("nautilus_trader",
                              Dir true
                                [("a.so",
                                  Symlink ["proj"; "nautilus_trader"; "b.so"])]);
                             ("examples", Dir true [])])];
                stdout := [] |}, 1).
Proof. split; vm_compute; reflexivity. Qed.

(** What the two walks have done when they end normally. *)
Lemma sweep_Done_exact root w st :
  layoutb root (fs w) = true ->
  sweep root w = Done st ->
  exists l,
    NoDup l
    /\ snd st = length l
    /\ stdout (fst st) = stdout w
    /\ (forall q, lstat_at (fs (fst st)) q
                  = if decide (q ∈ l) then None else lstat_at (fs w) q)
    /\ (forall c, c ∈ l ->
          exists top rel,
            In top [nt_top root; ex_top root] /\ rel <> []
            /\ c = parts (walk_path top rel)
            /\ PyStr.endswith (text (walk_path top rel)) EXTENSIONS_TO_CLEAN
               = true
            /\ isfile (fs w) c = true
            /\ ((exists content, lstat_at (fs w) c = Some (S_IFREG content))
                \/ exists t, lstat_at (fs w) c = Some (S_IFLNK t)))
    /\ (forall top rel content,
          In top [nt_top root; ex_top root] -> rel <> [] ->
          lstat_at (fs w) (parts (walk_path top rel)) = Some (S_IFREG content) ->
          PyStr.endswith (text (walk_path top rel)) EXTENSIONS_TO_CLEAN = true ->
          parts (walk_path top rel) ∈ l)
    /\ (forall top rel name,
          In top [nt_top root; ex_top root] ->
          real_dir (fs (fst st)) (parts (walk_path top rel)) ->
          PyStr.endswith (text (walk_path top (rel ++ [name])))
            EXTENSIONS_TO_CLEAN = true ->
          isfile (fs (fst st)) (parts (walk_path top (rel ++ [name]))) = false).
Proof.
  intros Hl Hs.
  destruct (sweep_Done_layoutb root w st Hl Hs) as (l & E & Hn & Ho & C1 & C2).
  pose proof E as (N & A & Q & _).
  assert (forall top, In top [nt_top root; ex_top root] ->
            clean (fs (fst st)) (parts top)) as Hclean.
  { intros top Htop. simpl in Htop. destruct Htop as [<-|[<-|[]]]; done. }
  exists l. split; [done|]. split; [done|]. split; [done|]. split; [done|].
  split; [|split].
  - intros c Hc. destruct (A c Hc) as (Hb & m & Hm & Hnd).
    assert (exists top, In top [nt_top root; ex_top root]
                        /\ below_ext (fs w) (parts top) c)
      as (top & Htop & (d & name & -> & He) & (rel & Hrel & Hc') & Hf).
    { destruct Hb as [Hb|Hb]; [exists (nt_top root)|exists (ex_top root)];
        (split; [simpl; auto|exact Hb]). }
    exists top, rel. split; [done|]. split; [done|].
    rewrite walk_path_parts. split; [done|]. split; [|split; [done|]].
    + destruct rel as [|nm rel' _] using rev_ind; [done|].
      rewrite app_assoc in Hc'. apply app_inj_tail in Hc' as [_ ->].
      rewrite walk_path_endswith. done.
    + destruct m as [content|t|wd]; [left|right|done]; eauto.
  - intros top rel content Htop Hrel Hreg Hend.
    destruct (decide (parts (walk_path top rel) ∈ l)) as [|Hnin]; [done|].
    exfalso. rewrite walk_path_parts in *.
    assert (lstat_at (fs (fst st)) (parts top ++ rel) = Some (S_IFREG content))
      as Hreg'.
    { rewrite Q. destruct (decide (_ ∈ l)); done. }
    destruct rel as [|nm rel' _] using rev_ind; [done|].
    rewrite walk_path_endswith in Hend. rewrite app_assoc in Hreg'.
    pose proof (lstat_at_real_dir _ _ _ _ Hreg') as Hreal.
    pose proof (isfile_regular _ _ _ _ Hreal Hreg') as Hf.
    rewrite <- app_assoc in Hf.
    rewrite (Hclean top Htop rel' nm) in Hend; done.
  - intros top rel name Htop Hreal Hend.
    rewrite walk_path_parts in *. rewrite walk_path_endswith in Hend.
    destruct (isfile (fs (fst st)) (parts top ++ rel ++ [name])) eqn:Hf;
      [|done].
    rewrite (Hclean top Htop rel name) in Hend; done.
Qed.

(** C1, as amended.  In a run that ends normally the sweep deletes
    entries below [root/nautilus_trader/] and [root/examples/] whose path
    ends with one of the seven suffixes, and nothing else.  Every
    regular file with such a path is deleted.  Every entry deleted was
    accepted by [os.path.isfile] when the sweep started: it is a regular
    file, or a symbolic link that resolved to one.  Afterwards nothing
    with such a path below the two subtrees is accepted by
    [os.path.isfile].  The line the run prints at its end gives the
    number of entries deleted, links included, over both subtrees. *)
Theorem C1_sweep_deletes_by_suffix root files dirs fs0 wf :
  layoutb root fs0 = true ->
  FILES_TO_CLEAN ≡ₚ files -> DIRS_TO_CLEAN ≡ₚ dirs ->
  main root files dirs fs0 = Done wf ->
  exists w1 l,
    for_each (remove_listed_file root) files (start root fs0) = Done w1
    /\ NoDup l
    /\ stdout wf
       = stdout (after_dirs root dirs w1) ++ [RemovedCount (length l)]
    /\ (forall q, lstat_at (fs wf) q
                  = if decide (q ∈ l) then None
                    else lstat_at (fs (after_dirs root dirs w1)) q)
    /\ (forall c, c ∈ l ->
          exists top rel,
            In top [nt_top root; ex_top root] /\ rel <> []
            /\ c = parts (walk_path top rel)
            /\ PyStr.endswith (text (walk_path top rel)) EXTENSIONS_TO_CLEAN
               = true
            /\ isfile (fs (after_dirs root dirs w1)) c = true
            /\ ((exists content,
                   lstat_at (fs (after_dirs root dirs w1)) c
                   = Some (S_IFREG content))
                \/ exists t,
                     lstat_at (fs (after_dirs root dirs w1)) c
                     = Some (S_IFLNK t)))
    /\ (forall top rel content,
          In top [nt_top root; ex_top root] -> rel <> [] ->
          lstat_at (fs (after_dirs root dirs w1)) (parts (walk_path top rel))
          = Some (S_IFREG content) ->
          PyStr.endswith (text (walk_path top rel)) EXTENSIONS_TO_CLEAN = true ->
          parts (walk_path top rel) ∈ l)
    /\ (forall top rel name,
          In top [nt_top root; ex_top root] ->
          real_dir (fs wf) (parts (walk_path top rel)) ->
          PyStr.endswith (text (walk_path top (rel ++ [name])))
            EXTENSIONS_TO_CLEAN = true ->
          isfile (fs wf) (parts (walk_path top (rel ++ [name]))) = false).
Proof.
  intros Hl%layoutb_layout Hf Hd. rewrite main_eq. unfold bind.
  destruct (for_each _ files _) as [w1| |] eqn:E1; try done.
  destruct (sweep root (after_dirs root dirs w1)) as [st| |] eqn:E2; try done.
  unfold report. intros [= <-]. cbn [print fs stdout].
  destruct (layout_after_dirs _ _ _ _ _ Hl Hf Hd E1) as [_ Hl2].
  apply layout_layoutb in Hl2.
  destruct (sweep_Done_exact _ _ _ Hl2 E2)
    as (l & Hnd & Hn & Ho & Q & Hin & Hreg & Hleft).
  exists w1, l. rewrite Hn, Ho. done.
Qed.

Lemma C1_sweep_deletes_by_suffix_witness :
  let wf := {| fs := scenario_done;
               stdout := (RootDir "/proj" :: Removed ".coverage"
                            :: map RemovingDir DIRS_TO_CLEAN)
                         ++ [RemovedCount 3] |} in
  main root0 FILES_TO_CLEAN DIRS_TO_CLEAN scenario = Done wf
  /\ exists l,
       NoDup l
       /\ stdout wf
          = (RootDir "/proj" :: Removed ".coverage"
               :: map RemovingDir DIRS_TO_CLEAN)
            ++ [RemovedCount (length l)]
       /\ ["proj"; "nautilus_trader"; "sub"; "y.pyc"] ∈ l
       /\ lstat_at (fs wf) ["proj"; "nautilus_trader"; "sub"; "y.pyc"] = None.
Proof.
  intros wf.
  assert (main root0 FILES_TO_CLEAN DIRS_TO_CLEAN scenario = Done wf) as E
    by (vm_compute; reflexivity).
  split; [exact E|].
  assert (layoutb root0 scenario = true) as Hl by (vm_compute; reflexivity).
  destruct (C1_sweep_deletes_by_suffix root0 FILES_TO_CLEAN DIRS_TO_CLEAN
              scenario wf Hl (Permutation_refl _) (Permutation_refl _) E)
    as (w1 & l & E1 & Hnd & Hout & Q & _ & Hreg & _).
  vm_compute in E1. injection E1 as <-.
  exists l. split; [exact Hnd|]. split; [exact Hout|].
  split; [|vm_compute; reflexivity].
  apply (Hreg (nt_top root0) ["sub"; "y.pyc"] "pyc").
  - left. reflexivity.
  - discriminate.
  - vm_compute. reflexivity.
  - vm_compute. reflexivity.
Defined.

Lemma target_vs_entry root t x :
  In t DIRS_TO_CLEAN ->
  target root t = parts root ++ [x]
  \/ ~ target root t `prefix_of` parts root ++ [x].
Proof.
  intros [(Hc & _)| ->]%dirs_cases.
  - rewrite target_single by done.
    destruct (decide (t = x)) as [->|Hne]; [left; done|right].
    apply not_prefix_app. intros [r Hr]. injection Hr as -> _. done.
  - right. rewrite target_docs_build. apply not_prefix_app. intros [r Hr]. done.
Qed.

Lemma below_diverge_target root n0 t c :
  In t DIRS_TO_CLEAN -> below_tops root n0 c -> diverge c (target root t).
Proof.
  intros Ht Hc.
  assert (exists x rel, (x = "nautilus_trader" \/ x = "examples")
                        /\ c = parts root ++ x :: rel) as (x & rel & Hx & ->).
  { destruct Hc as [(_ & (rel & _ & ->) & _)|(_ & (rel & _ & ->) & _)];
      [exists "nautilus_trader"|exists "examples"]; exists rel;
      rewrite <- app_assoc; auto. }
  destruct (dirs_cases t Ht) as [(Hc' & N1 & N2 & _)| ->].
  - rewrite target_single by done. apply diverge_app. simpl. left.
    intros ->. destruct Hx; done.
  - rewrite target_docs_build. apply diverge_app. simpl. left.
    destruct Hx as [-> | ->]; done.
Qed.

(** The run returns: the walks never use up their budget. *)
Lemma main_returns root files dirs fs0 :
  layout root fs0 -> FILES_TO_CLEAN ≡ₚ files -> DIRS_TO_CLEAN ≡ₚ dirs ->
  main root files dirs fs0 <> OutOfFuel.
Proof.
  intros Hl Hf Hd. rewrite main_eq. unfold bind.
  destruct (for_each _ files _) as [w1| |] eqn:E1; [|done|].
  - destruct (layout_after_dirs _ _ _ _ _ Hl Hf Hd E1) as [_ Hl2].
    destruct (sweep root (after_dirs root dirs w1)) as [st| |] eqn:E2; [done..|].
    exfalso. eapply sweep_fuel; done.
  - exfalso. eapply files_phase_fuel. done.
Qed.

(** What a run that ended normally leaves: a tree in which no loop of
    the script finds anything to do. *)
Lemma main_Done_settled root files dirs fs0 wf :
  layout root fs0 -> FILES_TO_CLEAN ≡ₚ files -> DIRS_TO_CLEAN ≡ₚ dirs ->
  main root files dirs fs0 = Done wf ->
  layout root (fs wf)
  /\ (forall t, In t FILES_TO_CLEAN -> lstat_at (fs wf) (parts root ++ [t]) = None)
  /\ (forall t, In t DIRS_TO_CLEAN -> stuck (fs wf) (target root t))
  /\ clean (fs wf) (parts root ++ ["nautilus_trader"])
  /\ clean (fs wf) (parts root ++ ["examples"]).
Proof.
  intros Hl Hf Hd. rewrite main_eq. unfold bind.
  destruct (for_each _ files _) as [w1| |] eqn:E1; try done.
  destruct (sweep root (after_dirs root dirs w1)) as [st| |] eqn:E2; try done.
  intros [= <-]. unfold print. cbn [fs].
  destruct (layout_after_dirs _ _ _ _ _ Hl Hf Hd E1) as [Hl1 Hl2].
  destruct (sweep_Done _ _ _ Hl2 E2) as (Hsw & C1 & C2).
  pose proof (layout_swept _ _ _ _ Hsw Hl2) as Hl3.
  pose proof Hsw as (_ & l & E & _). simpl in E, Hl3.
  pose proof E as (_ & A & Q & F).
  assert (forall a, In a dirs -> In a DIRS_TO_CLEAN) as Hdirs.
  { intros a Ha. eapply perm_In; done. }
  split; [done|]. split; [|split; [|done]].
  - intros t Ht.
    destruct (lstat_at (fs (fst st)) (parts root ++ [t])) as [m|] eqn:L; [|done].
    apply (erased_shrinks _ _ _ _ E) in L.
    rewrite (dirs_phase_absent root dirs) in L; try done.
    + intros t' Ht'. apply target_vs_entry. auto.
    + eapply (files_phase_Done root files (start root fs0) w1); try done.
      * apply files_perm_single. done.
      * apply Hl.
      * eapply perm_In; [symmetry|]; done.
  - intros t Ht.
    assert (forall c, c ∈ l -> diverge c (target root t)) as Hdiv.
    { intros c Hc. destruct (A c Hc) as [Hb _].
      eapply below_diverge_target; done. }
    eapply (stuck_transfer (fs (after_dirs root dirs w1))).
    + apply F. done.
    + intros d name Hp. rewrite Q.
      destruct (decide (_ ∈ l)) as [Hin|]; [|reflexivity]. exfalso.
      eapply diverge_not_prefix; [exact (Hdiv d Hin)|].
      rewrite Hp. apply prefix_app_r. done.
    + simpl. apply dirs_phase_stuck; try done.
      eapply perm_In; [symmetry|]; done.
Qed.

(** C3.  A second run, right after a run that ended normally, ends
    normally too, leaves the tree exactly as the first run left it, and
    reports a count of 0; its file loop removes nothing and prints
    nothing. *)
Theorem C3_second_run_changes_nothing root files dirs files' dirs' fs0 wf :
  layoutb root fs0 = true ->
  FILES_TO_CLEAN ≡ₚ files -> DIRS_TO_CLEAN ≡ₚ dirs ->
  FILES_TO_CLEAN ≡ₚ files' -> DIRS_TO_CLEAN ≡ₚ dirs' ->
  main root files dirs fs0 = Done wf ->
  main root files' dirs' (fs wf)
  = Done {| fs := fs wf;
            stdout := RootDir (text root)
                        :: map RemovingDir dirs' ++ [RemovedCount 0] |}.
Proof.
  intros Hl%layoutb_layout Hf Hd Hf' Hd' Hrun.
  destruct (main_Done_settled _ _ _ _ _ Hl Hf Hd Hrun)
    as (Hl' & Habs & Hstuck & C1 & C2).
  rewrite main_eq.
  rewrite (files_phase_absent root files' (start root (fs wf))).
  - simpl. unfold after_dirs. simpl.
    rewrite (dirs_phase_noop root dirs' (fs wf)).
    + rewrite sweep_noop; done.
    + done.
    + intros a Ha. eapply perm_In; done.
    + intros a Ha. apply Hstuck. eapply perm_In; done.
  - apply files_perm_single. done.
  - apply Hl'.
  - intros t Ht. apply Habs. eapply perm_In; done.
Qed.

Lemma C3_second_run_changes_nothing_witness :
  let wf := {| fs := scenario_done;
               stdout := RootDir "/proj" :: Removed ".coverage"
                           :: map RemovingDir DIRS_TO_CLEAN
                           ++ [RemovedCount 3] |} in
  main root0 FILES_TO_CLEAN DIRS_TO_CLEAN scenario = Done wf
  /\ main root0 FILES_TO_CLEAN DIRS_TO_CLEAN (fs wf)
     = Done {| fs := fs wf;
               stdout := RootDir (text root0)
                           :: map RemovingDir DIRS_TO_CLEAN
                           ++ [RemovedCount 0] |}.
Proof.
  assert (main root0 FILES_TO_CLEAN DIRS_TO_CLEAN scenario
          = Done {| fs := scenario_done;
                    stdout := RootDir "/proj" :: Removed ".coverage"
                                :: map RemovingDir DIRS_TO_CLEAN
                                ++ [RemovedCount 3] |}) as E
    by (vm_compute; reflexivity).
  split; [exact E|].
  assert (layoutb root0 scenario = true) as Hl by (vm_compute; reflexivity).
  exact (C3_second_run_changes_nothing root0 FILES_TO_CLEAN DIRS_TO_CLEAN
           FILES_TO_CLEAN DIRS_TO_CLEAN scenario _ Hl
           (Permutation_refl _) (Permutation_refl _)
           (Permutation_refl _) (Permutation_refl _) E).
Defined.

End Claims.

(** ** Further properties of the script *)

Module Extras.
Import Props.
Import FS FSFacts Loops Layout RmTree Sweep FilesPhase DirsPhase SweepPhase Run.
Import Claims Examples.

(** X1.  The sweep never removes a directory: whatever is a directory
    before the two walks is the same directory after them, whether they
    end normally or by an error.  Directories emptied by the sweep stay. *)
Theorem sweep_keeps_directories root w q wd :
  lstat_at (fs w) q = Some (S_IFDIR wd) ->
  (forall st, sweep root w = Done st ->
     lstat_at (fs (fst st)) q = Some (S_IFDIR wd))
  /\ (forall e w', sweep root w = Raised e w' ->
       lstat_at (fs w') q = Some (S_IFDIR wd)).
Proof.
  intros Hq. destruct (sweep_swept root w) as [HD HR]. split.
  - intros st Hs. eapply (swept_in_dir_kept _ (w, 0) st); [apply HD|]; done.
  - intros e w' Hs. destruct (HR e w' Hs) as [n Hn].
    eapply (swept_in_dir_kept _ (w, 0) (w', n)); done.
Qed.

Lemma sweep_keeps_directories_witness :
  lstat_at scenario ["proj"; "nautilus_trader"; "sub"] = Some (S_IFDIR true)
  /\ sweep root0 {| fs := scenario; stdout := [] |}
     = Done ({| fs := scenario_swept; stdout := [] |}, 3)
  /\ lstat_at (fs (fst ({| fs := scenario_swept; stdout := [] |}, 3)))
       ["proj"; "nautilus_trader"; "sub"] = Some (S_IFDIR true)
  /\ lstat_at scenario_swept ["proj"; "nautilus_trader"; "sub"; "y.pyc"] = None.
Proof.
  assert (lstat_at scenario ["proj"; "nautilus_trader"; "sub"]
          = Some (S_IFDIR true)) as H1 by (vm_compute; reflexivity).
  assert (sweep root0 {| fs := scenario; stdout := [] |}
          = Done ({| fs := scenario_swept; stdout := [] |}, 3)) as E
    by (vm_compute; reflexivity).
  split; [exact H1|]. split; [exact E|]. split; [|vm_compute; reflexivity].
  destruct (sweep_keeps_directories root0 {| fs := scenario; stdout := [] |}
              ["proj"; "nautilus_trader"; "sub"] true H1) as [HD _].
  exact (HD _ E).
Defined.

Lemma files_phase_Raised_state root files w e w' :
  Forall single files -> real_dir (fs w) (parts root) ->
  for_each (remove_listed_file root) files w = Raised e w' ->
  exists l, erased (listed_in root files) (fs w) l (fs w').
Proof.
  intros Hs Hreal H.
  apply (for_each_Raised _ _ (filed_refl root files) (filed_trans root files))
    in H; [|apply files_body_filed; done].
  destruct H as (a & s1 & _ & Hf & Hb).
  apply remove_listed_file_Raised in Hb as (-> & _). apply Hf. done.
Qed.

Lemma erased_off (P : path -> Prop) n l n' q :
  erased P n l n' -> ~ P q -> lstat_at n' q = lstat_at n q.
Proof.
  intros (_ & A & Q & _) HP. rewrite Q.
  destruct (decide (q ∈ l)) as [Hin|]; [|done].
  destruct (A q Hin) as [HPq _]. done.
Qed.

Lemma out_of_reach_listed root files q :
  FILES_TO_CLEAN ≡ₚ files -> out_of_reach root q -> ~ listed_in root files q.
Proof.
  intros Hf (H1 & _) (t & Ht & ->). eapply H1; [|done]. eapply perm_In; done.
Qed.

Lemma out_of_reach_tops root n0 q : out_of_reach root q -> ~ below_tops root n0 q.
Proof.
  intros (_ & _ & H3 & H4) [(_ & Hb & _)|(_ & Hb & _)]; auto.
Qed.

(** X2.  The run touches nothing outside its three kinds of places: a
    path that is not a listed file, is not at or below a listed
    directory, and is not strictly below one of the two swept subtrees
    reports after the run, ended normally or by an error, what it
    reported before. *)
Theorem main_touches_nothing_else root files dirs fs0 q :
  layoutb root fs0 = true ->
  FILES_TO_CLEAN ≡ₚ files -> DIRS_TO_CLEAN ≡ₚ dirs ->
  out_of_reach root q ->
  (forall wf, main root files dirs fs0 = Done wf ->
     lstat_at (fs wf) q = lstat_at fs0 q)
  /\ (forall e wf, main root files dirs fs0 = Raised e wf ->
       lstat_at (fs wf) q = lstat_at fs0 q).
Proof.
  intros Hl%layoutb_layout Hf Hd Hq.
  pose proof (files_perm_single _ Hf) as Hs.
  assert (forall w1,
            for_each (remove_listed_file root) files (start root fs0) = Done w1 ->
            layout root (fs (after_dirs root dirs w1))
            /\ lstat_at (fs (after_dirs root dirs w1)) q = lstat_at fs0 q) as Hmid.
  { intros w1 E1.
    destruct (layout_after_dirs _ _ _ _ _ Hl Hf Hd E1) as [Hl1 Hl2].
    split; [done|]. simpl. rewrite dirs_phase_frame; [|done| |].
    - destruct (files_phase_Done root files (start root fs0) w1 Hs
                  (layout_root _ _ Hl) E1) as [[l E] _].
      eapply erased_off; [exact E|]. apply out_of_reach_listed; done.
    - intros a Ha. eapply perm_In; done.
    - intros t Ht. apply Hq. eapply perm_In; done. }
  split.
  - intros wf. rewrite main_eq. unfold bind.
    destruct (for_each _ files _) as [w1| |] eqn:E1; try done.
    destruct (Hmid w1 eq_refl) as [Hl2 Hq2].
    destruct (sweep root (after_dirs root dirs w1)) as [st| |] eqn:E2; try done.
    intros [= <-]. unfold print. cbn [fs].
    destruct (sweep_Done _ _ _ Hl2 E2) as ((_ & l & E & _) & _).
    rewrite <- Hq2. eapply erased_off; [exact E|]. apply out_of_reach_tops. done.
  - intros e wf [Hr|(w1 & E1 & Hr)]%main_Raised.
    + destruct (files_phase_Raised_state root files (start root fs0) e wf Hs
                  (layout_root _ _ Hl) Hr) as [l E].
      eapply erased_off; [exact E|]. apply out_of_reach_listed; done.
    + destruct (Hmid w1 E1) as [Hl2 Hq2].
      destruct (sweep_Raised _ _ _ _ Hl2 Hr) as (n & _ & l & E & _).
      rewrite <- Hq2. eapply erased_off; [exact E|]. apply out_of_reach_tops. done.
Qed.

Lemma main_touches_nothing_else_witness :
  main root0 FILES_TO_CLEAN DIRS_TO_CLEAN outside
  = Done {| fs := outside_done;
            stdout := RootDir "/proj" :: map RemovingDir DIRS_TO_CLEAN
                        ++ [RemovedCount 1] |}
  /\ lstat_at (fs {| fs := outside_done;
                     stdout := RootDir "/proj" :: map RemovingDir DIRS_TO_CLEAN
                                 ++ [RemovedCount 1] |})
       ["proj"; "tests"; "helper.so"]
     = lstat_at outside ["proj"; "tests"; "helper.so"].
Proof.
  assert (main root0 FILES_TO_CLEAN DIRS_TO_CLEAN outside
          = Done {| fs := outside_done;
                    stdout := RootDir "/proj" :: map RemovingDir DIRS_TO_CLEAN
                                ++ [RemovedCount 1] |}) as E
    by (vm_compute; reflexivity).
  split; [exact E|].
  assert (layoutb root0 outside = true) as Hl by (vm_compute; reflexivity).
  assert (out_of_reach root0 ["proj"; "tests"; "helper.so"]) as Hq.
  { split; [|split; [|split]].
    - intros t _. discriminate.
    - intros t Ht [r Hr]. simpl in Ht.
      repeat (destruct Ht as [<-|Ht]; [discriminate Hr|]). done.
    - intros (rel & _ & Hr). discriminate Hr.
    - intros (rel & _ & Hr). discriminate Hr. }
  destruct (main_touches_nothing_else root0 FILES_TO_CLEAN DIRS_TO_CLEAN outside
              ["proj"; "tests"; "helper.so"] Hl
              (Permutation_refl _) (Permutation_refl _) Hq) as [HD _].
  exact (HD _ E).
Defined.

(** X3.  On a tree with nothing to clean the run changes nothing: when
    no listed file is there, no listed path is a directory, and nothing
    below the two subtrees would pass the test of the loop body, the run
    ends normally on the tree it was given, having printed the root line,
    one line per listed directory and a count of 0. *)
Theorem main_on_clean_tree root files dirs fs0 :
  layoutb root fs0 = true ->
  FILES_TO_CLEAN ≡ₚ files -> DIRS_TO_CLEAN ≡ₚ dirs ->
  (forall t, In t FILES_TO_CLEAN -> present root fs0 t = false) ->
  (forall t, In t DIRS_TO_CLEAN -> is_dirb fs0 (target root t) = false) ->
  clean fs0 (parts root ++ ["nautilus_trader"]) ->
  clean fs0 (parts root ++ ["examples"]) ->
  main root files dirs fs0
  = Done {| fs := fs0;
            stdout := RootDir (text root)
                        :: map RemovingDir dirs ++ [RemovedCount 0] |}.
Proof.
  intros Hl%layoutb_layout Hf Hd Hfiles Hdirs C1 C2.
  rewrite main_eq.
  rewrite (files_phase_absent root files (start root fs0)).
  - simpl. unfold after_dirs. simpl.
    rewrite (dirs_phase_noop root dirs fs0).
    + rewrite sweep_noop; done.
    + done.
    + intros a Ha. eapply perm_In; done.
    + intros a Ha wd Hwd. exfalso.
      specialize (Hdirs a (perm_In _ _ _ Hd Ha)). unfold is_dirb in Hdirs.
      rewrite Hwd in Hdirs. done.
  - apply files_perm_single. done.
  - apply Hl.
  - intros t Ht. specialize (Hfiles t (perm_In _ _ _ Hf Ht)).
    unfold present in Hfiles. simpl.
    destruct (lstat_at fs0 (parts root ++ [t])); done.
Qed.

Lemma main_on_clean_tree_witness :
  main root0 FILES_TO_CLEAN DIRS_TO_CLEAN bare
  = Done {| fs := bare;
            stdout := RootDir (text root0)
                        :: map RemovingDir DIRS_TO_CLEAN ++ [RemovedCount 0] |}.
Proof.
  apply (main_on_clean_tree root0 FILES_TO_CLEAN DIRS_TO_CLEAN bare).
  - vm_compute. reflexivity.
  - reflexivity.
  - reflexivity.
  - intros t Ht. simpl in Ht.
    repeat (destruct Ht as [<-|Ht]; [vm_compute; reflexivity|]). done.
  - intros t Ht. simpl in Ht.
    repeat (destruct Ht as [<-|Ht]; [vm_compute; reflexivity|]). done.
  - intros rel name Hrel _. exfalso.
    destruct (Hrel (parts root0 ++ ["nautilus_trader"])) as [w Hw];
      [by exists rel|]. vm_compute in Hw. discriminate Hw.
  - intros rel name Hrel _. exfalso.
    destruct (Hrel (parts root0 ++ ["examples"])) as [w Hw];
      [by exists rel|]. vm_compute in Hw. discriminate Hw.
Defined.

(** X4.  The directory loop is idempotent on its own: run again on the
    tree it left, in any order of the set, it leaves that tree as it
    is. *)
Theorem dir_loop_idempotent root dirs dirs' w :
  layoutb root (fs w) = true ->
  DIRS_TO_CLEAN ≡ₚ dirs -> DIRS_TO_CLEAN ≡ₚ dirs' ->
  exists w2,
    for_each (remove_listed_dir root) dirs' (after_dirs root dirs w) = Done w2
    /\ fs w2 = fs (after_dirs root dirs w).
Proof.
  intros Hl%layoutb_layout Hd Hd'.
  assert (forall a, In a dirs -> In a DIRS_TO_CLEAN) as Hin.
  { intros a Ha. exact (perm_In _ _ _ Hd Ha). }
  assert (forall a, In a dirs' -> In a DIRS_TO_CLEAN) as Hin'.
  { intros a Ha. exact (perm_In _ _ _ Hd' Ha). }
  eexists. split; [apply dirs_phase_Done|]. simpl.
  apply dirs_phase_noop; [apply fold_layout; done|done|].
  intros a Ha. apply dirs_phase_stuck; [done|done|].
  eapply perm_In; [symmetry; exact Hd|]. auto.
Qed.

Lemma dir_loop_idempotent_witness :
  exists w2,
    for_each (remove_listed_dir root0) DIRS_TO_CLEAN
      (after_dirs root0 DIRS_TO_CLEAN {| fs := scenario; stdout := [] |})
    = Done w2
    /\ fs w2 = fs (after_dirs root0 DIRS_TO_CLEAN
                     {| fs := scenario; stdout := [] |}).
Proof.
  apply (dir_loop_idempotent root0 DIRS_TO_CLEAN DIRS_TO_CLEAN
           {| fs := scenario; stdout := [] |}).
  - vm_compute. reflexivity.
  - reflexivity.
  - reflexivity.
Defined.

(** X5.  The sweep is idempotent on its own: when the two walks have
    ended normally, two more walks over the tree they left delete nothing
    and count 0. *)
Theorem sweep_idempotent root w st :
  layoutb root (fs w) = true ->
  sweep root w = Done st ->
  sweep root (fst st) = Done (fst st, 0).
Proof.
  intros Hl%layoutb_layout Hs.
  destruct (sweep_Done _ _ _ Hl Hs) as (Hsw & C1 & C2).
  apply sweep_noop; [|done|done].
  apply (layout_swept _ root (w, 0) st Hsw). done.
Qed.

Lemma sweep_idempotent_witness :
  sweep root0 {| fs := scenario; stdout := [] |}
  = Done ({| fs := scenario_swept; stdout := [] |}, 3)
  /\ sweep root0 (fst ({| fs := scenario_swept; stdout := [] |}, 3))
     = Done (fst ({| fs := scenario_swept; stdout := [] |}, 3), 0).
Proof.
  assert (sweep root0 {| fs := scenario; stdout := [] |}
          = Done ({| fs := scenario_swept; stdout := [] |}, 3)) as E
    by (vm_compute; reflexivity).
  split; [exact E|].
  assert (layoutb root0 scenario = true) as Hl by (vm_compute; reflexivity).
  exact (sweep_idempotent root0 {| fs := scenario; stdout := [] |} _ Hl E).
Defined.

Lemma files_phase_stdout root files : forall w w1,
  NoDup files -> Forall single files -> real_dir (fs w) (parts root) ->
  for_each (remove_listed_file root) files w = Done w1 ->
  stdout w1
  = stdout w ++ map Removed (List.filter (present root (fs w)) files).
Proof.
  induction files as [|a files IH]; intros w w1 Hnd Hs Hreal; simpl.
  - intros [= <-]. rewrite app_nil_r. done.
  - apply NoDup_cons in Hnd as [Ha Hnd]. apply Forall_cons in Hs as [Hsa Hs].
    destruct (remove_listed_file root a w) as [wa| |] eqn:Hb; try done.
    intros Hrest.
    destruct (remove_listed_file_Done root [a] a w wa) as [Hf Hgone];
      [left; done|done|done|].
    destruct (Hf Hreal) as [l E].
    pose proof (real_dir_erased _ _ _ _ _ E Hreal) as Hreal1.
    rewrite (IH wa w1 Hnd Hs Hreal1 Hrest).
    assert (List.filter (present root (fs wa)) files
            = List.filter (present root (fs w)) files) as ->.
    { apply filter_ext_in. intros t Ht. unfold present.
      rewrite (erased_off _ _ _ _ _ E); [done|].
      intros (t' & [<-|[]] & Hq). apply app_inv_head in Hq.
      injection Hq as ->. apply Ha. apply list_elem_of_In. done. }
    unfold remove_listed_file in Hb. fold (target root a) in Hb.
    rewrite (target_single _ _ Hsa), unlink_real_dir in Hb by done.
    unfold present.
    destruct (lstat_at (fs w) (parts root ++ [a])) as [m|].
    + destruct (lstat_at (fs w) (parts root)) as [[| |[]]|]; try done.
      destruct m; try done; injection Hb as <-; simpl;
        rewrite <- app_assoc; done.
    + injection Hb as <-. done.
Qed.

(** X6.  What a run that ends normally prints: the root line; then one
    "Removed" line for each listed file that was there when the run
    started, in the order of the loop, and none for a listed file that
    was absent; then one "Removing dir" line for every listed directory,
    there or not; then the count. *)
Theorem main_output root files dirs fs0 wf :
  layoutb root fs0 = true ->
  FILES_TO_CLEAN ≡ₚ files -> DIRS_TO_CLEAN ≡ₚ dirs ->
  main root files dirs fs0 = Done wf ->
  exists n,
    stdout wf
    = RootDir (text root)
        :: map Removed (List.filter (present root fs0) files)
        ++ map RemovingDir dirs ++ [RemovedCount n].
Proof.
  intros Hl%layoutb_layout Hf Hd. rewrite main_eq. unfold bind.
  destruct (for_each _ files _) as [w1| |] eqn:E1; try done.
  destruct (sweep root (after_dirs root dirs w1)) as [st| |] eqn:E2; try done.
  intros [= <-]. exists (snd st). unfold print. cbn [stdout].
  destruct (layout_after_dirs _ _ _ _ _ Hl Hf Hd E1) as [_ Hl2].
  destruct (sweep_Done _ _ _ Hl2 E2) as ((Ho & _) & _). simpl in Ho.
  rewrite Ho.
  rewrite (files_phase_stdout root files (start root fs0) w1); try done.
  - simpl. rewrite <- !app_assoc. done.
  - rewrite <- Hf. apply (bool_decide_unpack _). vm_compute. exact I.
  - apply files_perm_single. done.
  - apply Hl.
Qed.

Lemma main_output_witness :
  main root0 FILES_TO_CLEAN DIRS_TO_CLEAN scenario
  = Done {| fs := scenario_done;
            stdout := RootDir "/proj" :: Removed ".coverage"
                        :: map RemovingDir DIRS_TO_CLEAN
                        ++ [RemovedCount 3] |}
  /\ exists n,
       stdout {| fs := scenario_done;
                 stdout := RootDir "/proj" :: Removed ".coverage"
                             :: map RemovingDir DIRS_TO_CLEAN
                             ++ [RemovedCount 3] |}
       = RootDir (text root0)
           :: map Removed (List.filter (present root0 scenario) FILES_TO_CLEAN)
           ++ map RemovingDir DIRS_TO_CLEAN ++ [RemovedCount n].
Proof.
  assert (main root0 FILES_TO_CLEAN DIRS_TO_CLEAN scenario
          = Done {| fs := scenario_done;
                    stdout := RootDir "/proj" :: Removed ".coverage"
                                :: map RemovingDir DIRS_TO_CLEAN
                                ++ [RemovedCount 3] |}) as E
    by (vm_compute; reflexivity).
  split; [exact E|].
  assert (layoutb root0 scenario = true) as Hl by (vm_compute; reflexivity).
  exact (main_output root0 FILES_TO_CLEAN DIRS_TO_CLEAN scenario _ Hl
           (Permutation_refl _) (Permutation_refl _) E).
Defined.

Lemma starts_spec pre l :
  PyStr.starts pre l = true <-> exists r, l = pre ++ r.
Proof.
  revert l. induction pre as [|a pre IH]; intros l.
  - split; [intros _; exists l; done|destruct l; done].
  - destruct l as [|b l].
    + split; [done|intros [r Hr]; done].
    + change (PyStr.starts (a :: pre) (b :: l))
        with (if Ascii.eqb a b then PyStr.starts pre l else false).
      destruct (Ascii.eqb a b) eqn:E.
      * apply Ascii.eqb_eq in E. subst b. rewrite IH. split.
        -- intros [r ->]. exists r. done.
        -- intros [r Hr]. injection Hr as ->. eauto.
      * apply Ascii.eqb_neq in E. split; [done|].
        intros [r Hr]. injection Hr as -> _. done.
Qed.

Lemma chars_inj s1 s2 : PyStr.chars s1 = PyStr.chars s2 -> s1 = s2.
Proof.
  unfold PyStr.chars. intros H.
  rewrite <- (string_of_list_ascii_of_string s1),
          <- (string_of_list_ascii_of_string s2), H. done.
Qed.

(** [s.endswith(suf)] holds exactly when [s] is some string followed by
    [suf], character for character. *)
Lemma endswith1_spec s suf :
  PyStr.endswith1 s suf = true <-> exists pre, s = (pre ++ suf)%string.
Proof.
  unfold PyStr.endswith1. rewrite starts_spec. split.
  - intros [r Hr]. exists (string_of_list_ascii (rev r)).
    apply chars_inj. rewrite PyStrFacts.chars_app.
    unfold PyStr.chars at 2. rewrite list_ascii_of_string_of_list_ascii.
    rewrite <- (rev_involutive (PyStr.chars s)), Hr, rev_app_distr.
    rewrite rev_involutive. done.
  - intros [pre ->]. exists (rev (PyStr.chars pre)).
    rewrite PyStrFacts.chars_app, rev_app_distr. done.
Qed.

(** X7.  The test of the loop body, [path.endswith(EXTENSIONS_TO_CLEAN)]
    on the joined path, is a test on the name alone, whatever the
    directory: it holds exactly when the name is some string, possibly
    empty, followed character for character by one of the seven
    suffixes. *)
Theorem suffix_test_is_on_the_name top name :
  PyStr.endswith (text (join top name)) EXTENSIONS_TO_CLEAN = true
  <-> exists pre suf,
        In suf EXTENSIONS_TO_CLEAN /\ name = (pre ++ suf)%string.
Proof.
  rewrite endswith_join_name. unfold PyStr.endswith.
  rewrite existsb_exists. split.
  - intros (suf & Hin & [pre Hpre]%endswith1_spec). eauto.
  - intros (pre & suf & Hin & Hpre). exists suf. split; [done|].
    apply endswith1_spec. eauto.
Qed.

Lemma suffix_test_is_on_the_name_witness :
  PyStr.endswith (text (join (nt_top root0) ".so")) EXTENSIONS_TO_CLEAN = true
  /\ PyStr.endswith (text (join (nt_top root0) "x.SO")) EXTENSIONS_TO_CLEAN
     = false.
Proof.
  split; [|vm_compute; reflexivity].
  apply (suffix_test_is_on_the_name (nt_top root0) ".so").
  exists "", ".so". split; [simpl; auto 10|reflexivity].
Defined.

Lemma split_chars_sep acc l1 l2 :
  PyStr.split_chars acc (l1 ++ "/"%char :: l2)
  = PyStr.split_chars acc l1 ++ PyStr.split_chars [] l2.
Proof.
  revert acc. induction l1 as [|c l1 IH]; intros acc.
  - cbn [app PyStr.split_chars]. rewrite Ascii.eqb_refl. destruct acc; done.
  - cbn [app PyStr.split_chars]. destruct (Ascii.eqb c "/").
    + destruct acc; rewrite IH; done.
    + apply IH.
Qed.

Lemma split_chars_no_sep acc l :
  forallb (fun c => negb (Ascii.eqb c "/"%char)) l = true ->
  PyStr.split_chars acc l
  = match rev acc ++ l with
    | [] => []
    | _ :: _ => [string_of_list_ascii (rev acc ++ l)]
    end.
Proof.
  revert acc. induction l as [|c l IH]; intros acc Hl.
  - cbn [PyStr.split_chars]. rewrite app_nil_r. destruct acc as [|a acc]; [done|].
    cbn [rev]. destruct (rev acc); done.
  - cbn [forallb] in Hl. apply andb_true_iff in Hl as [Hc Hl].
    apply negb_true_iff in Hc. cbn [PyStr.split_chars]. rewrite Hc.
    rewrite IH by done. cbn [rev]. rewrite <- app_assoc. done.
Qed.

Lemma components_plain name :
  plain_name name = true -> PyStr.components name = [name].
Proof.
  unfold plain_name, no_slash, PyStr.components.
  intros [Hne Hns]%andb_true_iff. rewrite split_chars_no_sep by done.
  cbn [rev app]. destruct (PyStr.chars name) eqn:E.
  - apply negb_true_iff, String.eqb_neq in Hne. exfalso. apply Hne.
    apply chars_inj. rewrite E. done.
  - rewrite <- E. unfold PyStr.chars. rewrite string_of_list_ascii_of_string. done.
Qed.

Lemma components_app_sep a b :
  PyStr.components (a ++ "/" ++ b)
  = PyStr.components a ++ PyStr.components b.
Proof.
  unfold PyStr.components. rewrite !PyStrFacts.chars_app.
  apply split_chars_sep.
Qed.

Lemma startswith_slash_chars b :
  PyStr.startswith1 b "/" = true -> exists l, PyStr.chars b = "/"%char :: l.
Proof.
  unfold PyStr.startswith1. intros [r Hr]%starts_spec. exists r. exact Hr.
Qed.

Lemma components_join a b :
  PyStr.startswith1 b "/" = false ->
  PyStr.components (PyStr.os_path_join a b)
  = PyStr.components a ++ PyStr.components b.
Proof.
  intros Hb. unfold PyStr.os_path_join. rewrite Hb.
  destruct (String.eqb a "") eqn:Ea; cbn [orb].
  - apply String.eqb_eq in Ea. subst a. done.
  - destruct (PyStr.endswith1 a "/") eqn:Es.
    + apply PyStrFacts.endswith1_slash_inv in Es as [a' Ha].
      unfold PyStr.components. rewrite PyStrFacts.chars_app, Ha.
      rewrite <- app_assoc. cbn [app]. rewrite !split_chars_sep.
      cbn [PyStr.split_chars]. rewrite app_nil_r. done.
    + apply components_app_sep.
Qed.

Lemma plain_name_relative name :
  plain_name name = true -> PyStr.startswith1 name "/" = false.
Proof.
  unfold plain_name, no_slash. intros [_ Hns]%andb_true_iff.
  destruct (PyStr.startswith1 name "/") eqn:E; [|done].
  apply startswith_slash_chars in E as [l Hl]. rewrite Hl in Hns. done.
Qed.

(** X8.  The strings the script builds name the entries it means.  If
    the components of a path string are the path, then so are those of
    the string [os.path.join] makes of it and an entry name; of the
    string it makes of it and a relative allow-list entry such as
    [docs/build]; and of the string made by appending a suffix that
    starts with [/], as for the two subtree roots. *)
Theorem path_strings_name_the_entries p :
  coherent p ->
  (forall name, plain_name name = true -> coherent (join p name))
  /\ (forall rel, PyStr.startswith1 rel "/" = false -> coherent (join_rel p rel))
  /\ (forall suffix, PyStr.startswith1 suffix "/" = true ->
       coherent (concat_dir p suffix)).
Proof.
  unfold coherent. intros Hp. split; [|split].
  - intros name Hn. cbn [text parts join].
    rewrite components_join by (apply plain_name_relative; done).
    rewrite Hp, components_plain; done.
  - intros rel Hr. cbn [text parts join_rel].
    rewrite components_join, Hp; done.
  - intros suffix [l Hl]%startswith_slash_chars. cbn [text parts concat_dir].
    unfold PyStr.components. rewrite PyStrFacts.chars_app, Hl.
    rewrite split_chars_sep. fold (PyStr.components (text p)). rewrite Hp.
    cbn [PyStr.split_chars]. rewrite Ascii.eqb_refl. done.
Qed.

Lemma path_strings_name_the_entries_witness :
  coherent root0
  /\ coherent (join (join (nt_top root0) "sub") "y.pyc")
  /\ coherent (join_rel root0 "docs/build").
Proof.
  assert (coherent root0) as H0 by reflexivity.
  split; [exact H0|].
  destruct (path_strings_name_the_entries root0 H0) as (_ & Hrel & Hcat).
  split; [|apply Hrel; reflexivity].
  assert (coherent (nt_top root0)) as H1 by (apply Hcat; reflexivity).
  destruct (path_strings_name_the_entries (nt_top root0) H1) as (Hj & _ & _).
  assert (coherent (join (nt_top root0) "sub")) as H2
    by (apply Hj; reflexivity).
  destruct (path_strings_name_the_entries (join (nt_top root0) "sub") H2)
    as (Hj2 & _ & _).
  apply Hj2. reflexivity.
Defined.

(** *** The order of the two loops *)

Lemma map_entry_ext k g h es :
  (forall n, g n = h n) -> map_entry k g es = map_entry k h es.
Proof.
  intros Hgh. induction es as [|[k' n] es IH]; [done|].
  cbn [map_entry]. destruct (String.eqb k k'); [rewrite Hgh|rewrite IH]; done.
Qed.

Lemma map_entry_twice k g h es :
  map_entry k g (map_entry k h es) = map_entry k (fun n => g (h n)) es.
Proof.
  induction es as [|[k' n] es IH]; [done|].
  cbn [map_entry]. destruct (String.eqb k k') eqn:E; cbn [map_entry]; rewrite E.
  - done.
  - rewrite IH. done.
Qed.

Lemma map_entry_comm k1 k2 g h es :
  k1 <> k2 ->
  map_entry k1 g (map_entry k2 h es) = map_entry k2 h (map_entry k1 g es).
Proof.
  intros Hne. induction es as [|[k' n] es IH]; [done|].
  cbn [map_entry].
  destruct (String.eqb k1 k') eqn:E1, (String.eqb k2 k') eqn:E2;
    cbn [map_entry]; rewrite ?E1, ?E2; try done.
  - apply String.eqb_eq in E1, E2. congruence.
  - rewrite IH. done.
Qed.

Lemma remove_name_cons k kv es :
  remove_name k (kv :: es)
  = if String.eqb k (fst kv) then remove_name k es else kv :: remove_name k es.
Proof. unfold remove_name. simpl. destruct (String.eqb k (fst kv)); done. Qed.

Lemma remove_name_comm k1 k2 es :
  remove_name k1 (remove_name k2 es) = remove_name k2 (remove_name k1 es).
Proof.
  induction es as [|kv es IH]; [done|]. rewrite !remove_name_cons.
  destruct (String.eqb k2 (fst kv)) eqn:E2, (String.eqb k1 (fst kv)) eqn:E1;
    rewrite ?remove_name_cons, ?E1, ?E2, ?IH; done.
Qed.

Lemma remove_name_map_entry k1 k2 h es :
  k1 <> k2 ->
  remove_name k1 (map_entry k2 h es) = map_entry k2 h (remove_name k1 es).
Proof.
  intros Hne. induction es as [|[k' n] es IH]; [done|].
  cbn [map_entry]. rewrite remove_name_cons. cbn [fst].
  destruct (String.eqb k2 k') eqn:E2.
  - apply String.eqb_eq in E2. subst k'.
    assert (String.eqb k1 k2 = false) as E1 by (apply String.eqb_neq; done).
    rewrite remove_name_cons. cbn [fst]. rewrite E1. cbn [map_entry].
    rewrite String.eqb_refl. done.
  - rewrite remove_name_cons. cbn [fst].
    destruct (String.eqb k1 k') eqn:E1; [apply IH|].
    cbn [map_entry]. rewrite E2, IH. done.
Qed.

Lemma remove_name_absent k es : assoc k es = None -> remove_name k es = es.
Proof.
  induction es as [|[k' n] es IH]; [done|]. cbn [assoc].
  rewrite remove_name_cons. cbn [fst].
  destruct (String.eqb k k'); [done|]. intros H. rewrite IH; done.
Qed.

Lemma update_dir_ext f g n d :
  (forall w es, f w es = g w es) -> update_dir f n d = update_dir g n d.
Proof.
  intros Hfg. revert n. induction d as [|c d IH]; intros [| |w es]; try done.
  - cbn [update_dir]. rewrite Hfg. done.
  - cbn [update_dir]. f_equal. apply map_entry_ext. intros n. apply IH.
Qed.

(** Two rewritings of the same directory are one. *)
Lemma update_dir_twice f g n d :
  update_dir f (update_dir g n d) d = update_dir (fun w es => f w (g w es)) n d.
Proof.
  revert n. induction d as [|c d IH]; intros [| |w es]; try done.
  cbn [update_dir]. f_equal. rewrite map_entry_twice.
  apply map_entry_ext. intros n. apply IH.
Qed.

(** A rewriting of a directory and one of a directory below it can be
    done in either order, when the former leaves the entry that leads to
    the latter alone. *)
Lemma update_dir_nest f g n d c d' :
  (forall w es G, f w (map_entry c G es) = map_entry c G (f w es)) ->
  update_dir f (update_dir g n (d ++ c :: d')) d
  = update_dir g (update_dir f n d) (d ++ c :: d').
Proof.
  intros Hf. revert n. induction d as [|c0 d IH]; intros [| |w es]; try done.
  - cbn [app update_dir]. rewrite Hf. done.
  - cbn [app update_dir]. f_equal. rewrite !map_entry_twice.
    apply map_entry_ext. intros n. apply IH.
Qed.

Lemma rmtree_entry_unfold name w es :
  rmtree_entry name w es
  = match assoc name es with
    | Some n =>
        if removable w (rmtree_node n) then remove_name name es
        else map_entry name (fun _ => rmtree_node n) es
    | None => es
    end.
Proof. reflexivity. Qed.

Lemma rmtree_entry_comm a b w es :
  a <> b ->
  rmtree_entry a w (rmtree_entry b w es)
  = rmtree_entry b w (rmtree_entry a w es).
Proof.
  intros Hne.
  rewrite (rmtree_entry_unfold a w (rmtree_entry b w es)),
          (rmtree_entry_unfold b w (rmtree_entry a w es)).
  rewrite (rmtree_entry_touches b w es a) by done.
  rewrite (rmtree_entry_touches a w es b) by done.
  rewrite !rmtree_entry_unfold.
  destruct (assoc a es) as [na|], (assoc b es) as [nb|]; try done.
  destruct (removable w (rmtree_node na)), (removable w (rmtree_node nb)).
  - apply remove_name_comm.
  - apply remove_name_map_entry. done.
  - symmetry. apply remove_name_map_entry. done.
  - apply map_entry_comm. done.
Qed.

Lemma rmtree_entry_map_entry a c w es G :
  a <> c ->
  rmtree_entry a w (map_entry c G es) = map_entry c G (rmtree_entry a w es).
Proof.
  intros Hne. rewrite !rmtree_entry_unfold.
  rewrite assoc_map_entry_ne by done.
  destruct (assoc a es) as [na|]; [|done].
  destruct (removable w (rmtree_node na)).
  - apply remove_name_map_entry. done.
  - apply map_entry_comm. done.
Qed.

Lemma fold_left_perm {A B} (f : B -> A -> B) (Inv : B -> Prop)
    (P : A -> Prop) l l' :
  (forall a n, P a -> Inv n -> Inv (f n a)) ->
  (forall a b n, P a -> P b -> Inv n -> f (f n a) b = f (f n b) a) ->
  l ≡ₚ l' -> (forall a, In a l -> P a) ->
  forall n, Inv n -> fold_left f l n = fold_left f l' n.
Proof.
  intros Hinv Hcomm Hp.
  induction Hp as [|x l l' Hp IH|x y l|l l' l'' Hp1 IH1 Hp2 IH2];
    intros HP n Hn.
  - done.
  - simpl. apply IH; [intros a Ha; apply HP; right; done|].
    apply Hinv; [apply HP; left; done|done].
  - simpl. rewrite (Hcomm y x); [done| | |done].
    + apply HP. left. done.
    + apply HP. right. left. done.
  - rewrite IH1 by done. apply IH2; [|done].
    intros a Ha. apply HP. eapply Permutation_in; [symmetry; done|done].
Qed.

Lemma remove_listed_file_tree root t w w' :
  single t -> real_dir (fs w) (parts root) ->
  remove_listed_file root t w = Done w' ->
  fs w' = update_dir (fun _ => remove_name t) (fs w) (parts root).
Proof.
  intros Ht Hr. unfold remove_listed_file.
  change (parts (join_rel root t)) with (target root t).
  rewrite (target_single _ _ Ht), (unlink_real_dir _ _ _ Hr).
  destruct (lstat_at (fs w) (parts root ++ [t])) as [m|] eqn:Em.
  - destruct (lstat_at (fs w) (parts root)) as [[| |[|]]|] eqn:Ed; try done.
    destruct m; try done; intros [= <-]; done.
  - intros [= <-]. symmetry.
    destruct (Hr (parts root)) as [wd Hwd]; [done|].
    apply lstat_at_dir_find in Hwd as [es Hes].
    eapply update_dir_id; [done|].
    rewrite (lstat_at_entry _ _ _ _ _ Hes) in Em.
    destruct (assoc t es) eqn:Ea; [done|]. apply remove_name_absent. done.
Qed.

(** The tree the file loop leaves when it ends normally. *)
Lemma files_phase_tree root files : forall w w',
  Forall single files -> real_dir (fs w) (parts root) ->
  for_each (remove_listed_file root) files w = Done w' ->
  fs w'
  = fold_left (fun n t => update_dir (fun _ => remove_name t) n (parts root))
      files (fs w).
Proof.
  induction files as [|t files IH]; intros w w' Hs Hr; simpl.
  - intros [= <-]. done.
  - destruct (remove_listed_file root t w) as [w1| |] eqn:E; try done.
    intros H. apply Forall_cons in Hs as [Hst Hs].
    rewrite <- (remove_listed_file_tree _ _ _ _ Hst Hr E).
    apply IH; [done| |done].
    destruct (remove_listed_file_Done root [t] t w w1) as [Hf _];
      [left; done|done|done|].
    destruct (Hf Hr) as [l Hl]. eapply real_dir_erased; done.
Qed.

Lemma files_phase_perm root files files' w w1 :
  Forall single files -> files ≡ₚ files' -> real_dir (fs w) (parts root) ->
  for_each (remove_listed_file root) files w = Done w1 ->
  exists w1',
    for_each (remove_listed_file root) files' w = Done w1' /\ fs w1' = fs w1.
Proof.
  intros Hs Hp Hr E.
  assert (Forall single files') as Hs'.
  { apply List.Forall_forall. intros t Ht.
    apply (proj1 (List.Forall_forall _ _) Hs).
    eapply Permutation_in; [symmetry; done|done]. }
  destruct (for_each (remove_listed_file root) files' w) as [w1'|e w'|] eqn:E'.
  - exists w1'. split; [done|].
    rewrite (files_phase_tree _ _ _ _ Hs Hr E),
            (files_phase_tree _ _ _ _ Hs' Hr E').
    symmetry.
    apply (fold_left_perm _ (fun _ => True) (fun _ => True)); try done.
    intros a b n _ _ _. rewrite !update_dir_twice.
    apply update_dir_ext. intros _ es. apply remove_name_comm.
  - destruct (files_phase_Raised_blocked _ _ _ _ _ Hs' Hr E') as (t & Ht & Hb).
    destruct (files_phase_blocked root files w t) as (e' & w'' & E'');
      [done|done| |done|congruence].
    eapply Permutation_in; [symmetry; done|done].
  - exfalso. eapply files_phase_fuel. done.
Qed.

Lemma rm_target_shape root n t :
  layout root n -> In t DIRS_TO_CLEAN ->
  rm_target root n t
  = (if is_dirb n (target root t)
     then update_dir (rmtree_entry (List.last (target root t) ""))
            n (removelast (target root t))
     else n).
Proof.
  intros Hl Ht. destruct (target_anchored root n t Hl Ht) as (d & name & Hp & _ & E).
  unfold rm_target. rewrite E, Hp, last_last, removelast_last.
  unfold is_dirb. destruct (lstat_at n (d ++ [name])) as [[| |]|]; done.
Qed.

Lemma rm_target_comm root n a b :
  layout root n -> In a DIRS_TO_CLEAN -> In b DIRS_TO_CLEAN ->
  rm_target root (rm_target root n a) b = rm_target root (rm_target root n b) a.
Proof.
  intros Hl Ha Hb. destruct (decide (a = b)) as [->|Hne]; [done|].
  pose proof (targets_diverge root a b Ha Hb Hne) as Hdiv.
  assert (is_dirb (rm_target root n a) (target root b)
          = is_dirb n (target root b)) as Fb.
  { unfold is_dirb, rm_target. rewrite anchored_frame; [done| |].
    - apply target_anchored; done.
    - apply diverge_not_prefix. done. }
  assert (is_dirb (rm_target root n b) (target root a)
          = is_dirb n (target root a)) as Fa.
  { unfold is_dirb, rm_target. rewrite anchored_frame; [done| |].
    - apply target_anchored; done.
    - apply diverge_not_prefix, diverge_sym. done. }
  rewrite (rm_target_shape root (rm_target root n a) b)
    by (try apply rm_target_layout; done).
  rewrite (rm_target_shape root (rm_target root n b) a)
    by (try apply rm_target_layout; done).
  rewrite Fa, Fb, !(rm_target_shape root n) by done.
  destruct (is_dirb n (target root a)), (is_dirb n (target root b)); try done.
  destruct (dirs_cases a Ha) as [(Sa & _ & _ & Da) | ->],
           (dirs_cases b Hb) as [(Sb & _ & _ & Db) | ->].
  - rewrite !target_single, !last_last, !removelast_last by done.
    rewrite !update_dir_twice. apply update_dir_ext. intros w es.
    apply rmtree_entry_comm. done.
  - rewrite target_docs_build, (target_single _ _ Sa).
    change (parts root ++ ["docs"; "build"])
      with (parts root ++ ["docs"] ++ ["build"]).
    rewrite (app_assoc (parts root) ["docs"] ["build"]).
    rewrite !last_last, !removelast_last. symmetry.
    apply (update_dir_nest _ _ _ _ "docs" []).
    intros w es G. apply rmtree_entry_map_entry. done.
  - rewrite target_docs_build, (target_single _ _ Sb).
    change (parts root ++ ["docs"; "build"])
      with (parts root ++ ["docs"] ++ ["build"]).
    rewrite (app_assoc (parts root) ["docs"] ["build"]).
    rewrite !last_last, !removelast_last.
    apply (update_dir_nest _ _ _ _ "docs" []).
    intros w es G. apply rmtree_entry_map_entry. done.
  - done.
Qed.

(** The tree the directory loop leaves is the same in every order. *)
Lemma dirs_phase_perm root dirs dirs' n :
  layout root n -> (forall a, In a dirs -> In a DIRS_TO_CLEAN) ->
  dirs ≡ₚ dirs' ->
  fold_left (rm_target root) dirs n = fold_left (rm_target root) dirs' n.
Proof.
  intros Hl Hd Hp.
  apply (fold_left_perm _ (layout root) (fun a => In a DIRS_TO_CLEAN));
    try done.
  - intros a m Ha Hm. apply rm_target_layout; done.
  - intros a b m Ha Hb Hm. apply rm_target_comm; done.
Qed.

Lemma for_each_alike {A} (body body' : A -> world * nat -> outcome (world * nat)) l :
  (forall a s s', same_tree s s' -> alike (body a s) (body' a s')) ->
  forall s s', same_tree s s' ->
    alike (for_each body l s) (for_each body' l s').
Proof.
  intros Hb. induction l as [|a l IH]; intros s s' Hs; simpl; [done|].
  pose proof (Hb a s s' Hs) as H.
  destruct (body a s), (body' a s'); try done. apply IH. done.
Qed.

Lemma bind_alike o o' (k k' : world * nat -> outcome (world * nat)) :
  alike o o' -> (forall s s', same_tree s s' -> alike (k s) (k' s')) ->
  alike (bind o k) (bind o' k').
Proof. intros H Hk. destruct o, o'; try done. apply Hk. done. Qed.

Lemma sweep_file_alike top name st st' :
  same_tree st st' -> alike (sweep_file top name st) (sweep_file top name st').
Proof.
  destruct st as [w k], st' as [w' k']. intros [Hfs Hk].
  cbn [fst snd] in Hfs, Hk. subst k'.
  unfold sweep_file. cbn [fst snd]. rewrite <- Hfs.
  destruct (isfile (fs w) (parts (join top name))
            && PyStr.endswith (text (join top name)) EXTENSIONS_TO_CLEAN).
  - destruct (unlink (fs w) (parts (join top name))); done.
  - done.
Qed.

(** The walk does not look at what has been printed. *)
Lemma walk_sweep_alike f : forall top st st',
  same_tree st st' -> alike (walk_sweep f top st) (walk_sweep f top st').
Proof.
  induction f as [|f IH]; intros top st st' Hs; [done|].
  rewrite !walk_sweep_S. pose proof Hs as [Hfs Hk]. rewrite <- Hfs.
  destruct (scandir (fs (fst st)) (parts top)) as [names|]; [|done].
  apply bind_alike.
  - apply for_each_alike; [|done]. intros a s s'. apply sweep_file_alike.
  - intros s s' Hss. apply for_each_alike; [|done].
    intros a s1 s1' H1. unfold descend. destruct (H1) as [<- _].
    destruct (islink (fs (fst s1)) (parts (join top a))); [done|].
    apply IH. done.
Qed.

Lemma sweep_alike root w w' :
  fs w = fs w' -> alike (sweep root w) (sweep root w').
Proof.
  intros Hfs. unfold sweep. apply bind_alike.
  - unfold os_walk_sweep. cbn [fst]. rewrite <- Hfs.
    apply walk_sweep_alike. done.
  - intros s s' Hs. unfold os_walk_sweep. destruct (Hs) as [<- _].
    apply walk_sweep_alike. done.
Qed.

Lemma filter_perm {A} (f : A -> bool) l l' :
  l ≡ₚ l' -> List.filter f l ≡ₚ List.filter f l'.
Proof.
  induction 1 as [|x l l' Hp IH|x y l|l l' l'' Hp1 IH1 Hp2 IH2]; simpl.
  - done.
  - destruct (f x); [constructor|]; done.
  - destruct (f x), (f y); try done. constructor.
  - etrans; done.
Qed.

(** The error with which the file loop ends is decided by the root
    directory alone. *)
Lemma files_phase_errno root files w e w' :
  Forall single files -> real_dir (fs w) (parts root) ->
  for_each (remove_listed_file root) files w = Raised e w' ->
  e = match lstat_at (fs w) (parts root) with
      | Some (S_IFDIR true) => EISDIR
      | _ => EACCES
      end.
Proof.
  intros Hs Hr E.
  destruct (for_each_Raised (remove_listed_file root)
              (fun s s' => real_dir (fs s) (parts root) ->
                 real_dir (fs s') (parts root)
                 /\ lstat_at (fs s') (parts root) = lstat_at (fs s) (parts root))
              ltac:(done)
              ltac:(intros a b c H1 H2 Ha; destruct (H1 Ha) as [Hb Eb];
                    destruct (H2 Hb) as [Hc Ec]; split; [done|congruence])
              files w e w') as (t & s1 & Ht & HR & Hb); [|done|].
  { intros a s1 s2 Ha Hd Hr1.
    destruct (files_body_filed root files Hs a s1 s2 Ha Hd Hr1) as [l Hl].
    split; [eapply real_dir_erased; done|].
    destruct (Hr1 (parts root)) as [wd Hwd]; [done|].
    rewrite Hwd. eapply erased_dir_kept; done. }
  destruct (HR Hr) as [Hr1 <-].
  apply remove_listed_file_Raised in Hb as (_ & Hne & Hu).
  assert (single t) as Hst by (apply (proj1 (List.Forall_forall _ _) Hs); done).
  rewrite (target_single _ _ Hst), (unlink_real_dir _ _ _ Hr1) in Hu.
  destruct (lstat_at (fs s1) (parts root ++ [t])) as [m|]; [|congruence].
  destruct (lstat_at (fs s1) (parts root)) as [[| |[|]]|]; try congruence.
  destruct m; congruence.
Qed.

(** X9.  The two allow-lists are Python sets, so the order in which each
    loop visits its entries is not fixed.  The outcome does not depend
    on it: if a run ends normally for one order of the two sets, it
    ends normally for every other with the same final tree and the same
    lines printed (in another order, the same count among them); and if
    it ends with an error for one order, it ends with the same error for
    every other. *)
Theorem main_order_independent root files dirs files' dirs' fs0 :
  layoutb root fs0 = true ->
  FILES_TO_CLEAN ≡ₚ files -> DIRS_TO_CLEAN ≡ₚ dirs ->
  FILES_TO_CLEAN ≡ₚ files' -> DIRS_TO_CLEAN ≡ₚ dirs' ->
  (forall wf, main root files dirs fs0 = Done wf ->
     exists wf', main root files' dirs' fs0 = Done wf'
                 /\ fs wf' = fs wf /\ stdout wf' ≡ₚ stdout wf)
  /\ (forall e w, main root files dirs fs0 = Raised e w ->
        exists w', main root files' dirs' fs0 = Raised e w').
Proof.
  intros Hl%layoutb_layout Hf Hd Hf' Hd'.
  pose proof (files_perm_single _ Hf) as Hs.
  pose proof (files_perm_single _ Hf') as Hs'.
  assert (files ≡ₚ files') as Hff by (etrans; [symmetry; done|done]).
  assert (dirs ≡ₚ dirs') as Hdd by (etrans; [symmetry; done|done]).
  assert (real_dir (fs (start root fs0)) (parts root)) as Hr by apply Hl.
  assert (NoDup files /\ NoDup files') as [Hnd Hnd'].
  { rewrite <- Hf, <- Hf'. split; apply (bool_decide_unpack _); vm_compute;
      exact I. }
  rewrite !main_eq. unfold bind.
  destruct (for_each _ files _) as [w1|e1 v1|] eqn:E1.
  - destruct (files_phase_perm _ _ _ _ _ Hs Hff Hr E1) as (w1' & E1' & Hw1).
    rewrite E1'.
    destruct (layout_after_dirs _ _ _ _ _ Hl Hf Hd E1) as [Hl1 Hl2].
    destruct (layout_after_dirs _ _ _ _ _ Hl Hf' Hd' E1') as [Hl1' Hl2'].
    assert (fs (after_dirs root dirs w1) = fs (after_dirs root dirs' w1'))
      as Hfs.
    { unfold after_dirs. cbn [fs]. rewrite Hw1.
      apply dirs_phase_perm; [done| |done].
      intros a Ha. apply (perm_In _ _ _ Hd Ha). }
    pose proof (sweep_alike root _ _ Hfs) as Hal.
    destruct (sweep root (after_dirs root dirs w1)) as [st|e2 v2|] eqn:E2,
             (sweep root (after_dirs root dirs' w1')) as [st'|e2' v2'|] eqn:E2';
      try done.
    + unfold report. split; [|done]. intros wf [= <-]. eexists.
      split; [done|].
      destruct Hal as [Ht Hn]. split; [done|].
      destruct (sweep_Done _ _ _ Hl2 E2) as ((Ho & _) & _).
      destruct (sweep_Done _ _ _ Hl2' E2') as ((Ho' & _) & _).
      cbn [fst stdout print] in *. rewrite Ho, Ho', Hn.
      unfold after_dirs. cbn [stdout].
      rewrite (files_phase_stdout _ _ _ _ Hnd Hs Hr E1),
              (files_phase_stdout _ _ _ _ Hnd' Hs' Hr E1').
      apply Permutation_app; [|done].
      apply Permutation_app; [|apply Permutation_map; symmetry; done].
      apply Permutation_app; [done|].
      apply Permutation_map, filter_perm. symmetry. done.
    + split; [done|]. intros e w [= <- <-]. destruct Hal as [-> _]. eauto.
  - split; [done|]. intros e w [= <- <-].
    destruct (files_phase_Raised_blocked _ _ _ _ _ Hs Hr E1) as (t & Ht & Hb).
    destruct (files_phase_blocked root files' (start root fs0) t)
      as (e' & w' & E'); [done|done| |done|].
    { eapply Permutation_in; done. }
    rewrite E'. exists w'.
    rewrite (files_phase_errno _ _ _ _ _ Hs Hr E1),
            (files_phase_errno _ _ _ _ _ Hs' Hr E'). done.
  - exfalso. eapply files_phase_fuel. done.
Qed.

Lemma main_order_independent_witness :
  let out := RootDir "/proj" :: Removed ".coverage" :: Removed "dump.rdb"
               :: map RemovingDir DIRS_TO_CLEAN ++ [RemovedCount 1] in
  main root0 FILES_TO_CLEAN DIRS_TO_CLEAN two_listed
  = Done {| fs := two_listed_done; stdout := out |}
  /\ exists wf',
       main root0 (rev FILES_TO_CLEAN) (rev DIRS_TO_CLEAN) two_listed = Done wf'
       /\ fs wf' = two_listed_done /\ stdout wf' ≡ₚ out.
Proof.
  intros out.
  assert (main root0 FILES_TO_CLEAN DIRS_TO_CLEAN two_listed
          = Done {| fs := two_listed_done; stdout := out |}) as E
    by (vm_compute; reflexivity).
  split; [exact E|].
  assert (layoutb root0 two_listed = true) as Hl by (vm_compute; reflexivity).
  destruct (main_order_independent root0 FILES_TO_CLEAN DIRS_TO_CLEAN
              (rev FILES_TO_CLEAN) (rev DIRS_TO_CLEAN) two_listed Hl
              (Permutation_refl _) (Permutation_refl _)
              (Permutation_rev _) (Permutation_rev _)) as [HD _].
  exact (HD _ E).
Defined.

(** *** The run only deletes *)

Lemma unique_names_Dir w es :
  unique_names (Dir w es) = true
  <-> NoDup (map fst es)
      /\ forall kv, In kv es -> unique_names (snd kv) = true.
Proof.
  cbn [unique_names].
  rewrite andb_true_iff, bool_decide_eq_true, forallb_forall. done.
Qed.

Lemma assoc_In k es n : assoc k es = Some n -> In (k, n) es.
Proof.
  induction es as [|[k' n'] es IH]; [done|]. cbn [assoc].
  destruct (String.eqb k k') eqn:E.
  - apply String.eqb_eq in E. intros [= ->]. subst. left. done.
  - intros H. right. auto.
Qed.

Lemma In_map_fst_filter (p : string * node -> bool) k es :
  In k (map fst (List.filter p es)) -> In k (map fst es).
Proof.
  intros ([k2 n2] & <- & [Hin _]%filter_In)%in_map_iff.
  apply in_map_iff. exists (k2, n2). done.
Qed.

Lemma NoDup_map_fst_filter (p : string * node -> bool) es :
  NoDup (map fst es) -> NoDup (map fst (List.filter p es)).
Proof.
  induction es as [|kv es IH]; [done|]. cbn [map]. intros [Hk Hnd]%NoDup_cons.
  simpl. destruct (p kv); [|auto]. cbn [map]. apply NoDup_cons.
  split; [|auto]. intros Hin%list_elem_of_In%In_map_fst_filter.
  apply Hk, list_elem_of_In. done.
Qed.

Lemma assoc_filter_unique (p : string * node -> bool) k es n :
  NoDup (map fst es) ->
  assoc k (List.filter p es) = Some n -> assoc k es = Some n.
Proof.
  induction es as [|[k' n'] es IH]; [done|]. cbn [map fst].
  intros [Hk Hnd]%NoDup_cons. simpl. destruct (p (k', n')).
  - cbn [assoc]. destruct (String.eqb k k'); [done|]. apply IH. done.
  - intros H. cbn [assoc]. destruct (String.eqb k k') eqn:E; [|auto].
    apply String.eqb_eq in E. subst k'. exfalso. apply Hk.
    apply list_elem_of_In. eapply In_map_fst_filter, assoc_Some_In. done.
Qed.

Lemma assoc_map_rm_child k es :
  assoc k (map rm_child es) = option_map rmtree_node (assoc k es).
Proof.
  induction es as [|[k' n'] es IH]; [done|]. cbn [map assoc].
  unfold rm_child at 1. cbn [fst snd]. destruct (String.eqb k k'); done.
Qed.

Lemma map_fst_rm_child es : map fst (map rm_child es) = map fst es.
Proof. induction es as [|kv es IH]; [done|]. cbn [map]. rewrite IH. done. Qed.

Lemma map_fst_map_entry k g es : map fst (map_entry k g es) = map fst es.
Proof.
  induction es as [|[k' n'] es IH]; [done|]. cbn [map_entry].
  destruct (String.eqb k k'); cbn [map fst]; rewrite ?IH; done.
Qed.

Lemma In_map_entry k g es kv :
  In kv (map_entry k g es) ->
  In kv es \/ exists n, In (k, n) es /\ kv = (k, g n).
Proof.
  induction es as [|[k' n'] es IH]; [done|]. cbn [map_entry].
  destruct (String.eqb k k') eqn:E.
  - apply String.eqb_eq in E. subst k'. intros [<-|Hin].
    + right. exists n'. split; [left; done|done].
    + left. right. done.
  - intros [<-|Hin]; [left; left; done|].
    destruct (IH Hin) as [H|(n & H & ->)]; [left; right; done|].
    right. exists n. split; [right; done|done].
Qed.

Lemma rmtree_node_unique n :
  unique_names n = true -> unique_names (rmtree_node n) = true.
Proof.
  induction n as [c|t|w es IH] using node_ind'; try done.
  rewrite rmtree_node_Dir, !unique_names_Dir. intros [Hnd Hch]. split.
  - unfold purge. apply NoDup_map_fst_filter. rewrite map_fst_rm_child. done.
  - intros kv [Hin _]%filter_In. apply in_map_iff in Hin as (kv0 & <- & Hin).
    cbn [rm_child snd]. rewrite List.Forall_forall in IH. auto.
Qed.

(** On a tree without duplicate names, what [rmtree] leaves of a node is
    part of the node. *)
Lemma rmtree_node_shrinks n :
  unique_names n = true -> shrinks n (rmtree_node n).
Proof.
  induction n as [c|t|w es IH] using node_ind'; try (intros _ q m H; exact H).
  rewrite rmtree_node_Dir, unique_names_Dir. intros [Hnd Hch] q m.
  destruct q as [|k r]; [done|]. unfold lstat_at. cbn [find].
  destruct (assoc k (purge w (map rm_child es))) as [ch'|] eqn:E; [|done].
  unfold purge in E. apply assoc_filter_unique in E;
    [|rewrite map_fst_rm_child; done].
  rewrite assoc_map_rm_child in E.
  destruct (assoc k es) as [ch|] eqn:Ek; [|done]. injection E as <-.
  apply assoc_In in Ek. rewrite List.Forall_forall in IH.
  apply (IH _ Ek (Hch _ Ek)).
Qed.

Lemma update_dir_unique f d : forall n,
  (forall w es, unique_names (Dir w es) = true ->
                unique_names (Dir w (f w es)) = true) ->
  unique_names n = true -> unique_names (update_dir f n d) = true.
Proof.
  induction d as [|c d IH]; intros [| |w es] Hf Hn; try done.
  - cbn [update_dir]. apply Hf. done.
  - cbn [update_dir]. apply unique_names_Dir in Hn as [Hnd Hch].
    apply unique_names_Dir. split; [rewrite map_fst_map_entry; done|].
    intros kv [Hin|(n & Hin & ->)]%In_map_entry; [auto|].
    cbn [snd]. apply IH; [done|]. apply (Hch _ Hin).
Qed.

Lemma update_dir_shrinks f d : forall n,
  (forall w es, unique_names (Dir w es) = true ->
                shrinks (Dir w es) (Dir w (f w es))) ->
  unique_names n = true -> shrinks n (update_dir f n d).
Proof.
  induction d as [|c d IH]; intros [| |w es] Hf Hn;
    try (intros q m H; exact H).
  - cbn [update_dir]. apply Hf. done.
  - cbn [update_dir]. intros [|k r] m; [done|]. unfold lstat_at. cbn [find].
    destruct (decide (c = k)) as [->|Hne].
    + rewrite assoc_map_entry_eq.
      destruct (assoc k es) as [ch|] eqn:Ek; [|done]. cbn [option_map].
      apply (IH ch Hf). apply unique_names_Dir in Hn as [_ Hch].
      apply (Hch _ (assoc_In _ _ _ Ek)).
    + rewrite assoc_map_entry_ne by done. done.
Qed.

Lemma remove_name_unique t w es :
  unique_names (Dir w es) = true ->
  unique_names (Dir w (remove_name t es)) = true.
Proof.
  rewrite !unique_names_Dir. intros [Hnd Hch]. split.
  - apply NoDup_map_fst_filter. done.
  - intros kv [Hin _]%filter_In. auto.
Qed.

Lemma rmtree_entry_unique name w es :
  unique_names (Dir w es) = true ->
  unique_names (Dir w (rmtree_entry name w es)) = true.
Proof.
  intros Hu. rewrite rmtree_entry_unfold.
  destruct (assoc name es) as [n|] eqn:En; [|done].
  destruct (removable w (rmtree_node n)); [apply remove_name_unique; done|].
  apply unique_names_Dir in Hu as [Hnd Hch]. apply unique_names_Dir.
  split; [rewrite map_fst_map_entry; done|].
  intros kv [Hin|(n' & Hin & ->)]%In_map_entry; [auto|]. cbn [snd].
  apply rmtree_node_unique. apply (Hch _ (assoc_In _ _ _ En)).
Qed.

Lemma rmtree_entry_shrinks name w es :
  unique_names (Dir w es) = true ->
  shrinks (Dir w es) (Dir w (rmtree_entry name w es)).
Proof.
  intros Hu [|k r] m; [done|]. unfold lstat_at. cbn [find].
  destruct (decide (k = name)) as [->|Hne].
  - rewrite rmtree_entry_unfold.
    destruct (assoc name es) as [n|] eqn:En; [|rewrite En; done].
    destruct (removable w (rmtree_node n)).
    + rewrite assoc_remove_name_eq. done.
    + rewrite assoc_map_entry_eq, En. cbn [option_map].
      apply (rmtree_node_shrinks n). apply unique_names_Dir in Hu as [_ Hch].
      apply (Hch _ (assoc_In _ _ _ En)).
  - rewrite (rmtree_entry_touches name w es k) by done. done.
Qed.

Lemma rm_target_only_deletes root n t :
  layout root n -> In t DIRS_TO_CLEAN -> unique_names n = true ->
  shrinks n (rm_target root n t) /\ unique_names (rm_target root n t) = true.
Proof.
  intros Hl Ht Hu. rewrite (rm_target_shape _ _ _ Hl Ht).
  destruct (is_dirb n (target root t)); [|split; [apply shrinks_refl|done]].
  split.
  - apply update_dir_shrinks; [|done]. intros w es. apply rmtree_entry_shrinks.
  - apply update_dir_unique; [|done]. intros w es. apply rmtree_entry_unique.
Qed.

Lemma dirs_phase_only_deletes root dirs : forall n,
  layout root n -> (forall a, In a dirs -> In a DIRS_TO_CLEAN) ->
  unique_names n = true ->
  shrinks n (fold_left (rm_target root) dirs n).
Proof.
  induction dirs as [|t dirs IH]; intros n Hl Hd Hu; [apply shrinks_refl|].
  cbn [fold_left].
  destruct (rm_target_only_deletes root n t Hl (Hd _ (or_introl eq_refl)) Hu)
    as [Hs Hu'].
  eapply shrinks_trans; [done|]. apply IH; [|auto with datatypes|done].
  apply rm_target_layout; [done|]. apply Hd. left. done.
Qed.

Lemma files_phase_unique root files w w' :
  Forall single files -> real_dir (fs w) (parts root) ->
  for_each (remove_listed_file root) files w = Done w' ->
  unique_names (fs w) = true -> unique_names (fs w') = true.
Proof.
  intros Hs Hr E. rewrite (files_phase_tree _ _ _ _ Hs Hr E). clear.
  generalize (fs w). induction files as [|t files IH]; intros n Hu; [done|].
  cbn [fold_left]. apply IH. apply update_dir_unique; [|done].
  intros wd es. apply remove_name_unique.
Qed.

(** X11.  The run only deletes.  On a tree in which no directory lists
    a name twice, every entry that is there after the run, ended
    normally or by an error, was there before it at the same path, and
    is what it was: a file with the same contents, a link to the same
    target, a directory with the same write bit.  Nothing is created,
    renamed or rewritten. *)
Theorem main_only_deletes root files dirs fs0 :
  layoutb root fs0 = true -> unique_names fs0 = true ->
  FILES_TO_CLEAN ≡ₚ files -> DIRS_TO_CLEAN ≡ₚ dirs ->
  (forall wf, main root files dirs fs0 = Done wf -> shrinks fs0 (fs wf))
  /\ (forall e w, main root files dirs fs0 = Raised e w -> shrinks fs0 (fs w)).
Proof.
  intros Hl%layoutb_layout Hu Hf Hd.
  pose proof (files_perm_single _ Hf) as Hs.
  assert (real_dir (fs (start root fs0)) (parts root)) as Hr by apply Hl.
  rewrite !main_eq. unfold bind.
  destruct (for_each _ files _) as [w1|e1 v1|] eqn:E1.
  - destruct (files_phase_Done _ _ _ _ Hs Hr E1) as [[l Hl1%erased_shrinks] _].
    pose proof (files_phase_unique _ _ _ _ Hs Hr E1 Hu) as Hu1.
    destruct (layout_after_dirs _ _ _ _ _ Hl Hf Hd E1) as [Hl1' _].
    assert (shrinks fs0 (fs (after_dirs root dirs w1))) as H2.
    { eapply shrinks_trans; [exact Hl1|]. unfold after_dirs. cbn [fs].
      apply dirs_phase_only_deletes; [done| |done].
      intros a Ha. apply (perm_In _ _ _ Hd Ha). }
    destruct (sweep_swept root (after_dirs root dirs w1)) as [HD HR].
    destruct (sweep root (after_dirs root dirs w1)) as [st|e2 v2|] eqn:E2.
    + split; [|done]. unfold report. intros wf [= <-]. cbn [print fs].
      destruct (HD _ eq_refl) as (_ & l2 & H3%erased_shrinks & _).
      eapply shrinks_trans; done.
    + split; [done|]. intros e w [= <- <-].
      destruct (HR _ _ eq_refl) as (k & _ & l2 & H3%erased_shrinks & _).
      eapply shrinks_trans; done.
    + split; done.
  - split; [done|]. intros e w [= <- <-].
    destruct (files_phase_Raised_state _ _ _ _ _ Hs Hr E1)
      as [l Hl1%erased_shrinks].
    exact Hl1.
  - split; done.
Qed.

Lemma main_only_deletes_witness :
  let wf := {| fs := locked_build_done;
               stdout := RootDir "/proj" :: map RemovingDir DIRS_TO_CLEAN
                           ++ [RemovedCount 1] |} in
  unique_names locked_build = true
  /\ main root0 FILES_TO_CLEAN DIRS_TO_CLEAN locked_build = Done wf
  /\ lstat_at (fs wf) ["proj"; "build"; "keep"; "data"] = Some (S_IFREG "d")
  /\ lstat_at locked_build ["proj"; "build"; "keep"; "data"]
     = Some (S_IFREG "d").
Proof.
  intros wf.
  assert (unique_names locked_build = true) as Hu by (vm_compute; reflexivity).
  assert (main root0 FILES_TO_CLEAN DIRS_TO_CLEAN locked_build = Done wf) as E
    by (vm_compute; reflexivity).
  assert (lstat_at (fs wf) ["proj"; "build"; "keep"; "data"]
          = Some (S_IFREG "d")) as Hq by (vm_compute; reflexivity).
  split; [exact Hu|]. split; [exact E|]. split; [exact Hq|].
  assert (layoutb root0 locked_build = true) as Hl by (vm_compute; reflexivity).
  destruct (main_only_deletes root0 FILES_TO_CLEAN DIRS_TO_CLEAN locked_build
              Hl Hu (Permutation_refl _) (Permutation_refl _)) as [HD _].
  exact (HD wf E _ _ Hq).
Defined.

(** *** The run always ends *)

(** When a path resolves, the path without its last component resolves
    too, to a directory that holds the last component; and unless that
    entry is a link, the path resolves to it. *)
Lemma resolve_snoc fuel : forall n cur ini name c,
  resolve fuel n cur (ini ++ [name]) = Ok c ->
  exists d m,
    resolve fuel n cur ini = Ok d
    /\ lstat_at n (d ++ [name]) = Some m
    /\ ((forall t, m <> S_IFLNK t) -> c = d ++ [name]).
Proof.
  induction fuel as [|f IHf]; intros n cur ini; revert cur;
    induction ini as [|c0 ini IHi]; intros cur name c; cbn [app];
    rewrite !resolve_cons, ?resolve_nil;
    destruct (lstat_at n (cur ++ _)) as [[ct|t|w]|] eqn:E; try done.
  - intros [= <-]. exists cur, (S_IFREG ct). done.
  - intros [= <-]. exists cur, (S_IFDIR w). done.
  - destruct (ini ++ [name]) eqn:El; [destruct ini; done|done].
  - apply IHi.
  - intros [= <-]. exists cur, (S_IFREG ct). done.
  - intros _. exists cur, (S_IFLNK t). split; [done|]. split; [done|].
    intros H. exfalso. eapply H. done.
  - intros [= <-]. exists cur, (S_IFDIR w). done.
  - destruct (ini ++ [name]) eqn:El; [destruct ini; done|done].
  - rewrite app_assoc. apply IHf.
  - apply IHi.
Qed.

Lemma lstat_snoc n p a :
  lstat n (p ++ [a])
  = match resolve_parent n (p ++ [a]) with
    | Err e => Err e
    | Ok (d, name) =>
        match lstat_at n (d ++ [name]) with
        | Some m => Ok m
        | None => Err ENOENT
        end
    end.
Proof. destruct p; reflexivity. Qed.

Lemma scandir_Ok n p names :
  scandir n p = Ok names ->
  exists d w es,
    realpath n p = Ok d /\ find n d = Some (Dir w es) /\ names = map fst es.
Proof.
  unfold scandir. destruct (realpath n p) as [d|]; [|done].
  destruct (find n d) as [[| |w es]|] eqn:E; try done.
  intros [= <-]. eauto 6.
Qed.

(** A budget above the depth of the tree below the directory that [top]
    resolves to, if it resolves, is never used up: the walk goes down
    into directories proper only, never through a link. *)
Lemma walk_sweep_total f : forall top st k,
  (forall d, realpath (fs (fst st)) (parts top) = Ok d ->
             bounded (fs (fst st)) d k) ->
  k < f -> walk_sweep f top st <> OutOfFuel.
Proof.
  induction f as [|f IH]; intros top st k Hb Hk; [lia|].
  rewrite walk_sweep_S.
  destruct (scandir (fs (fst st)) (parts top)) as [names|] eqn:Es; [|done].
  destruct (scandir_Ok _ _ _ Es) as (d & w & es & Hd & Hfind & ->).
  specialize (Hb d Hd).
  unfold bind. destruct (for_each (sweep_file top) _ st) as [st1|e1 w1|] eqn:E1.
  - intros H.
    apply (for_each_OutOfFuel _ swept swept_refl swept_trans) in H;
      [|apply descend_Done_swept].
    destruct H as (a & s1 & Hin & Hs & Ho).
    apply sweep_files_Done in E1.
    pose proof (swept_shrinks _ _ (swept_trans _ _ _ E1 Hs)) as Hsh.
    apply in_dirs_of in Hin as [Hin _].
    apply (listed_iff _ _ _ _ _ Hfind) in Hin as [m Hm].
    pose proof (Hb [a] m Hm) as Hlen. cbn [length] in Hlen.
    destruct k as [|k]; [lia|].
    unfold descend in Ho.
    destruct (islink (fs (fst s1)) (parts (join top a))) eqn:El; [done|].
    revert Ho. apply (IH _ _ k); [|lia].
    intros d' Hd'. cbn [join parts] in Hd', El. unfold realpath in Hd'.
    destruct (resolve_snoc _ _ _ _ _ _ Hd') as (d1 & m1 & Hd1 & Hm1 & Hc).
    assert (d1 = d) as ->.
    { pose proof (resolve_shrinks _ _ _ _ _ _ Hsh Hd1) as H.
      unfold realpath in Hd. congruence. }
    destruct (lstat_at_snoc_Some _ _ _ _ Hm1) as [wd Hwd].
    unfold islink in El. rewrite lstat_snoc in El.
    unfold resolve_parent, realpath in El.
    rewrite split_last_snoc, Hd1, Hwd, Hm1 in El.
    rewrite Hc by (intros t ->; done).
    apply bounded_snoc. eapply bounded_shrinks; done.
  - done.
  - intros _.
    apply (for_each_OutOfFuel _ swept swept_refl swept_trans) in E1;
      [|apply sweep_file_Done_swept].
    destruct E1 as (a & s1 & _ & _ & Ho). eapply sweep_file_fuel. done.
Qed.

Lemma os_walk_sweep_total top st : os_walk_sweep top st <> OutOfFuel.
Proof.
  unfold os_walk_sweep.
  apply (walk_sweep_total _ _ _ (height (fs (fst st)))); [|lia].
  intros d _. apply bounded_height.
Qed.

(** X12.  The run always ends, whatever the tree holds, links that form
    a cycle included, and whatever the order of the loops: it returns
    normally or with an error.  The two walks never use up their
    recursion budget, the height of the tree, because [os.walk] goes
    down into directories proper only and never through a link. *)
Theorem main_always_ends root files dirs fs0 :
  (exists wf, main root files dirs fs0 = Done wf)
  \/ (exists e w, main root files dirs fs0 = Raised e w).
Proof.
  assert (forall w, sweep root w <> OutOfFuel) as Hsw.
  { intros w. rewrite sweep_eq. unfold bind.
    destruct (os_walk_sweep (nt_top root) (w, 0)) as [st1|e1 w1|] eqn:E1.
    - apply os_walk_sweep_total.
    - done.
    - exfalso. eapply os_walk_sweep_total. done. }
  rewrite main_eq. unfold bind.
  destruct (for_each _ files _) as [w1|e1 v1|] eqn:E1.
  - destruct (sweep root (after_dirs root dirs w1)) as [st|e2 v2|] eqn:E2.
    + left. unfold report. eauto.
    + right. eauto.
    + exfalso. eapply Hsw. done.
  - right. eauto.
  - exfalso. eapply files_phase_fuel. done.
Qed.

Lemma main_always_ends_witness :
  main root0 FILES_TO_CLEAN DIRS_TO_CLEAN cyclic
  = Done {| fs := Dir true
                    [("proj",
                      Dir true
                        [("nautilus_trader",
                          Dir true
                            [("loop", Symlink ["proj"; "nautilus_trader"]);
                             ("self",
                              Symlink ["proj"; "nautilus_trader"; "self"]);
                             ("sub", Dir true [("up", Symlink ["proj"])])]);
                         ("examples",
                          Symlink ["proj"; "nautilus_trader"; "sub"])])];
            stdout := RootDir "/proj" :: map RemovingDir DIRS_TO_CLEAN
                        ++ [RemovedCount 2] |}
  /\ ((exists wf, main root0 FILES_TO_CLEAN DIRS_TO_CLEAN cyclic = Done wf)
      \/ (exists e w,
            main root0 FILES_TO_CLEAN DIRS_TO_CLEAN cyclic = Raised e w)).
Proof.
  split; [vm_compute; reflexivity|].
  exact (main_always_ends root0 FILES_TO_CLEAN DIRS_TO_CLEAN cyclic).
Defined.

(** *** A subtree root that is a link *)

Lemma realpath_via_link n r x D rest :
  real_dir n r -> lstat_at n (r ++ [x]) = Some (S_IFLNK D) -> real_dir n D ->
  realpath n (r ++ x :: rest) = resolve (pred MAXSYMLINKS) n D rest.
Proof.
  intros Hr Hx HD. rewrite (realpath_real_dir _ _ _ Hr).
  rewrite resolve_cons, Hx. change MAXSYMLINKS with (S (pred MAXSYMLINKS)).
  cbn iota. apply (resolve_through_dirs _ _ [] D rest).
  intros q _ Hq. apply HD. done.
Qed.

Lemma not_ext_nautilus_trader r : ~ ext_name (r ++ ["nautilus_trader"]).
Proof.
  intros (d & nm & E & H). apply app_inj_tail in E as [_ <-].
  vm_compute in H. done.
Qed.

(** What the resolution through the link rests on is still there after
    any stretch of the sweep. *)
Lemma link_kept root n l n' D :
  erased ext_name n l n' ->
  real_dir n (parts root) ->
  lstat_at n (parts root ++ ["nautilus_trader"]) = Some (S_IFLNK D) ->
  real_dir n D ->
  real_dir n' (parts root)
  /\ lstat_at n' (parts root ++ ["nautilus_trader"]) = Some (S_IFLNK D)
  /\ real_dir n' D.
Proof.
  intros E Hr Hx HD. split; [eapply real_dir_erased; done|].
  split; [|eapply real_dir_erased; done].
  rewrite (erased_off _ _ _ _ _ E); [done|]. apply not_ext_nautilus_trader.
Qed.

(** X13.  A subtree root that is a symbolic link is followed.  When
    [root/nautilus_trader] is a link to a directory [D], anywhere in the
    file system, [os.walk] lists [D], and a sweep that ends normally has
    deleted every regular file directly in [D] whose name ends with a
    configured suffix, also when [D] lies outside the project root. *)
Theorem sweep_follows_top_link root w D name content :
  real_dir (fs w) (parts root) ->
  lstat_at (fs w) (parts root ++ ["nautilus_trader"]) = Some (S_IFLNK D) ->
  real_dir (fs w) D ->
  lstat_at (fs w) (D ++ [name]) = Some (S_IFREG content) ->
  PyStr.endswith name EXTENSIONS_TO_CLEAN = true ->
  forall st, sweep root w = Done st ->
    lstat_at (fs (fst st)) (D ++ [name]) = None.
Proof.
  intros Hr Hx HD Hn He st. rewrite sweep_eq. unfold bind.
  destruct (os_walk_sweep (nt_top root) (w, 0)) as [st1| |] eqn:E1; try done.
  intros E2.
  assert (forall a b, swept a b ->
            lstat_at (fs (fst a)) (D ++ [name]) = None ->
            lstat_at (fs (fst b)) (D ++ [name]) = None) as Hgone.
  { intros a b Hs%swept_shrinks Ha.
    destruct (lstat_at (fs (fst b)) (D ++ [name])) as [m|] eqn:Eb; [|done].
    apply Hs in Eb. congruence. }
  apply (Hgone st1 st); [apply (os_walk_sweep_swept (ex_top root) st1); done|].
  clear E2 st. unfold os_walk_sweep in E1. rewrite walk_sweep_S in E1.
  cbn [fst] in E1. rewrite nt_parts in E1.
  assert (forall n rest,
            real_dir n (parts root) ->
            lstat_at n (parts root ++ ["nautilus_trader"]) = Some (S_IFLNK D) ->
            real_dir n D ->
            realpath n ((parts root ++ ["nautilus_trader"]) ++ rest)
            = resolve (pred MAXSYMLINKS) n D rest) as Hvia.
  { intros n rest ? ? ?. rewrite <- app_assoc.
    apply realpath_via_link; done. }
  destruct (HD D) as [wd Hwd]; [done|].
  destruct (lstat_at_dir_find _ _ _ Hwd) as [es Hes].
  assert (scandir (fs w) (parts root ++ ["nautilus_trader"])
          = Ok (map fst es)) as Hscan.
  { unfold scandir.
    rewrite <- (app_nil_r (parts root ++ ["nautilus_trader"])), Hvia by done.
    rewrite resolve_nil, Hes. done. }
  rewrite Hscan in E1. unfold bind in E1.
  destruct (for_each (sweep_file (nt_top root)) _ (w, 0)) as [sa| |] eqn:Ea;
    try done.
  apply (Hgone sa st1).
  { eapply (for_each_Done _ swept swept_refl swept_trans); [|exact E1].
    apply descend_Done_swept. }
  assert (In name (nondirs_of (fs w) (nt_top root) (map fst es))) as Hin.
  { apply in_nondirs_of. split.
    - apply (listed_iff _ _ _ _ _ Hes). eauto.
    - unfold entry_is_dir, isdir, stat. rewrite nt_parts, Hvia by done.
      rewrite resolve_cons, Hn. cbn iota. rewrite Hn. done. }
  destruct (for_each_Done_elem _ swept swept_refl swept_trans _ _ _ name
              (sweep_file_Done_swept (nt_top root) _) Ea Hin)
    as (s1 & s2 & Hs1 & Hb & Hs2).
  apply (Hgone s2 sa Hs2).
  destruct Hs1 as (_ & l & El & _). cbn [fst fs] in El.
  destruct (link_kept _ _ _ _ _ El Hr Hx HD) as (Hr1 & Hx1 & HD1).
  destruct (decide ((D ++ [name]) ∈ l)) as [Hl|Hl].
  { apply (Hgone s1 s2); [eapply sweep_file_Done; done|].
    destruct El as (_ & _ & Q & _). rewrite Q.
    destruct (decide (_ ∈ l)); done. }
  assert (lstat_at (fs (fst s1)) (D ++ [name]) = Some (S_IFREG content))
    as Hn1.
  { destruct El as (_ & _ & Q & _). rewrite Q.
    destruct (decide (_ ∈ l)); done. }
  assert (isfile (fs (fst s1)) (parts (join (nt_top root) name)) = true) as Hf.
  { cbn [join parts]. unfold isfile, stat. rewrite nt_parts, Hvia by done.
    rewrite resolve_cons, Hn1. cbn iota. rewrite Hn1. done. }
  pose proof (endswith_join_name (nt_top root) name) as He1.
  rewrite He in He1.
  unfold sweep_file in Hb. rewrite Hf, He1 in Hb. cbn [andb] in Hb.
  destruct (unlink (fs (fst s1)) (parts (join (nt_top root) name)))
    as [fs'|] eqn:Hu; [|done].
  injection Hb as <-. cbn [fst set_fs fs].
  destruct (sweep_file_unlinks _ _ _ _ Hf He1 Hu) as (d & Hp & Hd).
  rewrite nt_parts in Hp.
  apply resolve_parent_Ok in Hp as [(ini & Hi & Hri) _].
  apply app_inj_tail in Hi as [<- _].
  rewrite <- (app_nil_r (parts root ++ ["nautilus_trader"])), Hvia in Hri
    by done.
  rewrite resolve_nil in Hri. injection Hri as <-.
  eapply erased_one_gone. done.
Qed.

Lemma real_dir_check n d :
  forallb (is_dirb n) (prefixes d) = true -> real_dir n d.
Proof.
  rewrite forallb_forall. intros H q Hq%prefixes_spec. specialize (H q Hq).
  unfold is_dirb in H. destruct (lstat_at n q) as [[| |wd]|]; try done. eauto.
Qed.

Lemma sweep_follows_top_link_witness :
  lstat_at linked_top ["opt"; "site"; "lib.so"] = Some (S_IFREG "so")
  /\ sweep root0 {| fs := linked_top; stdout := [] |}
     = Done ({| fs := linked_top_swept; stdout := [] |}, 1)
  /\ lstat_at linked_top_swept (["opt"; "site"] ++ ["lib.so"]) = None.
Proof.
  assert (lstat_at linked_top (["opt"; "site"] ++ ["lib.so"])
          = Some (S_IFREG "so")) as Hn by (vm_compute; reflexivity).
  assert (sweep root0 {| fs := linked_top; stdout := [] |}
          = Done ({| fs := linked_top_swept; stdout := [] |}, 1)) as E
    by (vm_compute; reflexivity).
  split; [exact Hn|]. split; [exact E|].
  assert (real_dir linked_top (parts root0)) as Hr
    by (apply real_dir_check; vm_compute; reflexivity).
  assert (real_dir linked_top ["opt"; "site"]) as HD
    by (apply real_dir_check; vm_compute; reflexivity).
  exact (sweep_follows_top_link root0 {| fs := linked_top; stdout := [] |}
           ["opt"; "site"] "lib.so" "so" Hr eq_refl HD Hn eq_refl _ E).
Defined.

(** X14.  The directory loop follows a parent that is a link.  When
    [root/docs] is a symbolic link to a directory [D], anywhere in the
    file system, the turn of the loop for [docs/build] works on
    [D/build]: if that is a directory in which everything can be
    deleted, it is gone afterwards with all it held.  ([rmtree] refuses a
    path that is itself a link, not one that leads through a link.) *)
Theorem dir_loop_follows_linked_docs root w D wd es :
  real_dir (fs w) (parts root) ->
  lstat_at (fs w) (parts root ++ ["docs"]) = Some (S_IFLNK D) ->
  real_dir (fs w) D ->
  lstat_at (fs w) D = Some (S_IFDIR true) ->
  find (fs w) (D ++ ["build"]) = Some (Dir wd es) ->
  deletable (Dir wd es) = true ->
  exists w',
    remove_listed_dir root "docs/build" w = Done w'
    /\ forall r, lstat_at (fs w') (D ++ "build" :: r) = None.
Proof.
  intros Hr Hx HD Hw Hb Hdel. eexists. split; [reflexivity|]. intros r.
  cbn [fs set_fs print].
  change (parts (join_rel root "docs/build")) with (target root "docs/build").
  rewrite target_docs_build.
  change (parts root ++ ["docs"; "build"])
    with (parts root ++ ["docs"] ++ ["build"]).
  rewrite app_assoc. unfold rmtree_ignore_errors, resolve_parent.
  rewrite split_last_snoc.
  rewrite (realpath_via_link _ _ _ _ [] Hr Hx HD), resolve_nil, Hw.
  cbn beta iota.
  assert (lstat_at (fs w) (D ++ ["build"]) = Some (S_IFDIR wd)) as ->
    by (unfold lstat_at; rewrite Hb; done).
  destruct (lstat_at_dir_find _ _ _ Hw) as [es0 Hes0].
  assert (assoc "build" es0 = Some (Dir wd es)) as Ha.
  { rewrite find_app, Hes0 in Hb. cbn [find] in Hb.
    destruct (assoc "build" es0); done. }
  unfold lstat_at.
  rewrite (find_update_dir_at _ _ _ _ _ ("build" :: r) Hes0). cbn [find].
  rewrite rmtree_entry_unfold, Ha, (rmtree_node_deletable _ Hdel).
  rewrite assoc_remove_name_eq. done.
Qed.

Lemma dir_loop_follows_linked_docs_witness :
  lstat_at linked_docs ["srv"; "www"; "build"; "index.html"]
  = Some (S_IFREG "page")
  /\ exists w',
       remove_listed_dir root0 "docs/build" {| fs := linked_docs; stdout := [] |}
       = Done w'
       /\ forall r, lstat_at (fs w') (["srv"; "www"] ++ "build" :: r) = None.
Proof.
  split; [vm_compute; reflexivity|].
  assert (real_dir linked_docs (parts root0)) as Hr
    by (apply real_dir_check; vm_compute; reflexivity).
  assert (real_dir linked_docs ["srv"; "www"]) as HD
    by (apply real_dir_check; vm_compute; reflexivity).
  assert (deletable (Dir true [("index.html", File "page")]) = true) as Hdel
    by (vm_compute; reflexivity).
  exact (dir_loop_follows_linked_docs root0
           {| fs := linked_docs; stdout := [] |} ["srv"; "www"] true
           [("index.html", File "page")] Hr eq_refl HD eq_refl eq_refl Hdel).
Defined.

(** *** The entries of both allow-lists *)

Lemma shared_dead root dirs : forall n,
  layout root n ->
  (forall t, In t FILES_TO_CLEAN -> lstat_at n (parts root ++ [t]) = None) ->
  (forall a, In a dirs -> In a DIRS_TO_CLEAN) ->
  fold_left (rm_target root) dirs n
  = fold_left (rm_target root) (List.filter (fun t => negb (shared t)) dirs) n.
Proof.
  induction dirs as [|a dirs IH]; intros n Hl Habs Hd; [done|].
  assert (In a DIRS_TO_CLEAN) as Ha by (apply Hd; left; done).
  simpl. destruct (shared a) eqn:Es; cbn [negb].
  - apply existsb_exists in Es as (t & Ht & ->%String.eqb_eq).
    assert (rm_target root n t = n) as ->.
    { apply anchored_absent; [apply target_anchored; done|].
      rewrite (target_single _ _ (files_single _ Ht)), (Habs _ Ht). done. }
    apply IH; [done|done|]. intros b Hb. apply Hd. right. done.
  - cbn [fold_left]. apply IH.
    + apply rm_target_layout; done.
    + intros t Ht.
      apply (dirs_phase_absent root [a] n (parts root ++ [t])); [done| | |auto].
      * intros b [<-|[]]. done.
      * intros b [<-|[]]. apply target_vs_entry. done.
    + intros b Hb. apply Hd. right. done.
Qed.

(** X15.  The two entries that are in both allow-lists, [coverage.xml]
    and [dump.rdb], never act as directory entries.  A run in which the
    directory loop skips them ends as the run of the script does:
    normally with the same final tree and the same count, or with the
    same error and the same tree.  (When one of them is a directory the
    file loop has failed before the directory loop is reached; when it is
    not, the file loop has removed it.) *)
Theorem shared_entries_never_act root files dirs fs0 :
  layoutb root fs0 = true -> FILES_TO_CLEAN ≡ₚ files ->
  DIRS_TO_CLEAN ≡ₚ dirs ->
  let dirs' := List.filter (fun t => negb (shared t)) dirs in
  (forall wf, main root files dirs fs0 = Done wf ->
     exists wf', main root files dirs' fs0 = Done wf'
                 /\ fs wf' = fs wf
                 /\ List.filter counted (stdout wf')
                    = List.filter counted (stdout wf))
  /\ (forall e w, main root files dirs fs0 = Raised e w ->
        exists w', main root files dirs' fs0 = Raised e w' /\ fs w' = fs w).
Proof.
  intros Hlb Hf Hd dirs'. pose proof (layoutb_layout _ _ Hlb) as Hl.
  pose proof (files_perm_single _ Hf) as Hs.
  assert (real_dir (fs (start root fs0)) (parts root)) as Hr by apply Hl.
  rewrite !main_eq. unfold bind.
  destruct (for_each _ files _) as [w1|e1 v1|] eqn:E1.
  - destruct (files_phase_Done _ _ _ _ Hs Hr E1) as [_ Habs].
    destruct (layout_after_dirs _ _ _ _ _ Hl Hf Hd E1) as [Hl1 Hl2].
    assert (fs (after_dirs root dirs w1) = fs (after_dirs root dirs' w1))
      as Hfs.
    { unfold after_dirs. cbn [fs]. apply shared_dead; [done| |].
      - intros t Ht. apply Habs. apply (perm_In _ _ _ (symmetry Hf)).
        eapply Permutation_in; [|done]. done.
      - intros a Ha. apply (perm_In _ _ _ Hd Ha). }
    assert (layout root (fs (after_dirs root dirs' w1))) as Hl2'
      by (rewrite <- Hfs; done).
    pose proof (sweep_alike root _ _ Hfs) as Hal.
    destruct (sweep root (after_dirs root dirs w1)) as [st|e2 v2|] eqn:E2,
             (sweep root (after_dirs root dirs' w1)) as [st'|e2' v2'|] eqn:E2';
      try done.
    + unfold report. split; [|done]. intros wf [= <-]. eexists.
      split; [done|]. destruct Hal as [Ht Hn]. split; [done|].
      destruct (sweep_Done _ _ _ Hl2 E2) as ((Ho & _) & _).
      destruct (sweep_Done _ _ _ Hl2' E2') as ((Ho' & _) & _).
      cbn [fst stdout print] in *. rewrite Ho, Ho', Hn.
      unfold after_dirs. cbn [stdout].
      rewrite !List.filter_app. f_equal. f_equal.
      assert (forall l, List.filter counted (map RemovingDir l) = []) as Hz
        by (induction l; done).
      rewrite !Hz. done.
    + split; [done|]. intros e w [= <- <-]. destruct Hal as [-> Hw]. eauto.
  - split; [done|]. intros e w [= <- <-]. eauto.
  - split; done.
Qed.

Lemma shared_entries_never_act_witness :
  let out := RootDir "/proj" :: Removed ".coverage" :: Removed "dump.rdb"
               :: map RemovingDir DIRS_TO_CLEAN ++ [RemovedCount 1] in
  main root0 FILES_TO_CLEAN DIRS_TO_CLEAN two_listed
  = Done {| fs := two_listed_done; stdout := out |}
  /\ exists wf',
       main root0 FILES_TO_CLEAN
         [".nox"; ".profile"; ".pytest_cache"; "__pycache__"; "build"; "dist";
          "docs/build"] two_listed = Done wf'
       /\ fs wf' = two_listed_done
       /\ List.filter counted (stdout wf') = [RemovedCount 1].
Proof.
  intros out.
  assert (main root0 FILES_TO_CLEAN DIRS_TO_CLEAN two_listed
          = Done {| fs := two_listed_done; stdout := out |}) as E
    by (vm_compute; reflexivity).
  split; [exact E|].
  assert (layoutb root0 two_listed = true) as Hl by (vm_compute; reflexivity).
  destruct (shared_entries_never_act root0 FILES_TO_CLEAN DIRS_TO_CLEAN
              two_listed Hl (Permutation_refl _) (Permutation_refl _))
    as [HD _].
  exact (HD _ E).
Defined.

(** *** The project root *)

Import PosixPath.

Lemma chars_of_chars l : PyStr.chars (of_chars l) = l.
Proof. apply list_ascii_of_string_of_list_ascii. Qed.

Lemma of_chars_chars s : of_chars (PyStr.chars s) = s.
Proof. apply string_of_list_ascii_of_string. Qed.

Lemma normal_name_chars c :
  normal_name c = true ->
  exists a r,
    PyStr.chars c = a :: r /\ Ascii.eqb a "/" = false
    /\ forallb (fun x => negb (Ascii.eqb x "/"%char)) (PyStr.chars c) = true
    /\ String.eqb c "" = false /\ String.eqb c "." = false
    /\ String.eqb c ".." = false.
Proof.
  unfold normal_name, plain_name, no_slash.
  intros [[[H1 H2]%andb_true_iff H3]%andb_true_iff H4]%andb_true_iff.
  apply negb_true_iff in H1, H3, H4.
  destruct (PyStr.chars c) as [|a r] eqn:E.
  - apply String.eqb_neq in H1. exfalso. apply H1. apply chars_inj.
    rewrite E. done.
  - exists a, r. pose proof H2 as H2'. cbn [forallb] in H2'.
    apply andb_true_iff in H2' as [Ha _]. apply negb_true_iff in Ha. done.
Qed.

Lemma normal_name_plain c : normal_name c = true -> plain_name c = true.
Proof.
  unfold normal_name. intros [[H _]%andb_true_iff _]%andb_true_iff. done.
Qed.

Lemma chars_absolute cs :
  cs <> [] -> PyStr.chars (absolute cs) = slashed cs.
Proof.
  unfold absolute. rewrite PyStrFacts.chars_app.
  change (PyStr.chars "/") with ["/"%char]. cbn [app].
  induction cs as [|c cs IH]; [done|]. intros _.
  destruct cs as [|c' cs].
  - cbn [String.concat slashed flat_map]. rewrite app_nil_r. done.
  - change (String.concat "/" (c :: c' :: cs))
      with (c ++ "/" ++ String.concat "/" (c' :: cs))%string.
    rewrite !PyStrFacts.chars_app. change (PyStr.chars "/") with ["/"%char].
    change (slashed (c :: c' :: cs))
      with ("/"%char :: PyStr.chars c ++ slashed (c' :: cs)).
    cbn [app]. f_equal. f_equal. apply IH. done.
Qed.

Lemma slashed_app a b : slashed (a ++ b) = slashed a ++ slashed b.
Proof. apply flat_map_app. Qed.

Lemma rfind_from_absent c f : forall i found,
  forallb (fun x => negb (Ascii.eqb x c)) f = true ->
  rfind_from c f i found = found.
Proof.
  induction f as [|a f IH]; intros i found; [done|]. cbn [forallb rfind_from].
  intros [Ha Hf]%andb_true_iff. apply negb_true_iff in Ha. rewrite Ha.
  apply IH. done.
Qed.

Lemma rfind_from_last c xs f : forall i found,
  forallb (fun x => negb (Ascii.eqb x c)) f = true ->
  rfind_from c (xs ++ c :: f) i found = (i + Z.of_nat (length xs))%Z.
Proof.
  induction xs as [|a xs IH]; intros i found Hf.
  - cbn [app rfind_from length]. rewrite Ascii.eqb_refl.
    rewrite rfind_from_absent by done. lia.
  - cbn [app rfind_from length]. rewrite IH by done. lia.
Qed.

Lemma firstn_snoc {A} (xs : list A) c f :
  firstn (S (length xs)) (xs ++ c :: f) = xs ++ [c].
Proof.
  induction xs as [|a xs IH]; [done|]. cbn [length app].
  change (firstn (S (S (length xs))) (a :: xs ++ c :: f))
    with (a :: firstn (S (length xs)) (xs ++ c :: f)).
  rewrite IH. done.
Qed.

Lemma dirname_eq p head :
  upto p (rfind p "/" + 1) = head ->
  os_path_dirname p
  = if negb (String.eqb head "")
       && negb (String.eqb head (times "/" (String.length head)))
    then rstrip head "/"
    else head.
Proof. intros <-. reflexivity. Qed.

Lemma slashed_cons_last c cs :
  forallb normal_name (c :: cs) = true ->
  exists pre a, slashed (c :: cs) = pre ++ [a] /\ Ascii.eqb a "/" = false.
Proof.
  revert c. induction cs as [|c' cs IH]; intros c.
  - cbn [forallb]. intros [Hc _]%andb_true_iff.
    destruct (normal_name_chars c Hc) as (a & r & E & Ha & Hns & _).
    cbn [slashed flat_map]. rewrite app_nil_r.
    destruct (exists_last (l := PyStr.chars c)) as (pre & z & Ez);
      [rewrite E; done|].
    exists ("/"%char :: pre), z. rewrite Ez. split; [done|].
    rewrite Ez, forallb_app in Hns. apply andb_true_iff in Hns as [_ Hz].
    cbn [forallb] in Hz. apply andb_true_iff in Hz as [Hz _].
    apply negb_true_iff in Hz. done.
  - intros H. change (forallb normal_name (c :: c' :: cs))
      with (normal_name c && forallb normal_name (c' :: cs)) in H.
    apply andb_true_iff in H as [_ H].
    destruct (IH c' H) as (pre & a & E & Ha).
    exists (("/"%char :: PyStr.chars c) ++ pre), a. split; [|done].
    change (slashed (c :: c' :: cs))
      with (("/"%char :: PyStr.chars c) ++ slashed (c' :: cs)).
    rewrite E, app_assoc. done.
Qed.

Lemma forallb_normal_no_slash f :
  normal_name f = true ->
  forallb (fun x => negb (Ascii.eqb x "/"%char)) (PyStr.chars f) = true.
Proof. intros (a & r & _ & _ & H & _)%normal_name_chars. done. Qed.

(** [dirname] of an absolute normalised path drops its last component. *)
Lemma dirname_absolute cs f :
  forallb normal_name (cs ++ [f]) = true ->
  os_path_dirname (absolute (cs ++ [f])) = absolute cs.
Proof.
  rewrite forallb_app. intros [Hcs Hf]%andb_true_iff.
  cbn [forallb] in Hf. apply andb_true_iff in Hf as [Hf _].
  assert (PyStr.chars (absolute (cs ++ [f]))
          = slashed cs ++ "/"%char :: PyStr.chars f) as Hch.
  { rewrite chars_absolute by (destruct cs; done).
    rewrite slashed_app. cbn [slashed flat_map]. rewrite app_nil_r. done. }
  rewrite (dirname_eq _ (of_chars (slashed cs ++ ["/"%char]))).
  2:{ unfold upto, rfind. rewrite Hch.
      rewrite rfind_from_last by (apply forallb_normal_no_slash; done).
      replace (Z.to_nat (0 + Z.of_nat (length (slashed cs)) + 1))
        with (S (length (slashed cs))) by lia.
      rewrite firstn_snoc. done. }
  destruct cs as [|c cs]; [reflexivity|].
  destruct (slashed_cons_last c cs Hcs) as (pre & a & E & Ha).
  assert (String.eqb (of_chars (slashed (c :: cs) ++ ["/"%char])) "" = false)
    as ->.
  { apply String.eqb_neq. intros H%(f_equal PyStr.chars).
    rewrite chars_of_chars in H. destruct (slashed (c :: cs)); done. }
  assert (String.eqb (of_chars (slashed (c :: cs) ++ ["/"%char]))
            (times "/" (String.length
                          (of_chars (slashed (c :: cs) ++ ["/"%char]))))
          = false) as ->.
  { apply String.eqb_neq. intros H%(f_equal PyStr.chars).
    unfold times in H. rewrite !chars_of_chars in H.
    assert (In a (slashed (c :: cs) ++ ["/"%char])) as Hin.
    { rewrite E. apply in_or_app. left. apply in_or_app. right. left. done. }
    rewrite H in Hin. apply repeat_spec in Hin. subst a. done. }
  cbn [negb andb]. unfold rstrip. rewrite chars_of_chars, rev_app_distr.
  cbn [rev app lstrip_chars]. rewrite Ascii.eqb_refl, E, rev_app_distr.
  cbn [rev app lstrip_chars]. rewrite Ha.
  change (a :: rev pre) with ([a] ++ rev pre).
  rewrite rev_app_distr, rev_involutive. cbn [rev app].
  rewrite <- E, <- chars_absolute by done. apply of_chars_chars.
Qed.

Lemma split_sep_word w : forall acc rest,
  forallb (fun x => negb (Ascii.eqb x "/"%char)) w = true ->
  split_sep acc (w ++ rest) = split_sep (rev w ++ acc) rest.
Proof.
  induction w as [|a w IH]; intros acc rest; [done|]. cbn [forallb].
  intros [Ha Hw]%andb_true_iff. apply negb_true_iff in Ha.
  cbn [app split_sep]. rewrite Ha, IH by done. cbn [rev].
  rewrite <- app_assoc. done.
Qed.

Lemma split_sep_slashed cs : forall acc,
  forallb normal_name cs = true ->
  split_sep acc (slashed cs) = of_chars (rev acc) :: cs.
Proof.
  induction cs as [|c cs IH]; intros acc; [done|]. cbn [forallb].
  intros [Hc Hcs]%andb_true_iff.
  change (slashed (c :: cs)) with ("/"%char :: PyStr.chars c ++ slashed cs).
  cbn [split_sep]. rewrite Ascii.eqb_refl. f_equal.
  rewrite split_sep_word by (apply forallb_normal_no_slash; done).
  rewrite IH by done. rewrite app_nil_r, rev_involutive, of_chars_chars. done.
Qed.

Lemma norm_step_normal k acc c :
  normal_name c = true -> norm_step k acc c = acc ++ [c].
Proof.
  intros (_ & _ & _ & _ & _ & H1 & H2 & H3)%normal_name_chars.
  unfold norm_step. rewrite H1, H2, H3. done.
Qed.

Lemma fold_norm_normal k cs : forall acc,
  forallb normal_name cs = true ->
  fold_left (norm_step k) cs acc = acc ++ cs.
Proof.
  induction cs as [|c cs IH]; intros acc; [rewrite app_nil_r; done|].
  cbn [forallb fold_left]. intros [Hc Hcs]%andb_true_iff.
  rewrite norm_step_normal, IH by done. rewrite <- app_assoc. done.
Qed.

(** [normpath] leaves an absolute normalised path as it is. *)
Lemma normpath_absolute cs :
  cs <> [] -> forallb normal_name cs = true ->
  os_path_normpath (absolute cs) = absolute cs.
Proof.
  intros Hne Hcs.
  assert (PyStr.startswith1 (absolute cs) "/" = true) as H1 by reflexivity.
  assert (PyStr.startswith1 (absolute cs) "//" = false) as H2.
  { unfold PyStr.startswith1. rewrite chars_absolute by done.
    destruct cs as [|c cs]; [done|]. cbn [forallb] in Hcs.
    apply andb_true_iff in Hcs as [Hc _].
    destruct (normal_name_chars c Hc) as (a & r & E & Ha & _).
    change (slashed (c :: cs)) with ("/"%char :: PyStr.chars c ++ slashed cs).
    rewrite E. change (PyStr.chars "//") with ["/"%char; "/"%char].
    cbn [app PyStr.starts]. rewrite Ascii.eqb_refl.
    rewrite (Ascii.eqb_sym "/" a), Ha. done. }
  unfold os_path_normpath.
  change (String.eqb (absolute cs) "") with false. cbn beta iota.
  rewrite H1, H2. cbn [andb Nat.eqb].
  unfold split. rewrite chars_absolute, split_sep_slashed by done.
  cbn [rev fold_left]. change (norm_step 1 [] (of_chars [])) with (@nil string).
  rewrite fold_norm_normal by done. cbn [app]. reflexivity.
Qed.

Lemma split_chars_slashed cs :
  forallb normal_name cs = true -> PyStr.split_chars [] (slashed cs) = cs.
Proof.
  induction cs as [|c cs IH]; [done|]. cbn [forallb].
  intros [Hc Hcs]%andb_true_iff.
  change (slashed (c :: cs)) with ("/"%char :: PyStr.chars c ++ slashed cs).
  cbn [PyStr.split_chars]. rewrite Ascii.eqb_refl.
  pose proof (components_plain c (normal_name_plain c Hc)) as Hp.
  unfold PyStr.components in Hp.
  destruct cs as [|c' cs].
  - cbn [slashed flat_map]. rewrite app_nil_r. done.
  - change (slashed (c' :: cs))
      with ("/"%char :: PyStr.chars c' ++ slashed cs) in *.
    rewrite split_chars_sep, Hp. cbn [app]. f_equal.
    specialize (IH Hcs). cbn [PyStr.split_chars] in IH.
    rewrite Ascii.eqb_refl in IH. done.
Qed.

(** X16.  Line 54 computes the project root from the place of the
    script.  When the path of the script, made absolute with the
    working directory if it is relative, is a normalised absolute path
    [/c1/.../cn/d/f], the root directory is [/c1/.../cn], the directory
    two levels above the script ([/] when n is 0), and the components
    of that string are [c1, ..., cn]. *)
Theorem root_dir_two_levels_up cwd file cs d f :
  forallb normal_name (cs ++ [d; f]) = true ->
  (if PyStr.startswith1 file "/" then file else PyStr.os_path_join cwd file)
  = absolute (cs ++ [d; f]) ->
  root_dir_of cwd file = absolute cs
  /\ PyStr.components (root_dir_of cwd file) = cs.
Proof.
  intros Hn Hp. unfold root_dir_of, os_path_abspath. rewrite Hp.
  rewrite normpath_absolute by (try done; destruct cs; done).
  change (cs ++ [d; f]) with (cs ++ [d] ++ [f]) in *.
  rewrite app_assoc in *. rewrite dirname_absolute by done.
  rewrite forallb_app in Hn. apply andb_true_iff in Hn as [Hn _].
  rewrite dirname_absolute by done. split; [done|].
  rewrite forallb_app in Hn. apply andb_true_iff in Hn as [Hn _].
  destruct cs as [|c cs]; [reflexivity|].
  unfold PyStr.components. rewrite chars_absolute by done.
  apply split_chars_slashed. done.
Qed.

Lemma root_dir_two_levels_up_witness :
  root_dir_of "/home/dev" "/proj/scripts/cleanup.py" = text root0
  /\ PyStr.components (root_dir_of "/home/dev" "/proj/scripts/cleanup.py")
     = parts root0
  /\ root_dir_of "/proj" "scripts/cleanup.py" = text root0.
Proof.
  assert (forallb normal_name (["proj"] ++ ["scripts"; "cleanup.py"]) = true)
    as Hn by (vm_compute; reflexivity).
  destruct (root_dir_two_levels_up "/home/dev" "/proj/scripts/cleanup.py"
              ["proj"] "scripts" "cleanup.py" Hn eq_refl) as [H1 H2].
  destruct (root_dir_two_levels_up "/proj" "scripts/cleanup.py"
              ["proj"] "scripts" "cleanup.py" Hn eq_refl) as [H3 _].
  split; [exact H1|]. split; [exact H2|exact H3].
Defined.

End Extras.
